(** * Amana Bookstore Express API: a shallow embedding of [server.js]

    The server keeps two arrays of records in memory ([books], [reviews]),
    mirrors them into two JSON files, serves six GET routes and two POST
    routes, the latter behind the [basicAuth] middleware.

    Values are the JavaScript values the program can hold: they come from
    [JSON.parse] (data files, request bodies) or are built by the handlers.
    Numbers are IEEE doubles (Rocq's primitive floats), so [NaN], the
    infinities and the negative zero are values like the others.  [undefined]
    is the [None] of [option value].  No handler mutates a record after it
    was built, so records are modelled as trees and not as heap cells.  A
    string is the sequence of the bytes of its UTF-8 encoding. *)

From Stdlib Require Import List String Ascii Bool ZArith Lia.
From Stdlib Require Import FloatClass PrimFloat FloatOps SpecFloat FloatAxioms DecimalString.
From Stdlib Require Import Permutation.
Import ListNotations.
Local Open Scope string_scope.
Local Open Scope list_scope.

(** ** JavaScript values *)

#[local] Set Warnings "-register-all".

Inductive value : Type :=
| VNull
| VBool (b : bool)
| VNum (x : float)
| VStr (s : string)
| VArr (items : list value)
| VObj (props : list (string * value)).

(** An object is its own properties in insertion order; keys are distinct
    in every object the program builds or parses. *)
Definition obj : Type := list (string * value).

(** [o.k]: the property named [k], [None] ([undefined]) when absent. *)
Fixpoint prop (o : obj) (k : string) : option value :=
  match o with
  | [] => None
  | (k', v) :: o' => if String.eqb k' k then Some v else prop o' k
  end.

(** [o[k] = v]: overwrite in place when the key exists, append otherwise. *)
Fixpoint set_prop (o : obj) (k : string) (v : value) : obj :=
  match o with
  | [] => [(k, v)]
  | (k', v') :: o' =>
      if String.eqb k' k then (k', v) :: o' else (k', v') :: set_prop o' k v
  end.

(** Property read on an arbitrary value, for the names the handlers
    destructure ([title], [bookId], ...): only an object has them. *)
Definition field (v : value) (k : string) : option value :=
  match v with
  | VObj o => prop o k
  | _ => None
  end.

(** ToBoolean. *)
Definition truthy (v : value) : bool :=
  match v with
  | VNull => false
  | VBool b => b
  | VNum x => negb (is_zero x || is_nan x)
  | VStr s => negb (String.eqb s "")
  | VArr _ => true
  | VObj _ => true
  end.

(** [!x] for a possibly [undefined] operand. *)
Definition falsy (x : option value) : bool :=
  match x with
  | None => true
  | Some v => negb (truthy v)
  end.

(** [x || d]. *)
Definition or_else (x : option value) (d : value) : value :=
  match x with
  | Some v => if truthy v then v else d
  | None => d
  end.

(** [a === b] between two values that are not the same heap object: the
    program only ever compares a stored field with a request parameter or
    with a literal, so two arrays or two objects are never identical. *)
Definition strict_eq (a b : option value) : bool :=
  match a, b with
  | None, None => true
  | Some VNull, Some VNull => true
  | Some (VBool x), Some (VBool y) => Bool.eqb x y
  | Some (VNum x), Some (VNum y) => PrimFloat.eqb x y
  | Some (VStr x), Some (VStr y) => String.eqb x y
  | _, _ => false
  end.

(** ** Strings *)

(** [s.split(c)] for a one-character separator: never empty. *)
Fixpoint split (c : ascii) (s : string) : list string :=
  match s with
  | EmptyString => [EmptyString]
  | String a s' =>
      if Ascii.eqb a c then EmptyString :: split c s'
      else match split c s' with
           | [] => [String a EmptyString]
           | t :: ts => String a t :: ts
           end
  end.

(** [parts.join(c)]. *)
Fixpoint join (c : string) (parts : list string) : string :=
  match parts with
  | [] => ""
  | [p] => p
  | p :: ps => p ++ c ++ join c ps
  end.

Fixpoint occurs (c : ascii) (s : string) : bool :=
  match s with
  | EmptyString => false
  | String a s' => Ascii.eqb a c || occurs c s'
  end.

Definition lower_ascii (a : ascii) : ascii :=
  let n := nat_of_ascii a in
  if (Nat.leb 65 n && Nat.leb n 90)%bool then ascii_of_nat (n + 32) else a.

Fixpoint lower (s : string) : string :=
  match s with
  | EmptyString => EmptyString
  | String a s' => String (lower_ascii a) (lower s')
  end.

(** The double quote, for string literals that contain one. *)
Definition dquote : string := String "034"%char EmptyString.

(** ** JSON documents

    The content of a data file is modelled by its JSON syntax tree; the
    layout of the text ([JSON.stringify]'s indentation of two spaces) is not
    represented.  A number literal is represented by the double it denotes:
    [JSON.stringify] prints the shortest literal that reads back as the same
    double. *)

Inductive json : Type :=
| JNull
| JBool (b : bool)
| JNum (x : float)
| JStr (s : string)
| JArr (items : list json)
| JObj (members : list (string * json)).

(** SerializeJSONProperty for a number: a number that is not finite is
    written [null], and the negative zero is written [0]. *)
Definition stringify_number (x : float) : json :=
  match classify x with
  | FloatClass.NaN | PInf | NInf => JNull
  | NZero => JNum zero
  | _ => JNum x
  end.

(** [JSON.stringify(v)], up to layout. *)
Fixpoint JSON_stringify (v : value) : json :=
  match v with
  | VNull => JNull
  | VBool b => JBool b
  | VNum x => stringify_number x
  | VStr s => JStr s
  | VArr items => JArr (map JSON_stringify items)
  | VObj props => JObj (map (fun kv => (fst kv, JSON_stringify (snd kv))) props)
  end.

(** [JSON.parse(text)] on a well-formed text: members are defined on the
    object one after the other, so that the last of two members with the same
    name wins. *)
Fixpoint JSON_parse (j : json) : value :=
  match j with
  | JNull => VNull
  | JBool b => VBool b
  | JNum x => VNum x
  | JStr s => VStr s
  | JArr items => VArr (map JSON_parse items)
  | JObj members =>
      VObj (fold_left (fun o kv => set_prop o (fst kv) (JSON_parse (snd kv)))
                      members [])
  end.

(** ** The platform

    What the program takes from Node.js and uses as a black box.  Every
    theorem below holds for any platform; [Node] further down gives an
    executable one for the examples. *)

Record platform : Type := {
  (** [Buffer.from(s, 'base64').toString()] *)
  base64_toString : string -> string;
  (** [new Date(v).getTime()] for [v] undefined or a primitive value, [NaN]
      for an invalid date (an object or array is first converted to a
      string, see [new_Date] below) *)
  date_getTime : option value -> float;
  (** Number::toString *)
  number_toString : float -> string;
  (** StringToNumber *)
  string_toNumber : string -> float;
  (** [decodeURIComponent(s)], [None] when it throws URIError *)
  decodeURIComponent : string -> option string
}.

(** The values a handler draws from its environment while serving one
    request. *)
Inductive fs_outcome : Type :=
| WriteOk              (* both files are written *)
| BooksWriteFails      (* the first [writeFileSync] throws before it opens the file *)
| ReviewsWriteFails    (* the second [writeFileSync] throws before it opens the file *)
| BooksWriteBreaks (complete : bool)
                       (* the first [writeFileSync] throws after it opened the file *)
| ReviewsWriteBreaks (complete : bool).
                       (* the second [writeFileSync] throws after it opened the file *)

Record env : Type := {
  randomUUID : string;       (* [crypto.randomUUID()] *)
  today : string;            (* [new Date().toISOString().split('T')[0]] *)
  now_iso : string;          (* [new Date().toISOString()] *)
  disk : fs_outcome
}.

(** ** Coercions *)

(** A conversion that can throw: [None] stands for the TypeError of
    ToPrimitive ("Cannot convert object to primitive value"). *)
Definition conversion_error : string :=
  "TypeError: Cannot convert object to primitive value".

(** [parts.join(c)] over parts whose conversion can throw. *)
Fixpoint join_converted (c : string) (parts : list (option string)) : option string :=
  match parts with
  | [] => Some ""
  | [p] => p
  | p :: ps =>
      match p, join_converted c ps with
      | Some x, Some rest => Some (x ++ c ++ rest)%string
      | _, _ => None
      end
  end.

(** ToString.  An array is joined, each item converted in turn ([null]
    gives the empty string).  An object parsed from JSON has no callable
    property of its own: when it has a property named [toString] of its own,
    neither that nor [valueOf] yields a primitive value and the conversion
    throws; otherwise [Object.prototype.toString] answers. *)
Fixpoint toString (P : platform) (v : value) : option string :=
  match v with
  | VNull => Some "null"
  | VBool true => Some "true"
  | VBool false => Some "false"
  | VNum x => Some (number_toString P x)
  | VStr s => Some s
  | VArr items =>
      join_converted "," (map (fun i => match i with
                                        | VNull => Some ""
                                        | _ => toString P i
                                        end) items)
  | VObj props =>
      match prop props "toString" with
      | Some _ => None
      | None => Some "[object Object]"
      end
  end.

(** ToNumber. *)
Definition toNumber (P : platform) (x : option value) : option float :=
  match x with
  | None => Some nan
  | Some VNull => Some zero
  | Some (VBool true) => Some one
  | Some (VBool false) => Some zero
  | Some (VNum n) => Some n
  | Some (VStr s) => Some (string_toNumber P s)
  | Some v =>
      match toString P v with
      | Some s => Some (string_toNumber P s)
      | None => None
      end
  end.

(** [new Date(v).getTime()]: an array or an object is converted to a
    primitive value first, which can throw. *)
Definition new_Date (P : platform) (v : option value) : option float :=
  match v with
  | Some (VArr _ as o) | Some (VObj _ as o) =>
      match toString P o with
      | Some s => Some (date_getTime P (Some (VStr s)))
      | None => None
      end
  | _ => Some (date_getTime P v)
  end.

(** *** [parseInt(s, 10)]

    Leading white space is skipped, then an optional sign is read, then the
    longest run of decimal digits; no digit gives [NaN], and a sign in front
    of zero gives the negative zero.  White space is every StrWhiteSpaceChar:
    TAB, LF, VT, FF, CR, SP, and in UTF-8 U+00A0, U+1680, U+2000 to U+200A,
    U+2028, U+2029, U+202F, U+205F, U+3000 and U+FEFF. *)

Definition is_space (a : ascii) : bool :=
  let n := nat_of_ascii a in
  (Nat.eqb n 32 || (Nat.leb 9 n && Nat.leb n 13))%bool.

(** U+00A0 is C2 A0. *)
Definition is_space2 (a b : ascii) : bool :=
  (Nat.eqb (nat_of_ascii a) 194 && Nat.eqb (nat_of_ascii b) 160)%bool.

(** U+1680 is E1 9A 80; U+2000 to U+200A, U+2028, U+2029 and U+202F are
    E2 80 80 to E2 80 8A, E2 80 A8, E2 80 A9 and E2 80 AF; U+205F is E2 81 9F;
    U+3000 is E3 80 80; U+FEFF is EF BB BF. *)
Definition is_space3 (a b c : ascii) : bool :=
  let x := nat_of_ascii a in
  let y := nat_of_ascii b in
  let z := nat_of_ascii c in
  ((Nat.eqb x 225 && Nat.eqb y 154 && Nat.eqb z 128)
   || (Nat.eqb x 226 && Nat.eqb y 128
       && ((Nat.leb 128 z && Nat.leb z 138)
           || Nat.eqb z 168 || Nat.eqb z 169 || Nat.eqb z 175))
   || (Nat.eqb x 226 && Nat.eqb y 129 && Nat.eqb z 159)
   || (Nat.eqb x 227 && Nat.eqb y 128 && Nat.eqb z 128)
   || (Nat.eqb x 239 && Nat.eqb y 187 && Nat.eqb z 191))%bool.

Fixpoint trim_start (s : string) : string :=
  match s with
  | EmptyString => EmptyString
  | String a s1 =>
      if is_space a then trim_start s1
      else
        match s1 with
        | EmptyString => s
        | String b s2 =>
            if is_space2 a b then trim_start s2
            else
              match s2 with
              | EmptyString => s
              | String c s3 => if is_space3 a b c then trim_start s3 else s
              end
        end
  end.

Definition digit (a : ascii) : option Z :=
  let n := nat_of_ascii a in
  if (Nat.leb 48 n && Nat.leb n 57)%bool then Some (Z.of_nat (n - 48)) else None.

(** The longest prefix of decimal digits, most significant first. *)
Fixpoint leading_digits (s : string) : list Z :=
  match s with
  | EmptyString => []
  | String a s' =>
      match digit a with
      | Some d => d :: leading_digits s'
      | None => []
      end
  end.

Definition digits_value (ds : list Z) : Z :=
  fold_left (fun acc d => (10 * acc + d)%Z) ds 0%Z.

(** The double nearest to an integer. *)
Definition Z_to_number (z : Z) : float :=
  SF2Prim (binary_normalize prec emax z 0 false).

Definition parseInt_string (s : string) : float :=
  let s1 := trim_start s in
  let '(negative, s2) :=
    match s1 with
    | String "-" r => (true, r)
    | String "+" r => (false, r)
    | _ => (false, s1)
    end in
  match leading_digits s2 with
  | [] => nan
  | ds =>
      let n := Z_to_number (digits_value ds) in
      if negative then (- n)%float else n
  end.

(** [parseInt(v, 10)]: the argument is converted to a string first, which
    can throw. *)
Definition parseInt (P : platform) (v : value) : option float :=
  match toString P v with
  | Some s => Some (parseInt_string s)
  | None => None
  end.

(** ** The repository: two collections and their two files *)

(** A file holds a JSON text, or is missing or not JSON ([None]). *)
Definition file : Type := option json.

Record state : Type := {
  books : list obj;
  reviews : list obj;
  booksPath : file;      (* data/books.json *)
  reviewsPath : file;    (* data/reviews.json *)
  saves : nat            (* how many times [saveData] was entered *)
}.

Definition array_of (records : list obj) : value := VArr (map VObj records).

(** [writeFileSync] opens the file with the flag [w], which empties it,
    writes the text and closes the file.  When it throws before the file is
    open, the file is as it was.  When it throws after that, the file holds
    the whole text if the text had been written ([complete]), and otherwise
    a proper prefix of it, which is not a JSON text. *)
Definition left_by_a_broken_write (complete : bool) (data : json) : file :=
  if complete then Some data else None.

(** [saveData]: both collections are written in full; a failed write is
    logged and everything after it in the [try] block is skipped. *)
Definition saveData (w : fs_outcome) (st : state) : state :=
  let booksData := JSON_stringify (VObj [("books", array_of (books st))]) in
  let reviewsData := JSON_stringify (VObj [("reviews", array_of (reviews st))]) in
  match w with
  | WriteOk =>
      {| books := books st; reviews := reviews st;
         booksPath := Some booksData; reviewsPath := Some reviewsData;
         saves := S (saves st) |}
  | BooksWriteFails =>
      {| books := books st; reviews := reviews st;
         booksPath := booksPath st; reviewsPath := reviewsPath st;
         saves := S (saves st) |}
  | ReviewsWriteFails =>
      {| books := books st; reviews := reviews st;
         booksPath := Some booksData; reviewsPath := reviewsPath st;
         saves := S (saves st) |}
  | BooksWriteBreaks complete =>
      {| books := books st; reviews := reviews st;
         booksPath := left_by_a_broken_write complete booksData;
         reviewsPath := reviewsPath st;
         saves := S (saves st) |}
  | ReviewsWriteBreaks complete =>
      {| books := books st; reviews := reviews st;
         booksPath := Some booksData;
         reviewsPath := left_by_a_broken_write complete reviewsData;
         saves := S (saves st) |}
  end.

(** The records of a parsed array, when it is an array of objects. *)
Fixpoint records_of (items : list value) : option (list obj) :=
  match items with
  | [] => Some []
  | VObj o :: rest =>
      match records_of rest with
      | Some os => Some (o :: os)
      | None => None
      end
  | _ :: _ => None
  end.

Inductive loaded : Type :=
| Loaded (books reviews : list obj)
| Exited               (* [process.exit(1)]: a file is missing or not JSON *)
| NotCollections.      (* the files parse but do not hold arrays of records *)

(** [loadData]: reads and parses both files. *)
Definition loadData (booksFile reviewsFile : file) : loaded :=
  match booksFile, reviewsFile with
  | Some booksData, Some reviewsData =>
      match JSON_parse booksData, JSON_parse reviewsData with
      | VNull, _ | _, VNull => Exited     (* a property read on [null] throws *)
      | b, r =>
          match field b "books", field r "reviews" with
          | Some (VArr bs), Some (VArr rs) =>
              match records_of bs, records_of rs with
              | Some bs', Some rs' => Loaded bs' rs'
              | _, _ => NotCollections
              end
          | _, _ => NotCollections
          end
      end
  | _, _ => Exited
  end.

(** ** Requests and responses *)

(** The two verbs for which [server.js] registers routes. *)
Inductive method : Type := GET | POST.

(** A request as the routes receive it, after the middleware in front of
    them: [express.json()] has parsed the body (see [http_request] and
    [server] for the request as it arrives). *)
Record request : Type := {
  verb : method;
  path : list string;              (* the URL path, split at the slashes *)
  query : obj;                     (* [req.query] *)
  authorization : option string;   (* [req.headers.authorization] *)
  body : value                     (* [req.body], as [express.json()] left it *)
}.

Inductive payload : Type :=
| Text (s : string)      (* [res.send(s)] *)
| Json (v : value).      (* [res.json(v)]: the value handed over *)

Record response : Type := {
  status : nat;
  headers : list (string * string);   (* those the program sets itself *)
  content : payload
}.

Definition send (code : nat) (s : string) : response :=
  {| status := code; headers := []; content := Text s |}.

Definition sendJson (code : nat) (v : value) : response :=
  {| status := code; headers := []; content := Json v |}.

Definition message (s : string) : value := VObj [("message", VStr s)].

(** ** The authentication middleware *)

Inductive middleware_result : Type :=
| Next                       (* [next()] *)
| Answered (r : response)    (* the middleware sent the response itself *)
| Thrown (error : string).   (* an exception left the middleware *)

Definition a_user : string := "medhat".
Definition a_pass : string := "Hero97".

Definition challenge (s : string) : response :=
  {| status := 401;
     headers := [("WWW-Authenticate",
                  ("Basic realm=" ++ dquote ++ "Restricted Area" ++ dquote)%string)];
     content := Text s |}.

Definition basicAuth (P : platform) (authHeader : option string) : middleware_result :=
  let required := Answered (challenge "Authentication required.") in
  let failed := Answered (challenge "Authentication failed: Invalid credentials.") in
  match authHeader with
  | None => required
  | Some h =>
      if String.eqb h "" then required      (* [!authHeader] *)
      else
        match nth_error (split " " h) 1 with
        | None =>
            (* [Buffer.from(undefined, 'base64')] *)
            Thrown "TypeError [ERR_INVALID_ARG_TYPE]: The first argument must be of type string"
        | Some encoded =>
            let fields := split ":" (base64_toString P encoded) in
            let username := nth_error fields 0 in
            let password := nth_error fields 1 in
            match username, password with
            | Some u, Some p =>
                if String.eqb u a_user && String.eqb p a_pass then Next else failed
            | _, _ => failed
            end
        end
  end.

(** ** Route handlers

    A handler reads the request and the route parameters, may change the
    state, and sends exactly one response. *)

Definition params : Type := list (string * string).

Fixpoint param (ps : params) (name : string) : option value :=
  match ps with
  | [] => None
  | (n, x) :: ps' => if String.eqb n name then Some (VStr x) else param ps' name
  end.

Definition handler : Type :=
  platform -> env -> params -> request -> state -> state * response.

(** 1. [app.get('/api/books')] *)
Definition get_api_books : handler :=
  fun _ _ _ _ st => (st, sendJson 200 (array_of (books st))).

(** 2. [app.get('/api/books/:id')] *)
Definition get_api_books_id : handler :=
  fun _ _ ps _ st =>
    match find (fun b => strict_eq (prop b "id") (param ps "id")) (books st) with
    | Some book => (st, sendJson 200 (VObj book))
    | None => (st, send 404 "Book not found")
    end.

(** [books.filter(book => { const publishedDate = new Date(book.datePublished);
    return publishedDate >= start && publishedDate <= end; })]: [None] when
    a date cannot be built, which ends the whole filter. *)
Fixpoint filter_dates (P : platform) (start end_ : float) (l : list obj)
  : option (list obj) :=
  match l with
  | [] => Some []
  | book :: l' =>
      match new_Date P (prop book "datePublished") with
      | None => None
      | Some publishedDate =>
          match filter_dates P start end_ l' with
          | None => None
          | Some rest =>
              if leb start publishedDate && leb publishedDate end_
              then Some (book :: rest) else Some rest
          end
      end
  end.

(** 3. [app.get('/api/books/published')] *)
Definition get_api_books_published : handler :=
  fun P _ _ req st =>
    let startDate := prop (query req) "startDate" in
    let endDate := prop (query req) "endDate" in
    if falsy startDate || falsy endDate then
      (st, send 400 "Please provide both startDate and endDate query parameters.")
    else
      match new_Date P startDate, new_Date P endDate with
      | Some start, Some end_ =>
          if is_nan start || is_nan end_ then
            (st, send 400 "Invalid date format. Please use YYYY-MM-DD.")
          else
            match filter_dates P start end_ (books st) with
            | Some filteredBooks => (st, sendJson 200 (array_of filteredBooks))
            | None => (st, send 500 conversion_error)
            end
      | _, _ => (st, send 500 conversion_error)
      end.

(** [Array.prototype.sort] with a comparison function: the sort is stable,
    [x] stays in front of [y] unless the comparison is positive, and a [NaN]
    comparison counts as zero.  (What the engine does with a comparison
    function that is not a consistent order is not specified by the language;
    this is the insertion order a stable sort yields for a consistent one.) *)
Fixpoint insert_sorted (comparefn : obj -> obj -> float) (x : obj) (l : list obj)
  : list obj :=
  match l with
  | [] => [x]
  | y :: l' =>
      if ltb zero (comparefn x y) then y :: insert_sorted comparefn x l'
      else x :: y :: l'
  end.

Fixpoint sort (comparefn : obj -> obj -> float) (l : list obj) : list obj :=
  match l with
  | [] => []
  | x :: l' => insert_sorted comparefn x (sort comparefn l')
  end.

(** [arr.slice(0, n)] *)
Definition slice0 (n : nat) (l : list obj) : list obj := firstn n l.

(** [book.rating * book.reviewCount]: both operands are converted to
    numbers, which can throw. *)
Definition ratingScore (P : platform) (book : obj) : option float :=
  match toNumber P (prop book "rating"), toNumber P (prop book "reviewCount") with
  | Some rating, Some reviewCount => Some (mul rating reviewCount)
  | _, _ => None
  end.

(** [books.map(book => ({...book, ratingScore: book.rating * book.reviewCount}))]:
    [None] when a score cannot be computed, which ends the whole map. *)
Fixpoint map_scores (P : platform) (l : list obj) : option (list obj) :=
  match l with
  | [] => Some []
  | book :: l' =>
      match ratingScore P book, map_scores P l' with
      | Some score, Some rest => Some (set_prop book "ratingScore" (VNum score) :: rest)
      | _, _ => None
      end
  end.

(** The [ratingScore] of a projected Book, which is a number. *)
Definition score_of (scored : obj) : float :=
  match prop scored "ratingScore" with
  | Some (VNum score) => score
  | _ => nan
  end.

(** 4. [app.get('/api/books/top-rated')] *)
Definition get_api_books_top_rated : handler :=
  fun P _ _ _ st =>
    match map_scores P (books st) with
    | Some scored =>
        let topBooks :=
          slice0 10 (sort (fun a b => sub (score_of b) (score_of a)) scored) in
        (st, sendJson 200 (array_of topBooks))
    | None => (st, send 500 conversion_error)
    end.

(** 5. [app.get('/api/featured')] *)
Definition get_api_featured : handler :=
  fun _ _ _ _ st =>
    let featuredBooks :=
      filter (fun book => strict_eq (prop book "featured") (Some (VBool true)))
             (books st) in
    (st, sendJson 200 (array_of featuredBooks)).

(** 6. [app.get('/api/books/:id/reviews')] *)
Definition get_api_books_id_reviews : handler :=
  fun _ _ ps _ st =>
    let bookReviews :=
      filter (fun review => strict_eq (prop review "bookId") (param ps "id"))
             (reviews st) in
    let bookExists :=
      existsb (fun book => strict_eq (prop book "id") (param ps "id")) (books st) in
    if negb bookExists then (st, send 404 "Book not found.")
    else (st, sendJson 200 (array_of bookReviews)).

(** [books.push(newBook)] / [reviews.push(newReview)] *)
Definition push_book (newBook : obj) (st : state) : state :=
  {| books := books st ++ [newBook]; reviews := reviews st;
     booksPath := booksPath st; reviewsPath := reviewsPath st;
     saves := saves st |}.

Definition push_review (newReview : obj) (st : state) : state :=
  {| books := books st; reviews := reviews st ++ [newReview];
     booksPath := booksPath st; reviewsPath := reviewsPath st;
     saves := saves st |}.

(** 1. [app.post('/api/books', basicAuth, ...)], after the middleware *)
Definition post_api_books : handler :=
  fun _ e _ req st =>
    let get := field (body req) in
    let missing :=
      (st, sendJson 400
             (message "Missing required fields: title, author, and isbn are required.")) in
    if falsy (get "title") || falsy (get "author") || falsy (get "isbn") then missing
    else
      match get "title", get "author", get "isbn" with
      | Some title, Some author, Some isbn =>
          let newBook : obj :=
            [ ("id", VStr (randomUUID e));
              ("title", title);
              ("author", author);
              ("description", or_else (get "description") (VStr ""));
              ("price", or_else (get "price") (VNum zero));
              ("isbn", isbn);
              ("genre", or_else (get "genre") (VArr []));
              ("tags", or_else (get "tags") (VArr []));
              ("datePublished", or_else (get "datePublished") (VStr (today e)));
              ("pages", or_else (get "pages") (VNum zero));
              ("language", or_else (get "language") (VStr "English"));
              ("publisher", or_else (get "publisher") (VStr ""));
              ("rating", VNum zero);
              ("reviewCount", VNum zero);
              ("inStock", VBool true);
              ("featured", VBool false) ] in
          (saveData (disk e) (push_book newBook st), sendJson 201 (VObj newBook))
      | _, _, _ => missing     (* not reached: [undefined] is falsy *)
      end.

(** 2. [app.post('/api/reviews', basicAuth, ...)], after the middleware *)
Definition post_api_reviews : handler :=
  fun P e _ req st =>
    let get := field (body req) in
    let missing :=
      (st, sendJson 400
             (message "Missing required fields: bookId, author, rating, and comment are required.")) in
    if falsy (get "bookId") || falsy (get "author")
       || falsy (get "rating") || falsy (get "comment") then missing
    else
      match get "bookId", get "author", get "rating", get "comment" with
      | Some bookId, Some author, Some rating, Some comment =>
          let bookExists :=
            existsb (fun book => strict_eq (prop book "id") (Some bookId)) (books st) in
          if negb bookExists then
            (st, sendJson 404
                   (message "Book not found. Cannot add a review for a non-existent book."))
          else
            match parseInt P rating with
            | None => (st, send 500 conversion_error)
            | Some rating_number =>
                let newReview : obj :=
                  [ ("id", VStr ("review-" ++ randomUUID e));
                    ("bookId", bookId);
                    ("author", author);
                    ("rating", VNum rating_number);
                    ("title", or_else (get "title") (VStr ""));
                    ("comment", comment);
                    ("timestamp", VStr (now_iso e));
                    ("verified", VBool false) ] in
                (saveData (disk e) (push_review newReview st),
                 sendJson 201 (VObj newReview))
            end
      | _, _, _, _ => missing     (* not reached: [undefined] is falsy *)
      end.

(** ** The router

    Express tries the routes in the order of their registration and hands
    the request to the first one whose verb and path match; none of the
    handlers above passes the request on.  Literal segments match without
    regard to case, a parameter takes any non-empty segment, and one trailing
    slash is allowed, as with the default settings.  A parameter is the
    segment as it was sent; the decoding that Express applies to it is added
    by [route_request] below. *)

Inductive segment : Type :=
| Lit (s : string)
| Param (name : string).

Fixpoint match_path (pattern : list segment) (p : list string) : option params :=
  match pattern, p with
  | [], [] => Some []
  | [], [""] => Some []
  | Lit s :: pattern', x :: p' =>
      if String.eqb (lower x) (lower s) then match_path pattern' p' else None
  | Param name :: pattern', x :: p' =>
      if String.eqb x "" then None
      else match match_path pattern' p' with
           | Some ps => Some ((name, x) :: ps)
           | None => None
           end
  | _, _ => None
  end.

Record route : Type := {
  route_verb : method;
  route_path : list segment;
  route_auth : bool;           (* is [basicAuth] in front of the handler? *)
  route_handler : handler
}.

Definition method_eqb (a b : method) : bool :=
  match a, b with
  | GET, GET | POST, POST => true
  | _, _ => false
  end.

(** The routes, in the order [server.js] registers them. *)
Definition app : list route :=
  [ {| route_verb := GET; route_path := [Lit "api"; Lit "books"];
       route_auth := false; route_handler := get_api_books |};
    {| route_verb := GET; route_path := [Lit "api"; Lit "books"; Param "id"];
       route_auth := false; route_handler := get_api_books_id |};
    {| route_verb := GET; route_path := [Lit "api"; Lit "books"; Lit "published"];
       route_auth := false; route_handler := get_api_books_published |};
    {| route_verb := GET; route_path := [Lit "api"; Lit "books"; Lit "top-rated"];
       route_auth := false; route_handler := get_api_books_top_rated |};
    {| route_verb := GET; route_path := [Lit "api"; Lit "featured"];
       route_auth := false; route_handler := get_api_featured |};
    {| route_verb := GET; route_path := [Lit "api"; Lit "books"; Param "id"; Lit "reviews"];
       route_auth := false; route_handler := get_api_books_id_reviews |};
    {| route_verb := POST; route_path := [Lit "api"; Lit "books"];
       route_auth := true; route_handler := post_api_books |};
    {| route_verb := POST; route_path := [Lit "api"; Lit "reviews"];
       route_auth := true; route_handler := post_api_reviews |} ].

(** A route that matched: the middleware first, when there is one.  An
    exception thrown by a middleware reaches Express's default error handler,
    which answers 500 (its body, a page built from the error, is represented
    by the error's text). *)
Definition enter (P : platform) (e : env) (r : route) (ps : params)
                 (req : request) (st : state) : state * response :=
  if route_auth r then
    match basicAuth P (authorization req) with
    | Next => route_handler r P e ps req st
    | Answered resp => (st, resp)
    | Thrown error => (st, send 500 error)
    end
  else route_handler r P e ps req st.

Fixpoint dispatch (routes : list route) (P : platform) (e : env)
                  (req : request) (st : state) : state * response :=
  match routes with
  | [] => (st, send 404 "Not Found")
  | r :: routes' =>
      if method_eqb (route_verb r) (verb req) then
        match match_path (route_path r) (path req) with
        | Some ps => enter P e r ps req st
        | None => dispatch routes' P e req st
        end
      else dispatch routes' P e req st
  end.

(** The routes answering one request that reached them: the body parser
    has accepted the body, and the path segments are taken as they are, which
    is what Express does when no route parameter needs decoding.  [server]
    below is the whole application, with the body parser in front and with
    the decoding of the route parameters. *)
Definition serve (P : platform) (e : env) (req : request) (st : state)
  : state * response :=
  dispatch app P e req st.

(** The routes answering requests one after the other (a single event
    loop: a request is served to completion before the next one). *)
Fixpoint run (P : platform) (reqs : list (env * request)) (st : state) : state :=
  match reqs with
  | [] => st
  | (e, req) :: reqs' => run P reqs' (fst (serve P e req st))
  end.

(** ** The whole application

    [app.use(express.json())] stands in front of every route.  A body that
    is the JSON text of an object or of an array becomes [req.body].  The
    parser answers itself, through the default error handler and before any
    route or [basicAuth] is entered, when it refuses the body: 400 for a text
    that is not JSON or whose top level is neither an object nor an array,
    413 for a body over the limit of 100 kB, 415 for an unsupported charset
    or content encoding.  When the request has no body, or one that is not
    declared as JSON, [req.body] is [{}] with Express 4 and stays [undefined]
    with Express 5. *)

Inductive express_version : Type := Express4 | Express5.

Inductive body_in : Type :=
| NoJsonBody               (* no body, or one that is not application/json *)
| JsonBody (v : value)     (* a JSON text within the limit, and its value *)
| NotJson                  (* declared as JSON, refused by [JSON.parse] *)
| TooLarge                 (* more than 100 kB *)
| Unsupported.             (* unsupported charset or content encoding *)

Definition refusal (code : nat) (error : string) : response := send code error.

(** [req.body] after the parser ([None] for [undefined]), or the answer of
    the parser. *)
Definition express_json (V : express_version) (b : body_in)
  : option value + response :=
  match b with
  | NoJsonBody =>
      match V with
      | Express4 => inl (Some (VObj []))
      | Express5 => inl None
      end
  | JsonBody (VObj o) => inl (Some (VObj o))
  | JsonBody (VArr items) => inl (Some (VArr items))
  | JsonBody _ => inr (refusal 400 "SyntaxError: Unexpected token in JSON")
  | NotJson => inr (refusal 400 "SyntaxError: Unexpected token in JSON")
  | TooLarge => inr (refusal 413 "PayloadTooLargeError: request entity too large")
  | Unsupported => inr (refusal 415 "UnsupportedMediaTypeError: unsupported charset")
  end.

(** A request as it arrives: a GET or a POST, with the one header the
    program reads.  (A conditional GET, which Express answers 304 by itself
    when the validator matches, is not represented.) *)
Record http_request : Type := {
  http_verb : method;
  http_path : list string;              (* the URL path as sent, split at the slashes *)
  http_query : obj;                     (* [req.query] *)
  http_authorization : option string;   (* [req.headers.authorization] *)
  http_body : body_in
}.

(** The request that the body parser hands to the routes. *)
Definition parsed (h : http_request) (b : value) : request :=
  {| verb := http_verb h; path := http_path h; query := http_query h;
     authorization := http_authorization h; body := b |}.

(** Express decodes the parameters of a route whose path matched. *)
Fixpoint decode_params (P : platform) (ps : params) : option params :=
  match ps with
  | [] => Some []
  | (name, x) :: ps' =>
      match decodeURIComponent P x, decode_params P ps' with
      | Some y, Some rest => Some ((name, y) :: rest)
      | _, _ => None
      end
  end.

Definition destructure_error : string :=
  "TypeError: Cannot destructure property of 'req.body' as it is undefined.".

(** A route that matched, for a request as it arrived.  Both POST handlers
    open with [const { ... } = req.body], which throws when [req.body] is
    [undefined]; no GET handler reads [req.body]. *)
Definition enter_route (P : platform) (e : env) (r : route) (ps : params)
                       (h : http_request) (b : option value) (st : state)
  : state * response :=
  match b with
  | Some v => enter P e r ps (parsed h v) st
  | None =>
      match route_verb r with
      | GET => enter P e r ps (parsed h (VObj [])) st
      | POST =>
          match (if route_auth r then basicAuth P (http_authorization h) else Next) with
          | Next => (st, send 500 destructure_error)
          | Answered resp => (st, resp)
          | Thrown error => (st, send 500 error)
          end
      end
  end.

(** The router, with the decoding.  A route is tried on the path first:
    when the path matches, its parameters are decoded, and a parameter that
    cannot be decoded ends the search with the 400 of the default error
    handler, whatever the verb; the verb is looked at after that. *)
Fixpoint route_request (routes : list route) (P : platform) (e : env)
                       (h : http_request) (b : option value) (st : state)
  : state * response :=
  match routes with
  | [] => (st, send 404 "Not Found")
  | r :: routes' =>
      match match_path (route_path r) (http_path h) with
      | None => route_request routes' P e h b st
      | Some raw =>
          match decode_params P raw with
          | None => (st, refusal 400 "URIError: Failed to decode param")
          | Some ps =>
              if method_eqb (route_verb r) (http_verb h) then enter_route P e r ps h b st
              else route_request routes' P e h b st
          end
      end
  end.

(** The application answering one request. *)
Definition server (V : express_version) (P : platform) (e : env)
                  (h : http_request) (st : state) : state * response :=
  match express_json V (http_body h) with
  | inr answer => (st, answer)
  | inl b => route_request app P e h b st
  end.

(** The application answering requests one after the other (a single event
    loop: a request is served to completion before the next one). *)
Fixpoint run_server (V : express_version) (P : platform)
                    (reqs : list (env * http_request)) (st : state) : state :=
  match reqs with
  | [] => st
  | (e, h) :: reqs' => run_server V P reqs' (fst (server V P e h st))
  end.

(** ** An executable platform

    Stand-ins for the five platform functions, each exact on the inputs
    named in its comment; the examples and the concrete instances below use
    them on such inputs only. *)

Module Node.

(** Base64 over the standard and the URL-safe alphabet; decoding stops at
    the first padding character.  The bytes are returned as they are, which
    is what [toString()] yields when they are ASCII. *)
Definition sextet (a : ascii) : option nat :=
  let n := nat_of_ascii a in
  if (Nat.leb 65 n && Nat.leb n 90)%bool then Some (n - 65)
  else if (Nat.leb 97 n && Nat.leb n 122)%bool then Some (n - 71)
  else if (Nat.leb 48 n && Nat.leb n 57)%bool then Some (n + 4)
  else if (Nat.eqb n 43 || Nat.eqb n 45)%bool then Some 62
  else if (Nat.eqb n 47 || Nat.eqb n 95)%bool then Some 63
  else None.

Fixpoint sextets (s : string) : list nat :=
  match s with
  | EmptyString => []
  | String a s' =>
      if Ascii.eqb a "=" then []
      else match sextet a with
           | Some v => v :: sextets s'
           | None => sextets s'
           end
  end.

Fixpoint octets (l : list nat) : string :=
  match l with
  | a :: b :: c :: d :: rest =>
      String (ascii_of_nat (a * 4 + b / 16))
        (String (ascii_of_nat ((b mod 16) * 16 + c / 4))
           (String (ascii_of_nat ((c mod 4) * 64 + d)) (octets rest)))
  | [a; b; c] =>
      String (ascii_of_nat (a * 4 + b / 16))
        (String (ascii_of_nat ((b mod 16) * 16 + c / 4)) EmptyString)
  | [a; b] => String (ascii_of_nat (a * 4 + b / 16)) EmptyString
  | _ => EmptyString
  end.

Definition decode_base64 (s : string) : string := octets (sextets s).

(** Dates written [YYYY-MM-DD] that exist in the calendar: the time value
    is midnight UTC of that day, in milliseconds.  Everything else is an
    invalid date here. *)
Definition two_digits (a b : ascii) : option Z :=
  match digit a, digit b with
  | Some x, Some y => Some (10 * x + y)%Z
  | _, _ => None
  end.

Definition leap (y : Z) : bool :=
  ((y mod 4 =? 0) && (negb (y mod 100 =? 0) || (y mod 400 =? 0)))%Z.

Definition days_in_month (y m : Z) : Z :=
  if (m =? 2)%Z then (if leap y then 29 else 28)%Z
  else if ((m =? 4) || (m =? 6) || (m =? 9) || (m =? 11))%Z then 30%Z
  else 31%Z.

Definition days_from_civil (y m d : Z) : Z :=
  let y' := (if m <=? 2 then y - 1 else y)%Z in
  let era := (y' / 400)%Z in
  let yoe := (y' - era * 400)%Z in
  let doy := ((153 * (if m <=? 2 then m + 9 else m - 3) + 2) / 5 + d - 1)%Z in
  let doe := (yoe * 365 + yoe / 4 - yoe / 100 + doy)%Z in
  (era * 146097 + doe - 719468)%Z.

Definition parse_iso_date (s : string) : option Z :=
  match s with
  | String y1 (String y2 (String y3 (String y4 (String "-"
      (String m1 (String m2 (String "-" (String d1 (String d2 EmptyString))))))))) =>
      match two_digits y1 y2, two_digits y3 y4, two_digits m1 m2, two_digits d1 d2 with
      | Some yh, Some yl, Some m, Some d =>
          let y := (100 * yh + yl)%Z in
          if ((1 <=? m) && (m <=? 12) && (1 <=? d) && (d <=? days_in_month y m))%Z
          then Some (days_from_civil y m d * 86400000)%Z
          else None
      | _, _, _, _ => None
      end
  | _ => None
  end.

Definition getTime (v : option value) : float :=
  match v with
  | Some (VStr s) =>
      match parse_iso_date s with
      | Some ms => Z_to_number ms
      | None => nan
      end
  | _ => nan
  end.

(** Numbers: [NaN], the infinities, and the integers up to 2^53 in
    magnitude are written as JavaScript writes them; of any other number
    only the integer part is written. *)
Definition integer_part (x : float) : Z :=
  match Prim2SF x with
  | S754_finite _ m e =>
      if (0 <=? e)%Z then Z.shiftl (Zpos m) e else Z.shiftr (Zpos m) (- e)
  | _ => 0%Z
  end.

Definition decimal (z : Z) : string :=
  DecimalString.NilZero.string_of_uint (N.to_uint (Z.to_N z)).

Definition show_number (x : float) : string :=
  if is_nan x then "NaN"
  else if is_infinity x then (if get_sign x then "-Infinity" else "Infinity")
  else
    let z := integer_part x in
    if (z =? 0)%Z then "0"
    else if get_sign x then ("-" ++ decimal z)%string
    else decimal z.

(** Numeric strings: decimal integers with an optional sign; the empty
    string is zero and everything else is [NaN] here. *)
Definition read_number (s : string) : float :=
  match s with
  | EmptyString => zero
  | _ =>
      let '(negative, s') :=
        match s with
        | String "-" r => (true, r)
        | String "+" r => (false, r)
        | _ => (false, s)
        end in
      let ds := leading_digits s' in
      if (Nat.eqb (List.length ds) (String.length s') && negb (Nat.eqb (List.length ds) 0))%bool
      then (if negative then (- Z_to_number (digits_value ds))%float
            else Z_to_number (digits_value ds))
      else nan
  end.

(** [decodeURIComponent]: an escape is a percent sign and two hexadecimal
    digits; a malformed escape throws, and so does a run of escapes above
    7F that is not the UTF-8 encoding of one character.  Bytes that are not
    escaped are kept. *)
Definition hex (a : ascii) : option nat :=
  let n := nat_of_ascii a in
  if (Nat.leb 48 n && Nat.leb n 57)%bool then Some (n - 48)
  else if (Nat.leb 65 n && Nat.leb n 70)%bool then Some (n - 55)
  else if (Nat.leb 97 n && Nat.leb n 102)%bool then Some (n - 87)
  else None.

(** The bytes of [s], each with a mark that tells whether it was escaped. *)
Fixpoint unescape (s : string) : option (list (bool * nat)) :=
  match s with
  | EmptyString => Some []
  | String a s1 =>
      if Ascii.eqb a "%" then
        match s1 with
        | String h1 (String h2 s3) =>
            match hex h1, hex h2, unescape s3 with
            | Some x, Some y, Some rest => Some ((true, 16 * x + y) :: rest)
            | _, _, _ => None
            end
        | _ => None
        end
      else
        match unescape s1 with
        | Some rest => Some ((false, nat_of_ascii a) :: rest)
        | None => None
        end
  end.

Definition between (lo hi : nat) (x : bool * nat) : bool :=
  (fst x && Nat.leb lo (snd x) && Nat.leb (snd x) hi)%bool.

Fixpoint well_formed (l : list (bool * nat)) : bool :=
  match l with
  | [] => true
  | (false, _) :: l1 => well_formed l1
  | (true, n) :: l1 =>
      if Nat.leb n 127 then well_formed l1
      else if (Nat.leb 194 n && Nat.leb n 223)%bool then
        match l1 with
        | b :: l2 => (between 128 191 b && well_formed l2)%bool
        | _ => false
        end
      else if (Nat.leb 224 n && Nat.leb n 239)%bool then
        match l1 with
        | b :: c :: l3 =>
            (between (if Nat.eqb n 224 then 160 else 128)
                     (if Nat.eqb n 237 then 159 else 191) b
             && between 128 191 c && well_formed l3)%bool
        | _ => false
        end
      else if (Nat.leb 240 n && Nat.leb n 244)%bool then
        match l1 with
        | b :: c :: d :: l4 =>
            (between (if Nat.eqb n 240 then 144 else 128)
                     (if Nat.eqb n 244 then 143 else 191) b
             && between 128 191 c && between 128 191 d && well_formed l4)%bool
        | _ => false
        end
      else false
  end.

Definition decode (s : string) : option string :=
  match unescape s with
  | Some l =>
      if well_formed l
      then Some (string_of_list_ascii (map (fun x => ascii_of_nat (snd x)) l))
      else None
  | None => None
  end.

Definition node : platform :=
  {| base64_toString := decode_base64;
     date_getTime := getTime;
     number_toString := show_number;
     string_toNumber := read_number;
     decodeURIComponent := decode |}.

End Node.

(** ** Vocabulary of the properties *)

(** A route behind [basicAuth], once the router has chosen it. *)
Definition guarded (P : platform) (e : env) (h : handler) (req : request) (st : state)
  : state * response :=
  match basicAuth P (authorization req) with
  | Next => h P e [] req st
  | Answered resp => (st, resp)
  | Thrown error => (st, send 500 error)
  end.

(** [st'] holds every record of [st], unchanged and at the same place, and
    possibly more records after them. *)
Definition extends (st st' : state) : Prop :=
  (exists newBooks, books st' = books st ++ newBooks)
  /\ (exists newReviews, reviews st' = reviews st ++ newReviews).

(** A handler that leaves every stored record as it is. *)
Definition appends_only (h : handler) : Prop :=
  forall P e ps req st, extends st (fst (h P e ps req st)).

(** A request body provides the field [k]: it is there and it is truthy
    (a non-empty string, a number other than zero, ...). *)
Definition provided (b : value) (k : string) : Prop :=
  exists v, field b k = Some v /\ truthy v = true.

(** The optional fields of a new Book and the value each takes when the
    request does not give it. *)
Definition book_defaults (e : env) : list (string * value) :=
  [ ("description", VStr ""); ("publisher", VStr ""); ("language", VStr "English");
    ("price", VNum zero); ("pages", VNum zero);
    ("genre", VArr []); ("tags", VArr []);
    ("datePublished", VStr (today e)) ].

(** *** Concrete data for the examples *)

Definition valid_header : option string := Some "Basic bWVkaGF0Okhlcm85Nw==".

Definition env0 : env :=
  {| randomUUID := "0b9f5f2e-7c1a-4d7e-9a55-3c1f2d6e8a10";
     today := "2026-01-15";
     now_iso := "2026-01-15T10:30:00.000Z";
     disk := WriteOk |}.

Definition book1 : obj :=
  [ ("id", VStr "1"); ("title", VStr "Dune"); ("author", VStr "Frank Herbert");
    ("datePublished", VStr "2020-06-15");
    ("rating", VNum 4.5%float); ("reviewCount", VNum 10%float);
    ("featured", VBool true) ].

Definition state0 : state :=
  {| books := [book1]; reviews := [];
     booksPath := Some (JSON_stringify (VObj [("books", array_of [book1])]));
     reviewsPath := Some (JSON_stringify (VObj [("reviews", array_of [])]));
     saves := 0 |}.

Definition post_request (p : list string) (h : option string) (b : obj) : request :=
  {| verb := POST; path := p; query := []; authorization := h; body := VObj b |}.

Definition get_request (p : list string) (q : obj) : request :=
  {| verb := GET; path := p; query := q; authorization := None; body := VObj [] |}.

(** [{bookId: "unknown", author: "A", rating: 5, comment: "x"}] *)
Definition review_unknown : obj :=
  [ ("bookId", VStr "unknown"); ("author", VStr "A");
    ("rating", VNum 5%float); ("comment", VStr "x") ].

(** [{bookId: "unknown", author: "A", rating: 0, comment: "x"}] *)
Definition review_zero_rating : obj :=
  [ ("bookId", VStr "unknown"); ("author", VStr "A");
    ("rating", VNum 0%float); ("comment", VStr "x") ].

(** [{title: "T", author: "A", isbn: "123"}] *)
Definition book_T : obj :=
  [ ("title", VStr "T"); ("author", VStr "A"); ("isbn", VStr "123") ].

(** [{title: "", author: "A", isbn: "123"}] *)
Definition book_untitled : obj :=
  [ ("title", VStr ""); ("author", VStr "A"); ("isbn", VStr "123") ].

Definition env1 : env :=
  {| randomUUID := "6f1d2c3b-4a59-4e8f-b7a6-1c2d3e4f5a6b";
     today := "2026-01-16";
     now_iso := "2026-01-16T08:00:00.000Z";
     disk := WriteOk |}.

(** [{bookId: "1", author: "A", rating: "five", comment: "x"}] *)
Definition review_five : obj :=
  [ ("bookId", VStr "1"); ("author", VStr "A");
    ("rating", VStr "five"); ("comment", VStr "x") ].

(** The state after an authenticated POST of /api/reviews with
    [review_five], whose rating is the string "five". *)
Definition state_five : state :=
  fst (serve Node.node env0 (post_request ["api"; "reviews"] valid_header review_five) state0).

(** *** Values that a JSON text can hold *)

Definition storable_number (x : float) : bool :=
  match classify x with
  | FloatClass.NaN | PInf | NInf | NZero => false
  | _ => true
  end.

Fixpoint distinct (ks : list string) : bool :=
  match ks with
  | [] => true
  | k :: ks' => negb (existsb (String.eqb k) ks') && distinct ks'
  end.

(** Every number in [v] is finite and is not the negative zero, and the
    keys of every object in [v] are distinct (as they are in any JavaScript
    object). *)
Fixpoint storable (v : value) : bool :=
  match v with
  | VNum x => storable_number x
  | VArr items => forallb storable items
  | VObj props =>
      distinct (map fst props) && forallb (fun kv => storable (snd kv)) props
  | _ => true
  end.

(** *** Induction on values

    The principle that goes through the items of an array and the
    properties of an object. *)

Section ValueInduction.

Variable Q : value -> Prop.
Hypothesis Q_null : Q VNull.
Hypothesis Q_bool : forall b, Q (VBool b).
Hypothesis Q_num : forall x, Q (VNum x).
Hypothesis Q_str : forall s, Q (VStr s).
Hypothesis Q_arr : forall items, Forall Q items -> Q (VArr items).
Hypothesis Q_obj : forall props, Forall (fun kv => Q (snd kv)) props -> Q (VObj props).

Fixpoint value_induction (v : value) : Q v :=
  match v with
  | VNull => Q_null
  | VBool b => Q_bool b
  | VNum x => Q_num x
  | VStr s => Q_str s
  | VArr items =>
      Q_arr items
        ((fix each (l : list value) : Forall Q l :=
            match l with
            | [] => Forall_nil Q
            | x :: l' => Forall_cons x (value_induction x) (each l')
            end) items)
  | VObj props =>
      Q_obj props
        ((fix each (l : list (string * value)) : Forall (fun kv => Q (snd kv)) l :=
            match l with
            | [] => Forall_nil _
            | kv :: l' => Forall_cons kv (value_induction (snd kv)) (each l')
            end) props)
  end.

End ValueInduction.

(** The statuses the server can answer with. *)
Definition known_status (r : response) : Prop :=
  In (status r) [200; 201; 400; 401; 404; 500].

Definition answers_known_status (h : handler) : Prop :=
  forall P e ps req st, known_status (snd (h P e ps req st)).

(** *** Vocabulary of the further properties *)

(** The field [k] of a record is the string [s]. *)
Definition string_field_is (k s : string) (o : obj) : bool :=
  match prop o k with
  | Some (VStr x) => String.eqb x s
  | _ => false
  end.

(** What a request that changed the state did: it entered [saveData] once
    and appended one record to one collection, the record it answers with. *)
Definition one_record_added (st st' : state) (r : response) : Prop :=
  saves st' = S (saves st)
  /\ ((exists newBook,
          books st' = books st ++ [newBook] /\ reviews st' = reviews st
          /\ r = sendJson 201 (VObj newBook))
      \/ (exists newReview,
             reviews st' = reviews st ++ [newReview] /\ books st' = books st
             /\ r = sendJson 201 (VObj newReview))).

Definition disciplined (h : handler) : Prop :=
  forall P e ps req st,
    (status (snd (h P e ps req st)) <> 201 -> fst (h P e ps req st) = st)
    /\ (status (snd (h P e ps req st)) = 201 ->
        one_record_added st (fst (h P e ps req st)) (snd (h P e ps req st))).

Definition never_401 (h : handler) : Prop :=
  forall P e ps req st, status (snd (h P e ps req st)) <> 401.

Definition disciplined_route (r : route) : Prop :=
  disciplined (route_handler r)
  /\ never_401 (route_handler r)
  /\ (route_verb r = GET ->
      route_auth r = false
      /\ forall P e ps req st, status (snd (route_handler r P e ps req st)) <> 201)
  /\ (route_verb r = POST -> route_auth r = true).

Definition book2 : obj :=
  [ ("id", VStr "2"); ("title", VStr "Emma"); ("author", VStr "Jane Austen");
    ("datePublished", VStr "1815-12-23");
    ("rating", VNum 4%float); ("reviewCount", VNum 3%float);
    ("featured", VBool false) ].

Definition review1 : obj :=
  [ ("id", VStr "review-1"); ("bookId", VStr "1"); ("author", VStr "R");
    ("rating", VNum 5%float); ("title", VStr ""); ("comment", VStr "good");
    ("timestamp", VStr "2025-05-01T00:00:00.000Z"); ("verified", VBool true) ].

(** A review whose Book is not in the collection. *)
Definition review_orphan : obj :=
  [ ("id", VStr "review-9"); ("bookId", VStr "9"); ("author", VStr "R");
    ("rating", VNum 1%float); ("title", VStr ""); ("comment", VStr "lost");
    ("timestamp", VStr "2025-05-02T00:00:00.000Z"); ("verified", VBool false) ].

Definition state1 : state :=
  {| books := [book1; book2]; reviews := [review1; review_orphan];
     booksPath := Some (JSON_stringify (VObj [("books", array_of [book1; book2])]));
     reviewsPath :=
       Some (JSON_stringify (VObj [("reviews", array_of [review1; review_orphan])]));
     saves := 0 |}.

(** [{bookId: "1", author: "A", rating: "4 stars", comment: "x"}] *)
Definition review_four : obj :=
  [ ("bookId", VStr "1"); ("author", VStr "A");
    ("rating", VStr "4 stars"); ("comment", VStr "x") ].

(** [{bookId: "1", author: "A", rating: {toString: 1}, comment: "x"}] *)
Definition review_object : obj :=
  [ ("bookId", VStr "1"); ("author", VStr "A");
    ("rating", VObj [("toString", VNum 1%float)]); ("comment", VStr "x") ].

(** No character of [s] is a decimal digit. *)
Fixpoint no_digit (s : string) : bool :=
  match s with
  | EmptyString => true
  | String a s' =>
      match digit a with
      | Some _ => false
      | None => no_digit s'
      end
  end.

(** The three things a request can do to the state: nothing, or push one
    record on one collection and save. *)
Definition step_of (e : env) (st st' : state) : Prop :=
  st' = st
  \/ (exists newBook, st' = saveData (disk e) (push_book newBook st))
  \/ (exists newReview, st' = saveData (disk e) (push_review newReview st)).

(** Both files hold the collections that are in memory. *)
Definition in_sync (st : state) : Prop :=
  booksPath st = Some (JSON_stringify (VObj [("books", array_of (books st))]))
  /\ reviewsPath st = Some (JSON_stringify (VObj [("reviews", array_of (reviews st))])).

(** A Book as [post_api_books] makes it: not rated, not reviewed, in stock,
    not featured. *)
Definition plain_book (book : obj) : Prop :=
  prop book "rating" = Some (VNum zero)
  /\ prop book "reviewCount" = Some (VNum zero)
  /\ prop book "inStock" = Some (VBool true)
  /\ prop book "featured" = Some (VBool false).

(** The bookId of a review is strictly equal to the id of one of the Books. *)
Definition refers_to_a_book (bs : list obj) (review : obj) : Prop :=
  exists book, In book bs /\ strict_eq (prop book "id") (prop review "bookId") = true.

(** [st'] is [st] with plain Books and with reviews of stored Books added. *)
Definition grows (st st' : state) : Prop :=
  exists newBooks newReviews,
    books st' = books st ++ newBooks
    /\ reviews st' = reviews st ++ newReviews
    /\ Forall plain_book newBooks
    /\ Forall (refers_to_a_book (books st')) newReviews.

Definition write_ok (er : env * request) : Prop := disk (fst er) = WriteOk.

(** A record as it comes back from its JSON text. *)
Definition reload (o : obj) : obj :=
  match JSON_parse (JSON_stringify (VObj o)) with
  | VObj o' => o'
  | _ => o
  end.

(** The score of a Book, [NaN] standing in where it cannot be computed. *)
Definition score (P : platform) (book : obj) : float :=
  match ratingScore P book with
  | Some x => x
  | None => nan
  end.

(** A Book with its score, as the ranking projects it:
    [{...book, ratingScore: book.rating * book.reviewCount}]. *)
Definition with_score (P : platform) (book : obj) : obj :=
  set_prop book "ratingScore" (VNum (score P book)).

(** The comparison function of the ranking, on the Books themselves. *)
Definition by_score (P : platform) (a b : obj) : float :=
  sub (score P b) (score P a).

(** The score of every Book of a list can be computed. *)
Definition scores_computed (P : platform) (l : list obj) : Prop :=
  Forall (fun book => ratingScore P book <> None) l.

(** The time value of the publication date of a Book, [NaN] standing in
    where the conversion of the date throws. *)
Definition published_at (P : platform) (book : obj) : float :=
  match new_Date P (prop book "datePublished") with
  | Some t => t
  | None => nan
  end.

(** The publication date of every Book of a list can be converted. *)
Definition dates_converted (P : platform) (l : list obj) : Prop :=
  Forall (fun book => new_Date P (prop book "datePublished") <> None) l.

(** The publication date of a Book lies between two time values, bounds
    included. *)
Definition within (P : platform) (start end_ : float) (book : obj) : bool :=
  leb start (published_at P book) && leb (published_at P book) end_.

(** *** Vocabulary of the properties of the application *)

(** The body parser lets the request through to the routes. *)
Definition accepted (V : express_version) (b : body_in) : bool :=
  match express_json V b with
  | inl _ => true
  | inr _ => false
  end.

(** What a handler that reads [req.body] finds there. *)
Definition body_read (b : option value) : value :=
  match b with
  | Some v => v
  | None => VObj []
  end.

(** A POST handler behind [basicAuth], entered with the body the parser
    left. *)
Definition guarded_post (P : platform) (e : env) (handle : handler)
                        (h : http_request) (b : option value) (st : state)
  : state * response :=
  match basicAuth P (http_authorization h) with
  | Next =>
      match b with
      | Some v => handle P e [] (parsed h v) st
      | None => (st, send 500 destructure_error)
      end
  | Answered resp => (st, resp)
  | Thrown error => (st, send 500 error)
  end.

(** No segment of the path changes when it is decoded. *)
Definition plain_path (P : platform) (p : list string) : Prop :=
  Forall (fun x => decodeURIComponent P x = Some x) p.

Definition http_get (p : list string) (q : obj) (a : option string) (b : body_in)
  : http_request :=
  {| http_verb := GET; http_path := p; http_query := q;
     http_authorization := a; http_body := b |}.

Definition http_post (p : list string) (q : obj) (a : option string) (b : body_in)
  : http_request :=
  {| http_verb := POST; http_path := p; http_query := q;
     http_authorization := a; http_body := b |}.

(** [{title: 7, author: ["A"], isbn: {}}]: no required field is a string. *)
Definition book_untyped : obj :=
  [ ("title", VNum 7%float); ("author", VArr [VStr "A"]); ("isbn", VObj []) ].

(** * Properties *)

(** ** Strings *)

Lemma split_not_nil (c : ascii) (s : string) : split c s <> [].
Proof.
  destruct s as [|a s]; simpl; [discriminate|].
  destruct (Ascii.eqb a c); [discriminate|].
  destruct (split c s); discriminate.
Qed.

Lemma split_without (c : ascii) (s : string) :
  occurs c s = false -> split c s = [s].
Proof.
  induction s as [|a s IH]; simpl; intros H; [reflexivity|].
  apply orb_false_iff in H as [Ha Hs].
  rewrite Ha, (IH Hs). reflexivity.
Qed.

Lemma split_at_first (c : ascii) (s t : string) :
  occurs c s = false -> split c (s ++ String c t) = s :: split c t.
Proof.
  induction s as [|a s IH]; simpl; intros H.
  - rewrite Ascii.eqb_refl. reflexivity.
  - apply orb_false_iff in H as [Ha Hs].
    rewrite Ha, (IH Hs). reflexivity.
Qed.

Lemma join_split (c : ascii) (s : string) :
  join (String c EmptyString) (split c s) = s.
Proof.
  induction s as [|a s IH]; [reflexivity|].
  simpl split. destruct (Ascii.eqb_spec a c) as [->|_].
  - pose proof (split_not_nil c s) as Hne.
    destruct (split c s) as [|t ts]; [contradiction|].
    change (join (String c "") ("" :: t :: ts))
      with (String c (join (String c "") (t :: ts))).
    now rewrite IH.
  - pose proof (split_not_nil c s) as Hne.
    destruct (split c s) as [|t ts]; [contradiction|].
    destruct ts as [|t' ts].
    + simpl in *. now rewrite IH.
    + change (join (String c "") (String a t :: t' :: ts))
        with (String a (join (String c "") (t :: t' :: ts))).
      now rewrite IH.
Qed.

(** ** Where the router sends a request *)


Lemma serve_post_books (P : platform) (e : env) q h b (st : state) :
  let req := {| verb := POST; path := ["api"; "books"];
                query := q; authorization := h; body := b |} in
  serve P e req st = guarded P e post_api_books req st.
Proof. reflexivity. Qed.

Lemma serve_post_reviews (P : platform) (e : env) q h b (st : state) :
  let req := {| verb := POST; path := ["api"; "reviews"];
                query := q; authorization := h; body := b |} in
  serve P e req st = guarded P e post_api_reviews req st.
Proof. reflexivity. Qed.

Lemma serve_get_book (P : platform) (e : env) (id : string) q h b (st : state) :
  id <> "" ->
  let req := {| verb := GET; path := ["api"; "books"; id];
                query := q; authorization := h; body := b |} in
  serve P e req st = get_api_books_id P e [("id", id)] req st.
Proof.
  intros Hid. destruct id as [|c id]; [contradiction|]. reflexivity.
Qed.

(** ** Where the application sends a request *)

Lemma express_json_answers V bd answer :
  express_json V bd = inr answer ->
  In (status answer) [400; 413; 415] /\ headers answer = [].
Proof.
  destruct bd as [|v| | |]; [destruct V; discriminate| | | |];
    [destruct v|..]; intros [= <-]; cbn; tauto.
Qed.

Lemma server_get_book V P e seg q a bd st :
  seg <> "" ->
  let h := http_get ["api"; "books"; seg] q a bd in
  server V P e h st
  = match express_json V bd with
    | inr answer => (st, answer)
    | inl b =>
        match decodeURIComponent P seg with
        | None => (st, refusal 400 "URIError: Failed to decode param")
        | Some id => get_api_books_id P e [("id", id)] (parsed h (body_read b)) st
        end
    end.
Proof.
  intros Hseg h. destruct seg as [|c seg]; [contradiction|].
  unfold server. unfold h at 1. cbn [http_body http_get].
  destruct (express_json V bd) as [b|]; [|reflexivity].
  unfold app. cbn [route_request route_path http_path h http_get].
  change (match_path [Lit "api"; Lit "books"] ["api"; "books"; String c seg])
    with (@None params).
  change (match_path [Lit "api"; Lit "books"; Param "id"] ["api"; "books"; String c seg])
    with (Some [("id", String c seg)]).
  cbn [decode_params]. destruct (decodeURIComponent P (String c seg)); [|reflexivity].
  cbn [route_verb http_verb method_eqb]. unfold enter_route, enter.
  cbn [route_auth route_verb route_handler].
  destruct b; reflexivity.
Qed.

Lemma server_get_reviews V P e seg q a bd st :
  seg <> "" ->
  let h := http_get ["api"; "books"; seg; "reviews"] q a bd in
  server V P e h st
  = match express_json V bd with
    | inr answer => (st, answer)
    | inl b =>
        match decodeURIComponent P seg with
        | None => (st, refusal 400 "URIError: Failed to decode param")
        | Some id => get_api_books_id_reviews P e [("id", id)] (parsed h (body_read b)) st
        end
    end.
Proof.
  intros Hseg h. destruct seg as [|c seg]; [contradiction|].
  unfold server. unfold h at 1. cbn [http_body http_get].
  destruct (express_json V bd) as [b|]; [|reflexivity].
  unfold app. cbn [route_request route_path http_path h http_get].
  change (match_path [Lit "api"; Lit "books"] ["api"; "books"; String c seg; "reviews"])
    with (@None params).
  change (match_path [Lit "api"; Lit "books"; Param "id"]
                     ["api"; "books"; String c seg; "reviews"])
    with (@None params).
  change (match_path [Lit "api"; Lit "books"; Lit "published"]
                     ["api"; "books"; String c seg; "reviews"])
    with (if String.eqb (lower (String c seg)) (lower "published")
          then @None params else None).
  change (match_path [Lit "api"; Lit "books"; Lit "top-rated"]
                     ["api"; "books"; String c seg; "reviews"])
    with (if String.eqb (lower (String c seg)) (lower "top-rated")
          then @None params else None).
  change (match_path [Lit "api"; Lit "featured"] ["api"; "books"; String c seg; "reviews"])
    with (@None params).
  change (match_path [Lit "api"; Lit "books"; Param "id"; Lit "reviews"]
                     ["api"; "books"; String c seg; "reviews"])
    with (Some [("id", String c seg)]).
  destruct (String.eqb _ (lower "published")), (String.eqb _ (lower "top-rated"));
    cbn [decode_params];
    (destruct (decodeURIComponent P (String c seg)); [|reflexivity]);
    cbn [route_verb http_verb method_eqb]; unfold enter_route, enter;
    cbn [route_auth route_verb route_handler];
    destruct b; reflexivity.
Qed.

Lemma server_post_books V P e q a bd st :
  let h := http_post ["api"; "books"] q a bd in
  server V P e h st
  = match express_json V bd with
    | inr answer => (st, answer)
    | inl b => guarded_post P e post_api_books h b st
    end.
Proof.
  intros h. unfold server. unfold h at 1. cbn [http_body http_post].
  destruct (express_json V bd) as [b|]; [|reflexivity].
  unfold guarded_post. destruct b; reflexivity.
Qed.

Lemma server_post_reviews V P e q a bd st :
  let h := http_post ["api"; "reviews"] q a bd in
  server V P e h st
  = match express_json V bd with
    | inr answer => (st, answer)
    | inl b => guarded_post P e post_api_reviews h b st
    end.
Proof.
  intros h. unfold server. unfold h at 1. cbn [http_body http_post].
  destruct (express_json V bd) as [b|]; [|reflexivity].
  unfold guarded_post. destruct b; reflexivity.
Qed.

(** When no segment of the path changes by decoding, the router with the
    decoding is the router without it. *)
Lemma match_path_segments (pattern : list segment) (p : list string) (ps : params) :
  match_path pattern p = Some ps -> forall kv, In kv ps -> In (snd kv) p.
Proof.
  revert p ps. induction pattern as [|[s|name] pattern IH]; intros p ps.
  - destruct p as [|x [|y p]]; cbn [match_path].
    + intros [= <-] kv [].
    + destruct x; [|discriminate]. intros [= <-] kv [].
    + destruct x; discriminate.
  - destruct p as [|x p]; cbn [match_path]; [discriminate|].
    destruct (String.eqb _ _); [|discriminate].
    intros H kv Hkv. right. exact (IH p ps H kv Hkv).
  - destruct p as [|x p]; cbn [match_path]; [discriminate|].
    destruct (String.eqb x ""); [discriminate|].
    destruct (match_path pattern p) as [ps'|] eqn:E; [|discriminate].
    intros [= <-] kv [<-|Hkv]; [now left|right].
    exact (IH p ps' E kv Hkv).
Qed.

Lemma decode_params_plain (P : platform) (ps : params) :
  (forall kv, In kv ps -> decodeURIComponent P (snd kv) = Some (snd kv)) ->
  decode_params P ps = Some ps.
Proof.
  induction ps as [|[name x] ps IH]; intros H; cbn [decode_params]; [reflexivity|].
  pose proof (H (name, x) (or_introl eq_refl)) as Hx. cbn [snd] in Hx.
  rewrite Hx, IH; [reflexivity|].
  intros kv Hkv. apply H. now right.
Qed.

Lemma route_request_dispatch (routes : list route) P e h v st :
  plain_path P (http_path h) ->
  route_request routes P e h (Some v) st = dispatch routes P e (parsed h v) st.
Proof.
  intros Hplain. induction routes as [|r routes IH]; cbn [route_request dispatch]; [reflexivity|].
  cbn [parsed verb path].
  destruct (match_path (route_path r) (http_path h)) as [raw|] eqn:E.
  - rewrite decode_params_plain.
    + destruct (method_eqb _ _); [reflexivity|exact IH].
    + intros kv Hkv. unfold plain_path in Hplain. rewrite Forall_forall in Hplain.
      apply Hplain. exact (match_path_segments _ _ _ E kv Hkv).
  - destruct (method_eqb _ _); exact IH.
Qed.

(** ** Routing: the two shadowed routes *)

Ltac case_find :=
  match goal with
  | |- context [find ?f ?l] => destruct (find f l)
  end.

(** The branches of the date-range handler and of the ranking. *)
Ltac published_cases :=
  unfold get_api_books_published;
  destruct (_ || _);
  [|destruct (new_Date _ _);
    [destruct (new_Date _ _);
     [destruct (_ || _); [|destruct (filter_dates _ _ _ _)]|]|]].

Ltac top_rated_cases :=
  unfold get_api_books_top_rated; destruct (map_scores _ _).

(** C1 (the code departs from the claim).  A GET of /api/books/published
    never reaches the date-range handler: the route /api/books/:id is
    registered before it and takes the request with [id = "published"].
    Whatever the query parameters, the answer is the one of the lookup by
    id: 404 "Book not found" unless a Book has the id "published"; it is
    neither the 400 nor the filtered list of the claim. *)
Theorem published_is_answered_by_the_id_route :
  forall P e q a b st,
    serve P e {| verb := GET; path := ["api"; "books"; "published"];
                 query := q; authorization := a; body := b |} st
    = (st, match find (fun book => strict_eq (prop book "id") (Some (VStr "published")))
                      (books st) with
           | Some book => sendJson 200 (VObj book)
           | None => send 404 "Book not found"
           end).
Proof.
  intros. unfold serve. cbv -[find strict_eq prop books].
  case_find; reflexivity.
Qed.

(** C2 (the code departs from the claim).  A GET of /api/books/top-rated
    never reaches the ranking handler either: /api/books/:id answers it with
    [id = "top-rated"], so the response is 404 "Book not found" unless a Book
    has that id, and never the ten best Books. *)
Theorem top_rated_is_answered_by_the_id_route :
  forall P e q a b st,
    serve P e {| verb := GET; path := ["api"; "books"; "top-rated"];
                 query := q; authorization := a; body := b |} st
    = (st, match find (fun book => strict_eq (prop book "id") (Some (VStr "top-rated")))
                      (books st) with
           | Some book => sendJson 200 (VObj book)
           | None => send 404 "Book not found"
           end).
Proof.
  intros. unfold serve. cbv -[find strict_eq prop books].
  case_find; reflexivity.
Qed.

(** ** The access control gate *)

(** The gate on a request without Authorization header. *)
Lemma basicAuth_without_header (P : platform) :
  basicAuth P None
  = Answered {| status := 401;
                headers := [("WWW-Authenticate",
                             ("Basic realm=" ++ dquote ++ "Restricted Area" ++ dquote)%string)];
                content := Text "Authentication required." |}.
Proof. reflexivity. Qed.

(** C6 (amended).  The body parser stands in front of the gate.  A POST of
    /api/books without Authorization header whose body the parser accepts
    (no JSON body, or the JSON text of an object or an array within the
    limit) is answered 401 with the header WWW-Authenticate: Basic
    realm="Restricted Area".  When the parser refuses the body, the answer
    is the parser's, 400, 413 or 415 without that header.  In both cases
    nothing of the state changes (collections, files, number of saves). *)
Theorem post_book_without_header_is_challenged :
  forall V P e q bd st,
    let h := http_post ["api"; "books"] q None bd in
    fst (server V P e h st) = st
    /\ (accepted V bd = true ->
        snd (server V P e h st)
        = {| status := 401;
             headers := [("WWW-Authenticate",
                          ("Basic realm=" ++ dquote ++ "Restricted Area" ++ dquote)%string)];
             content := Text "Authentication required." |})
    /\ (accepted V bd = false ->
        In (status (snd (server V P e h st))) [400; 413; 415]
        /\ headers (snd (server V P e h st)) = []).
Proof.
  intros V P e q bd st h. unfold h. rewrite server_post_books. unfold accepted.
  destruct (express_json V bd) as [b|answer] eqn:E.
  - unfold guarded_post. cbn [http_authorization http_post].
    rewrite basicAuth_without_header.
    split; [reflexivity|]. split; [reflexivity|discriminate].
  - split; [reflexivity|]. split; [discriminate|].
    intros _. exact (express_json_answers V bd answer E).
Qed.

Lemma post_book_without_header_is_challenged_witness :
  server Express4 Node.node env0 (http_post ["api"; "books"] [] None (JsonBody (VObj book_T)))
         state0
  = (state0, challenge "Authentication required.").
Proof.
  destruct (post_book_without_header_is_challenged
              Express4 Node.node env0 [] (JsonBody (VObj book_T)) state0)
    as (Hstate & Hchallenge & _).
  rewrite (surjective_pairing (server _ _ _ _ _)), Hstate, (Hchallenge eq_refl).
  reflexivity.
Defined.

(** C6 as stated fails: the request below is a POST of /api/books without
    Authorization header, its body is declared as JSON and is not a JSON
    text, and the answer is the 400 of the body parser, without the header
    WWW-Authenticate; [basicAuth] is not entered. *)
Lemma post_book_with_a_malformed_body_is_400 :
  http_authorization (http_post ["api"; "books"] [] None NotJson) = None
  /\ status (snd (server Express4 Node.node env0
                         (http_post ["api"; "books"] [] None NotJson) state0)) = 400
  /\ status (snd (server Express4 Node.node env0
                         (http_post ["api"; "books"] [] None NotJson) state0)) <> 401
  /\ headers (snd (server Express4 Node.node env0
                          (http_post ["api"; "books"] [] None NotJson) state0)) = []
  /\ snd (server Express5 Node.node env0
                 (http_post ["api"; "books"] [] None NotJson) state0)
     = snd (server Express4 Node.node env0
                   (http_post ["api"; "books"] [] None NotJson) state0).
Proof. repeat split. discriminate. Qed.

Lemma basicAuth_without_space (P : platform) (h : string) :
  h <> "" -> occurs " " h = false ->
  basicAuth P (Some h)
  = Thrown "TypeError [ERR_INVALID_ARG_TYPE]: The first argument must be of type string".
Proof.
  intros Hne Hsp. unfold basicAuth.
  apply String.eqb_neq in Hne. rewrite Hne.
  now rewrite (split_without " " h Hsp).
Qed.

(** C3 (the code departs from the claim).  An Authorization header that
    is not empty and has no space in it, such as "Basic", is present and
    carries no matching credentials, yet the gate does not answer 401:
    [split(' ')[1]] is [undefined], [Buffer.from] throws, and the request ends
    in the 500 of the default error handler, on both protected routes, with
    the state unchanged. *)
Theorem header_without_space_is_answered_500 :
  forall P e q b st h,
    h <> "" -> occurs " " h = false ->
    (exists error,
        serve P e {| verb := POST; path := ["api"; "books"];
                     query := q; authorization := Some h; body := b |} st
        = (st, send 500 error))
    /\ (exists error,
           serve P e {| verb := POST; path := ["api"; "reviews"];
                        query := q; authorization := Some h; body := b |} st
           = (st, send 500 error)).
Proof.
  intros P e q b st h Hne Hsp.
  rewrite serve_post_books, serve_post_reviews. unfold guarded. cbn [authorization].
  rewrite (basicAuth_without_space P h Hne Hsp).
  split; eexists; reflexivity.
Qed.

Lemma header_without_space_is_answered_500_witness :
  status (snd (serve Node.node env0 (post_request ["api"; "books"] (Some "Basic") book_T) state0))
  = 500
  /\ fst (serve Node.node env0 (post_request ["api"; "books"] (Some "Basic") book_T) state0)
     = state0.
Proof.
  destruct (header_without_space_is_answered_500
              Node.node env0 [] (VObj book_T) state0 "Basic")
    as [[error Hbooks] _].
  - discriminate.
  - reflexivity.
  - unfold post_request. rewrite Hbooks. split; reflexivity.
Defined.

Lemma basicAuth_answered (P : platform) (h : option string) (r : response) :
  basicAuth P h = Answered r ->
  r = challenge "Authentication required."
  \/ r = challenge "Authentication failed: Invalid credentials.".
Proof.
  unfold basicAuth.
  destruct h as [h|]; [|intros [= <-]; now left].
  destruct (String.eqb h ""); [intros [= <-]; now left|].
  - destruct (nth_error _ 1); [|discriminate].
    destruct (nth_error _ 0); [|intros [= <-]; now right].
    destruct (nth_error _ 1); [|intros [= <-]; now right].
    destruct (_ && _); [discriminate|intros [= <-]; now right].
Qed.

(** What the gate does with a header made of a token, one space and a
    payload: the token plays no part. *)
Lemma basicAuth_token_payload (P : platform) (tok payload : string) :
  occurs " " tok = false -> occurs " " payload = false ->
  basicAuth P (Some (tok ++ " " ++ payload)%string)
  = match split ":" (base64_toString P payload) with
    | u :: p :: _ =>
        if String.eqb u a_user && String.eqb p a_pass then Next
        else Answered (challenge "Authentication failed: Invalid credentials.")
    | _ => Answered (challenge "Authentication failed: Invalid credentials.")
    end.
Proof.
  intros Htok Hpay. unfold basicAuth.
  change (" " ++ payload)%string with (String " " payload).
  replace (String.eqb (tok ++ String " " payload) "") with false
    by (destruct tok; reflexivity).
  rewrite (split_at_first " " tok payload Htok), (split_without " " payload Hpay).
  cbn [nth_error].
  destruct (split ":" (base64_toString P payload)) as [|u [|p tl]]; reflexivity.
Qed.

Lemma fields_accepted (d : string) :
  (exists tl, split ":" d = a_user :: a_pass :: tl)
  <-> d = "medhat:Hero97" \/ exists rest, d = ("medhat:Hero97:" ++ rest)%string.
Proof.
  split.
  - intros [tl H]. rewrite <- (join_split ":" d), H.
    destruct tl as [|t ts]; [now left|right].
    exists (join ":" (t :: ts)). reflexivity.
  - intros [->|[rest ->]].
    + exists []. reflexivity.
    + exists (split ":" rest). reflexivity.
Qed.

(** C10 (amended).  The gate never looks at the scheme token: for a header
    made of a token, a space and a payload, the request is let through
    exactly when the decoded payload, cut at its colons, has "medhat" as
    first field and "Hero97" as second, that is when it is "medhat:Hero97"
    or starts with "medhat:Hero97:"; otherwise the gate answers 401.  The
    token does not enter the condition. *)
Theorem gate_ignores_the_scheme_token :
  forall P tok payload,
    occurs " " tok = false -> occurs " " payload = false ->
    (basicAuth P (Some (tok ++ " " ++ payload)%string) = Next
     <-> (base64_toString P payload = "medhat:Hero97"
          \/ exists rest, base64_toString P payload = ("medhat:Hero97:" ++ rest)%string))
    /\ (basicAuth P (Some (tok ++ " " ++ payload)%string) = Next
        \/ basicAuth P (Some (tok ++ " " ++ payload)%string)
           = Answered (challenge "Authentication failed: Invalid credentials.")).
Proof.
  intros P tok payload Htok Hpay.
  rewrite (basicAuth_token_payload P tok payload Htok Hpay).
  rewrite <- fields_accepted.
  destruct (split ":" (base64_toString P payload)) as [|u [|p tl]] eqn:E.
  - split; [|now right]. split; [discriminate|intros [tl H]; discriminate].
  - split; [|now right]. split; [discriminate|intros [tl H]; discriminate].
  - destruct (String.eqb_spec u a_user) as [->|Hu];
      destruct (String.eqb_spec p a_pass) as [->|Hp]; cbn [andb].
    + split; [|now left]. split; [intros _; now exists tl|reflexivity].
    + split; [|now right]. split; [discriminate|intros [tl' [= H _]]; contradiction].
    + split; [|now right]. split; [discriminate|intros [tl' [= H _]]; contradiction].
    + split; [|now right]. split; [discriminate|intros [tl' [= H _]]; contradiction].
Qed.

Lemma gate_ignores_the_scheme_token_witness :
  occurs " " "Bearer" = false
  /\ occurs " " "bWVkaGF0Okhlcm85Nw==" = false
  /\ basicAuth Node.node (Some "Bearer bWVkaGF0Okhlcm85Nw==") = Next.
Proof.
  split; [reflexivity|split; [reflexivity|]].
  apply (proj1 (gate_ignores_the_scheme_token
                  Node.node "Bearer" "bWVkaGF0Okhlcm85Nw==" eq_refl eq_refl)).
  left. reflexivity.
Defined.

(** C10 as stated fails: the payload below decodes to "medhat:Hero97:x",
    which is not the pair "medhat:Hero97", and the gate lets the request
    through. *)
Lemma payload_with_a_third_field_is_accepted :
  base64_toString Node.node "bWVkaGF0Okhlcm85Nzp4" = "medhat:Hero97:x"
  /\ "medhat:Hero97:x" <> (a_user ++ ":" ++ a_pass)%string
  /\ basicAuth Node.node (Some "Basic bWVkaGF0Okhlcm85Nzp4") = Next.
Proof.
  split; [reflexivity|split; [discriminate|reflexivity]].
Qed.

(** ** Frame: the handlers only append *)


Lemma extends_refl (st : state) : extends st st.
Proof. split; exists []; now rewrite app_nil_r. Qed.

Lemma extends_trans (a b c : state) : extends a b -> extends b c -> extends a c.
Proof.
  intros [[x Hx] [y Hy]] [[x' Hx'] [y' Hy']]. split.
  - exists (x ++ x'). now rewrite Hx', Hx, app_assoc.
  - exists (y ++ y'). now rewrite Hy', Hy, app_assoc.
Qed.

Lemma saveData_books w st : books (saveData w st) = books st.
Proof. now destruct w. Qed.

Lemma saveData_reviews w st : reviews (saveData w st) = reviews st.
Proof. now destruct w. Qed.


Lemma get_api_books_frame : appends_only get_api_books.
Proof. intros P e ps req st. apply extends_refl. Qed.

Lemma get_api_books_id_frame : appends_only get_api_books_id.
Proof.
  intros P e ps req st. unfold get_api_books_id.
  case_find; apply extends_refl.
Qed.

Lemma get_api_books_published_frame : appends_only get_api_books_published.
Proof.
  intros P e ps req st. unfold get_api_books_published.
  destruct (_ || _); [apply extends_refl|].
  destruct (new_Date _ _); [|apply extends_refl].
  destruct (new_Date _ _); [|apply extends_refl].
  destruct (_ || _); [apply extends_refl|].
  destruct (filter_dates _ _ _ _); apply extends_refl.
Qed.

Lemma get_api_books_top_rated_frame : appends_only get_api_books_top_rated.
Proof.
  intros P e ps req st. unfold get_api_books_top_rated.
  destruct (map_scores _ _); apply extends_refl.
Qed.

Lemma get_api_featured_frame : appends_only get_api_featured.
Proof. intros P e ps req st. apply extends_refl. Qed.

Lemma get_api_books_id_reviews_frame : appends_only get_api_books_id_reviews.
Proof.
  intros P e ps req st. unfold get_api_books_id_reviews.
  destruct (negb _); apply extends_refl.
Qed.

Lemma post_api_books_frame : appends_only post_api_books.
Proof.
  intros P e ps req st. unfold post_api_books.
  destruct (_ || _); [apply extends_refl|].
  destruct (field (body req) "title"); [|apply extends_refl].
  destruct (field (body req) "author"); [|apply extends_refl].
  destruct (field (body req) "isbn"); [|apply extends_refl].
  cbn [fst]. split; rewrite ?saveData_books, ?saveData_reviews; cbn.
  - eexists. reflexivity.
  - exists []. now rewrite app_nil_r.
Qed.

Lemma post_api_reviews_books (P : platform) (e : env) ps req st :
  books (fst (post_api_reviews P e ps req st)) = books st.
Proof.
  unfold post_api_reviews.
  destruct (_ || _); [reflexivity|].
  destruct (field (body req) "bookId"); [|reflexivity].
  destruct (field (body req) "author"); [|reflexivity].
  destruct (field (body req) "rating"); [|reflexivity].
  destruct (field (body req) "comment"); [|reflexivity].
  destruct (negb _); [reflexivity|].
  destruct (parseInt P _); [|reflexivity].
  cbn [fst]. now rewrite saveData_books.
Qed.

Lemma post_api_reviews_frame : appends_only post_api_reviews.
Proof.
  intros P e ps req st. split.
  - exists []. now rewrite post_api_reviews_books, app_nil_r.
  - unfold post_api_reviews.
    destruct (_ || _); [exists []; now rewrite app_nil_r|].
    destruct (field (body req) "bookId"); [|exists []; now rewrite app_nil_r].
    destruct (field (body req) "author"); [|exists []; now rewrite app_nil_r].
    destruct (field (body req) "rating"); [|exists []; now rewrite app_nil_r].
    destruct (field (body req) "comment"); [|exists []; now rewrite app_nil_r].
    destruct (negb _); [exists []; now rewrite app_nil_r|].
    destruct (parseInt P _); [|exists []; now rewrite app_nil_r].
    cbn [fst]. rewrite saveData_reviews. cbn. eexists. reflexivity.
Qed.

Lemma app_frame : Forall (fun r => appends_only (route_handler r)) app.
Proof.
  unfold app. repeat apply Forall_cons; try apply Forall_nil; cbn [route_handler].
  - apply get_api_books_frame.
  - apply get_api_books_id_frame.
  - apply get_api_books_published_frame.
  - apply get_api_books_top_rated_frame.
  - apply get_api_featured_frame.
  - apply get_api_books_id_reviews_frame.
  - apply post_api_books_frame.
  - apply post_api_reviews_frame.
Qed.

Lemma enter_frame (P : platform) (e : env) (r : route) ps req st :
  appends_only (route_handler r) -> extends st (fst (enter P e r ps req st)).
Proof.
  intros H. unfold enter.
  destruct (route_auth r); [|apply H].
  destruct (basicAuth P (authorization req)); [apply H | apply extends_refl ..].
Qed.

Lemma dispatch_frame (routes : list route) (P : platform) (e : env) req st :
  Forall (fun r => appends_only (route_handler r)) routes ->
  extends st (fst (dispatch routes P e req st)).
Proof.
  induction 1 as [|r routes Hr _ IH]; cbn [dispatch]; [apply extends_refl|].
  destruct (method_eqb _ _); [|exact IH].
  destruct (match_path _ _); [|exact IH].
  now apply enter_frame.
Qed.

Lemma serve_frame (P : platform) (e : env) req st :
  extends st (fst (serve P e req st)).
Proof. apply dispatch_frame, app_frame. Qed.

Lemma run_frame (P : platform) (reqs : list (env * request)) st :
  extends st (run P reqs st).
Proof.
  revert st. induction reqs as [|[e req] reqs IH]; intros st; cbn [run].
  - apply extends_refl.
  - eapply extends_trans; [apply serve_frame|apply IH].
Qed.

Lemma enter_route_frame (P : platform) (e : env) (r : route) ps h b st :
  appends_only (route_handler r) -> extends st (fst (enter_route P e r ps h b st)).
Proof.
  intros H. unfold enter_route.
  destruct b; [now apply enter_frame|].
  destruct (route_verb r); [now apply enter_frame|].
  destruct (route_auth r); [destruct (basicAuth _ _)|]; apply extends_refl.
Qed.

Lemma route_request_frame (routes : list route) (P : platform) (e : env) h b st :
  Forall (fun r => appends_only (route_handler r)) routes ->
  extends st (fst (route_request routes P e h b st)).
Proof.
  induction 1 as [|r routes Hr _ IH]; cbn [route_request]; [apply extends_refl|].
  destruct (match_path _ _); [|exact IH].
  destruct (decode_params _ _); [|apply extends_refl].
  destruct (method_eqb _ _); [|exact IH].
  now apply enter_route_frame.
Qed.

Lemma server_frame V (P : platform) (e : env) h st :
  extends st (fst (server V P e h st)).
Proof.
  unfold server. destruct (express_json _ _); [|apply extends_refl].
  apply route_request_frame, app_frame.
Qed.

Lemma run_server_frame V (P : platform) (reqs : list (env * http_request)) st :
  extends st (run_server V P reqs st).
Proof.
  revert st. induction reqs as [|[e h] reqs IH]; intros st; cbn [run_server].
  - apply extends_refl.
  - eapply extends_trans; [apply server_frame|apply IH].
Qed.

(** C9.  No request modifies a stored record: whatever the request, the
    Books and the Reviews held before it are still there afterwards, each
    unchanged and at its place, followed by whatever was appended.  A POST
    of /api/reviews leaves the Book collection as it was, so the [rating]
    and [reviewCount] of every Book are the same after a review was added;
    a POST of /api/books leaves the Review collection as it was.  The same
    holds across any sequence of requests. *)
Theorem stored_records_are_never_modified :
  forall P e req st,
    ((exists newBooks, books (fst (serve P e req st)) = books st ++ newBooks)
     /\ (exists newReviews, reviews (fst (serve P e req st)) = reviews st ++ newReviews))
    /\ (forall q h b,
          let addReview := {| verb := POST; path := ["api"; "reviews"];
                              query := q; authorization := h; body := b |} in
          books (fst (serve P e addReview st)) = books st
          /\ map (fun book => (prop book "rating", prop book "reviewCount"))
                 (books (fst (serve P e addReview st)))
             = map (fun book => (prop book "rating", prop book "reviewCount"))
                   (books st))
    /\ (forall q h b,
          let addBook := {| verb := POST; path := ["api"; "books"];
                            query := q; authorization := h; body := b |} in
          reviews (fst (serve P e addBook st)) = reviews st)
    /\ (forall reqs,
          (exists newBooks, books (run P reqs st) = books st ++ newBooks)
          /\ (exists newReviews, reviews (run P reqs st) = reviews st ++ newReviews)).
Proof.
  intros P e req st. split; [apply serve_frame|].
  split; [|split; [|intros reqs; apply run_frame]].
  - intros q h b addReview.
    assert (H : books (fst (serve P e addReview st)) = books st).
    { unfold addReview. rewrite serve_post_reviews. unfold guarded.
      destruct (basicAuth _ _); [apply post_api_reviews_books|reflexivity..]. }
    split; [exact H|now rewrite H].
  - intros q h b addBook. unfold addBook. rewrite serve_post_books. unfold guarded.
    destruct (basicAuth _ _); [|reflexivity..].
    unfold post_api_books.
    destruct (_ || _); [reflexivity|].
    destruct (field _ "title"); [|reflexivity].
    destruct (field _ "author"); [|reflexivity].
    destruct (field _ "isbn"); [|reflexivity].
    cbn [fst]. now rewrite saveData_reviews.
Qed.

(** ** Every request is answered *)

Lemma known_status_handlers : Forall (fun r => answers_known_status (route_handler r)) app.
Proof.
  unfold app, answers_known_status, known_status.
  repeat apply Forall_cons; try apply Forall_nil; cbn [route_handler];
    intros P e ps req st.
  - cbn. tauto.
  - unfold get_api_books_id. case_find; cbn; tauto.
  - published_cases; cbn; tauto.
  - top_rated_cases; cbn; tauto.
  - cbn. tauto.
  - unfold get_api_books_id_reviews. destruct (negb _); cbn; tauto.
  - unfold post_api_books.
    destruct (_ || _); [cbn; tauto|].
    destruct (field _ "title"); [|cbn; tauto].
    destruct (field _ "author"); [|cbn; tauto].
    destruct (field _ "isbn"); cbn; tauto.
  - unfold post_api_reviews.
    destruct (_ || _); [cbn; tauto|].
    destruct (field _ "bookId"); [|cbn; tauto].
    destruct (field _ "author"); [|cbn; tauto].
    destruct (field _ "rating"); [|cbn; tauto].
    destruct (field _ "comment"); [|cbn; tauto].
    destruct (negb _); [cbn; tauto|].
    destruct (parseInt P _); cbn; tauto.
Qed.

Lemma dispatch_known_status (routes : list route) (P : platform) (e : env) req st :
  Forall (fun r => answers_known_status (route_handler r)) routes ->
  known_status (snd (dispatch routes P e req st)).
Proof.
  induction 1 as [|r routes Hr _ IH]; cbn [dispatch].
  - unfold known_status. cbn. tauto.
  - destruct (method_eqb _ _); [|exact IH].
    destruct (match_path _ _); [|exact IH].
    unfold enter. destruct (route_auth r); [|apply Hr].
    destruct (basicAuth P (authorization req)) as [|r0|err] eqn:Hauth; [apply Hr| |].
    + destruct (basicAuth_answered _ _ _ Hauth) as [-> | ->];
        unfold known_status; cbn; tauto.
    + unfold known_status. cbn. tauto.
Qed.

(** Whatever the request that reaches them, the routes send a response, and
    its status is one of 200, 201, 400, 401, 404 and 500: an exception thrown
    while the request is served (the gate's, on a header without a space)
    ends in the 500 of the default error handler. *)
Theorem every_request_is_answered :
  forall P e req st,
    In (status (snd (serve P e req st))) [200; 201; 400; 401; 404; 500].
Proof. intros. apply dispatch_known_status, known_status_handlers. Qed.

(** ** Adding a review *)

Lemma existsb_none {A : Type} (f : A -> bool) (l : list A) :
  (forall x, In x l -> f x = false) -> existsb f l = false.
Proof.
  induction l as [|x l IH]; cbn; intros H; [reflexivity|].
  rewrite (H x (or_introl eq_refl)), IH; [reflexivity|].
  intros y Hy. apply H. now right.
Qed.

Lemma provided_not_falsy (b : value) (k : string) :
  provided b k -> falsy (field b k) = false.
Proof. intros (v & -> & Hv). cbn. now rewrite Hv. Qed.

Lemma not_falsy_provided (b : value) (k : string) :
  falsy (field b k) = false -> provided b k.
Proof.
  unfold provided. destruct (field b k) as [v|]; cbn; [|discriminate].
  intros H. apply negb_false_iff in H. now exists v.
Qed.

(** C4 (amended).  An authenticated POST of /api/reviews whose bookId is
    the id of no Book changes nothing: the Review collection, the files and
    the number of saves are as before, and the answer is 400 or 404.  It is
    the 404 of NotFoundError when the body provides bookId, author, rating
    and comment; the presence check comes first in the handler and answers
    the 400 of ValidationError when one of them is missing or falsy. *)
Theorem review_for_unknown_book_is_rejected :
  forall P e q h b st,
    basicAuth P h = Next ->
    (forall book, In book (books st) ->
                  strict_eq (prop book "id") (field b "bookId") = false) ->
    let req := {| verb := POST; path := ["api"; "reviews"];
                  query := q; authorization := h; body := b |} in
    fst (serve P e req st) = st
    /\ (status (snd (serve P e req st)) = 400 \/ status (snd (serve P e req st)) = 404)
    /\ (provided b "bookId" -> provided b "author" ->
        provided b "rating" -> provided b "comment" ->
        snd (serve P e req st)
        = sendJson 404
            (message "Book not found. Cannot add a review for a non-existent book."))
    /\ (~ (provided b "bookId" /\ provided b "author"
           /\ provided b "rating" /\ provided b "comment") ->
        snd (serve P e req st)
        = sendJson 400
            (message "Missing required fields: bookId, author, rating, and comment are required.")).
Proof.
  intros P e q h b st Hauth Hunknown req. unfold req.
  rewrite serve_post_reviews. unfold guarded. cbn [authorization]. rewrite Hauth.
  unfold post_api_reviews. cbn [body].
  destruct (falsy (field b "bookId") || falsy (field b "author")
            || falsy (field b "rating") || falsy (field b "comment")) eqn:Hmissing.
  - repeat split; [now left|].
    intros H1 H2 H3 H4.
    rewrite (provided_not_falsy _ _ H1), (provided_not_falsy _ _ H2),
      (provided_not_falsy _ _ H3), (provided_not_falsy _ _ H4) in Hmissing.
    discriminate.
  - apply orb_false_iff in Hmissing as [Hmissing Hc].
    apply orb_false_iff in Hmissing as [Hmissing Hr].
    apply orb_false_iff in Hmissing as [Hb Ha].
    apply not_falsy_provided in Hb, Ha, Hr, Hc.
    assert (Hall : provided b "bookId" /\ provided b "author"
                   /\ provided b "rating" /\ provided b "comment") by tauto.
    destruct Hb as (bookId & Hb & _), Ha as (author & Ha & _),
             Hr as (rating & Hr & _), Hc as (comment & Hc & _).
    pose proof Hunknown as Hnone. rewrite Hb in Hnone.
    rewrite Hb, Ha, Hr, Hc.
    rewrite (existsb_none _ _ Hnone). cbn [negb fst snd status sendJson].
    split; [reflexivity|]. split; [now right|]. split; [reflexivity|].
    intros Hnot. contradiction.
Qed.

Lemma review_for_unknown_book_is_rejected_witness :
  fst (serve Node.node env0 (post_request ["api"; "reviews"] valid_header review_unknown) state0)
  = state0
  /\ snd (serve Node.node env0 (post_request ["api"; "reviews"] valid_header review_unknown) state0)
     = sendJson 404
         (message "Book not found. Cannot add a review for a non-existent book.").
Proof.
  pose (b := review_unknown).
  assert (Hauth : basicAuth Node.node valid_header = Next) by reflexivity.
  assert (Hunknown : forall book, In book (books state0) ->
            strict_eq (prop book "id") (field (VObj b) "bookId") = false).
  { intros book [<-|[]]. reflexivity. }
  destruct (review_for_unknown_book_is_rejected
              Node.node env0 [] valid_header (VObj b) state0 Hauth Hunknown)
    as (Hstate & _ & Hnotfound & _).
  split; [exact Hstate|].
  apply Hnotfound; eexists; (split; [reflexivity|reflexivity]).
Defined.

(** C4 as stated fails: the bookId below is the id of no Book, the request
    is authenticated, and the answer is the 400 of the presence check
    (the rating is 0), not 404. *)
Lemma review_with_unknown_book_and_zero_rating_is_400 :
  (forall book, In book (books state0) ->
                strict_eq (prop book "id") (field (VObj review_zero_rating) "bookId") = false)
  /\ status (snd (serve Node.node env0
                      (post_request ["api"; "reviews"] valid_header review_zero_rating) state0))
     = 400
  /\ status (snd (serve Node.node env0
                      (post_request ["api"; "reviews"] valid_header review_zero_rating) state0))
     <> 404.
Proof.
  split; [|split].
  - intros book [<-|[]]. reflexivity.
  - reflexivity.
  - discriminate.
Qed.

(** ** Adding a book *)

Lemma nonempty_truthy (s : string) : s <> "" -> truthy (VStr s) = true.
Proof. intros H. cbn. now apply negb_true_iff, String.eqb_neq. Qed.

Lemma or_else_absent (x : option value) (d : value) : x = None -> or_else x d = d.
Proof. now intros ->. Qed.

Lemma or_else_given (x : option value) (d v : value) :
  x = Some v -> truthy v = true -> or_else x d = v.
Proof. intros -> H. cbn. now rewrite H. Qed.

(** C5.  An authenticated POST of /api/books whose title, author and isbn
    are non-empty strings is answered 201 with a Book that has the generated
    id, the three given fields, rating 0, reviewCount 0, inStock true,
    featured false, and for each optional field the given value, or its
    default when the field is absent (description "", publisher "", language
    "English", price 0, pages 0, genre [], tags [], datePublished today);
    that Book is appended to the collection and the data is saved once.  If
    title, author or isbn is missing or the empty string, the answer is the
    400 of ValidationError and nothing changes. *)
Theorem addBook_creates_or_rejects :
  forall P e q h b st,
    basicAuth P h = Next ->
    let req := {| verb := POST; path := ["api"; "books"];
                  query := q; authorization := h; body := b |} in
    (forall title author isbn,
        field b "title" = Some (VStr title) ->
        field b "author" = Some (VStr author) ->
        field b "isbn" = Some (VStr isbn) ->
        title <> "" -> author <> "" -> isbn <> "" ->
        exists newBook,
          snd (serve P e req st) = sendJson 201 (VObj newBook)
          /\ books (fst (serve P e req st)) = books st ++ [newBook]
          /\ saves (fst (serve P e req st)) = S (saves st)
          /\ map fst newBook
             = ["id"; "title"; "author"; "description"; "price"; "isbn"; "genre";
                "tags"; "datePublished"; "pages"; "language"; "publisher";
                "rating"; "reviewCount"; "inStock"; "featured"]
          /\ prop newBook "id" = Some (VStr (randomUUID e))
          /\ prop newBook "title" = Some (VStr title)
          /\ prop newBook "author" = Some (VStr author)
          /\ prop newBook "isbn" = Some (VStr isbn)
          /\ prop newBook "rating" = Some (VNum zero)
          /\ prop newBook "reviewCount" = Some (VNum zero)
          /\ prop newBook "inStock" = Some (VBool true)
          /\ prop newBook "featured" = Some (VBool false)
          /\ (forall k d, In (k, d) (book_defaults e) ->
                (field b k = None -> prop newBook k = Some d)
                /\ (forall v, field b k = Some v -> truthy v = true ->
                              prop newBook k = Some v)))
    /\ (forall k, In k ["title"; "author"; "isbn"] ->
          field b k = None \/ field b k = Some (VStr "") ->
          serve P e req st
          = (st, sendJson 400
                   (message "Missing required fields: title, author, and isbn are required."))).
Proof.
  intros P e q h b st Hauth req. unfold req.
  rewrite serve_post_books. unfold guarded. cbn [authorization]. rewrite Hauth.
  unfold post_api_books. cbn [body]. split.
  - intros title author isbn Ht Ha Hi Hte Hae Hie.
    rewrite Ht, Ha, Hi. unfold falsy.
    rewrite (nonempty_truthy _ Hte), (nonempty_truthy _ Hae), (nonempty_truthy _ Hie).
    cbn [negb orb snd fst].
    eexists. split; [reflexivity|].
    rewrite saveData_books.
    split; [reflexivity|]. split; [now destruct (disk e)|].
    repeat (split; [reflexivity|]).
    intros k d Hin. cbn in Hin.
    repeat (destruct Hin as [[= <- <-]|Hin];
            [split; [intros H0; cbn; now rewrite (or_else_absent _ _ H0)
                    |intros v H0 Hv; cbn; now rewrite (or_else_given _ _ _ H0 Hv)]|]).
    contradiction.
  - intros k Hk Hmiss. cbn in Hk.
    destruct Hk as [<-|[<-|[<-|[]]]]; destruct Hmiss as [-> | ->];
      cbn; rewrite ?orb_true_r; reflexivity.
Qed.

Lemma addBook_creates_or_rejects_witness :
  status (snd (serve Node.node env0 (post_request ["api"; "books"] valid_header book_T) state0))
  = 201
  /\ List.length (books (fst (serve Node.node env0
                           (post_request ["api"; "books"] valid_header book_T) state0))) = 2
  /\ status (snd (serve Node.node env0
                    (post_request ["api"; "books"] valid_header book_untitled) state0))
     = 400.
Proof.
  assert (Hauth : basicAuth Node.node valid_header = Next) by reflexivity.
  destruct (addBook_creates_or_rejects
              Node.node env0 [] valid_header (VObj book_T) state0 Hauth)
    as [Hcreate _].
  destruct (Hcreate "T" "A" "123" eq_refl eq_refl eq_refl)
    as (newBook & Hresp & Hbooks & _); try discriminate.
  destruct (addBook_creates_or_rejects
              Node.node env0 [] valid_header (VObj book_untitled) state0 Hauth)
    as [_ Hreject].
  split; [|split].
  - unfold post_request. rewrite Hresp. reflexivity.
  - unfold post_request. rewrite Hbooks. reflexivity.
  - unfold post_request. rewrite (Hreject "title" (or_introl eq_refl) (or_intror eq_refl)).
    reflexivity.
Defined.

(** ** Looking up a book that was added *)

Lemma find_none {A : Type} (f : A -> bool) (l : list A) :
  (forall x, In x l -> f x = false) -> find f l = None.
Proof.
  induction l as [|x l IH]; cbn; intros H; [reflexivity|].
  rewrite (H x (or_introl eq_refl)). apply IH.
  intros y Hy. apply H. now right.
Qed.

Lemma find_app_skip {A : Type} (f : A -> bool) (l l' : list A) :
  find f l = None -> find f (l ++ l') = find f l'.
Proof.
  induction l as [|x l IH]; cbn; [reflexivity|].
  destruct (f x); [discriminate|exact IH].
Qed.

Lemma find_app_keep {A : Type} (f : A -> bool) (l l' : list A) (x : A) :
  find f l = Some x -> find f (l ++ l') = Some x.
Proof.
  induction l as [|y l IH]; cbn; [discriminate|].
  destruct (f y); [trivial|exact IH].
Qed.

Lemma found_later (f : obj -> bool) (st st' : state) (x : obj) :
  extends st st' -> find f (books st) = Some x -> find f (books st') = Some x.
Proof. intros [[more ->] _]. apply find_app_keep. Qed.

(** What a POST of /api/books that was answered 201 did. *)
Lemma post_books_201 (P : platform) (e : env) q h b (st st1 : state) (r : response) :
  serve P e {| verb := POST; path := ["api"; "books"];
               query := q; authorization := h; body := b |} st = (st1, r) ->
  status r = 201 ->
  exists newBook,
    r = sendJson 201 (VObj newBook)
    /\ prop newBook "id" = Some (VStr (randomUUID e))
    /\ books st1 = books st ++ [newBook].
Proof.
  rewrite serve_post_books. unfold guarded. cbn [authorization].
  destruct (basicAuth P h) as [|r0|err] eqn:Hauth.
  - unfold post_api_books. cbn [body].
    destruct (_ || _); [intros [= <- <-]; discriminate|].
    destruct (field b "title"); [|intros [= <- <-]; discriminate].
    destruct (field b "author"); [|intros [= <- <-]; discriminate].
    destruct (field b "isbn"); [|intros [= <- <-]; discriminate].
    intros [= <- <-] _. eexists. split; [reflexivity|]. split; [reflexivity|].
    now rewrite saveData_books.
  - intros [= <- <-] Hstatus.
    destruct (basicAuth_answered _ _ _ Hauth) as [-> | ->]; discriminate.
  - intros [= <- <-]; discriminate.
Qed.

(** C7.  When a POST of /api/books is answered 201, the id of the Book
    in the answer being the one generated for it (not empty, and the id of no
    Book stored before), every later GET of /api/books/<that id> is answered
    200 with that same Book, whatever requests were served in between. *)
Theorem added_book_is_found_by_its_id :
  forall P e q h b st st1 r,
    serve P e {| verb := POST; path := ["api"; "books"];
                 query := q; authorization := h; body := b |} st = (st1, r) ->
    status r = 201 ->
    randomUUID e <> "" ->
    (forall book, In book (books st) ->
                  strict_eq (prop book "id") (Some (VStr (randomUUID e))) = false) ->
    exists newBook,
      r = sendJson 201 (VObj newBook)
      /\ prop newBook "id" = Some (VStr (randomUUID e))
      /\ forall later e' q' h' b',
           serve P e' {| verb := GET; path := ["api"; "books"; randomUUID e];
                         query := q'; authorization := h'; body := b' |}
                 (run P later st1)
           = (run P later st1, sendJson 200 (VObj newBook)).
Proof.
  intros P e q h b st st1 r Hserve Hstatus Hid Hfresh.
  destruct (post_books_201 _ _ _ _ _ _ _ _ Hserve Hstatus) as (newBook & -> & Hnew & Hbooks).
  exists newBook. split; [reflexivity|]. split; [exact Hnew|].
  intros later e' q' h' b'.
  rewrite (serve_get_book P e' (randomUUID e) q' h' b' _ Hid).
  unfold get_api_books_id. cbn [param String.eqb Ascii.eqb Bool.eqb].
  assert (Hfound : find (fun book => strict_eq (prop book "id") (Some (VStr (randomUUID e))))
                        (books st1) = Some newBook).
  { rewrite Hbooks, (find_app_skip _ _ _ (find_none _ _ Hfresh)). cbn [find].
    rewrite Hnew. cbn [strict_eq]. now rewrite String.eqb_refl. }
  now rewrite (found_later _ _ _ _ (run_frame P later st1) Hfound).
Qed.

Lemma added_book_is_found_by_its_id_witness :
  status (snd (serve Node.node env1
                 (get_request ["api"; "books"; randomUUID env0] [])
                 (run Node.node
                    [(env1, post_request ["api"; "books"] valid_header book_T);
                     (env1, post_request ["api"; "reviews"] valid_header review_five)]
                    (fst (serve Node.node env0
                            (post_request ["api"; "books"] valid_header book_T) state0)))))
  = 200.
Proof.
  destruct (added_book_is_found_by_its_id
              Node.node env0 [] valid_header (VObj book_T) state0
              (fst (serve Node.node env0 (post_request ["api"; "books"] valid_header book_T) state0))
              (snd (serve Node.node env0 (post_request ["api"; "books"] valid_header book_T) state0)))
    as (newBook & _ & _ & Hget).
  - apply surjective_pairing.
  - reflexivity.
  - discriminate.
  - intros book [<-|[]]. reflexivity.
  - unfold get_request. rewrite Hget. reflexivity.
Defined.

(** ** Saving and loading *)

Lemma set_prop_fresh (o : obj) (k : string) (v : value) :
  prop o k = None -> set_prop o k v = o ++ [(k, v)].
Proof.
  induction o as [|[k' v'] o IH]; cbn; [reflexivity|].
  destruct (String.eqb k' k); [discriminate|].
  intros H. now rewrite (IH H).
Qed.

Lemma prop_snoc_other (o : obj) (k k' : string) (v : value) :
  String.eqb k k' = false -> prop (o ++ [(k, v)]) k' = prop o k'.
Proof.
  intros Hk. induction o as [|[k0 v0] o IH]; cbn.
  - now rewrite Hk.
  - destruct (String.eqb k0 k'); [reflexivity|exact IH].
Qed.

Lemma existsb_eqb_false (k : string) (ks : list string) :
  existsb (String.eqb k) ks = false -> forall k', In k' ks -> String.eqb k k' = false.
Proof.
  induction ks as [|k0 ks IH]; cbn; [contradiction|].
  intros H k' [<-|Hin]; apply orb_false_iff in H as [H0 H1]; [exact H0|now apply IH].
Qed.

(** Defining the members of a stringified object one after the other
    rebuilds the object, when its keys are distinct. *)
Lemma parse_members (f : value -> json) (g : json -> value) (l : list (string * value)) :
  Forall (fun kv => g (f (snd kv)) = snd kv) l ->
  distinct (map fst l) = true ->
  forall acc,
    (forall k, In k (map fst l) -> prop acc k = None) ->
    fold_left (fun o kv => set_prop o (fst kv) (g (snd kv)))
              (map (fun kv => (fst kv, f (snd kv))) l) acc
    = acc ++ l.
Proof.
  induction 1 as [|[k v] l Hkv _ IH]; cbn [map fst snd fold_left distinct]; intros Hd acc Hacc.
  - now rewrite app_nil_r.
  - apply andb_true_iff in Hd as [Hk Hd]. apply negb_true_iff in Hk.
    cbn [snd] in Hkv. rewrite Hkv.
    rewrite (set_prop_fresh acc k v (Hacc k (or_introl eq_refl))).
    rewrite (IH Hd).
    + now rewrite <- app_assoc.
    + intros k' Hin. rewrite prop_snoc_other.
      * apply Hacc. now right.
      * now apply (existsb_eqb_false k (map fst l)).
Qed.

Lemma parse_stringify_number (x : float) :
  storable_number x = true -> stringify_number x = JNum x.
Proof.
  unfold storable_number, stringify_number.
  destruct (classify x); (discriminate || reflexivity).
Qed.

Lemma parse_stringify (v : value) :
  storable v = true -> JSON_parse (JSON_stringify v) = v.
Proof.
  induction v as [| | | |items IH|props IH] using value_induction;
    cbn [storable JSON_stringify]; intros Hv; try reflexivity.
  - now rewrite (parse_stringify_number x Hv).
  - cbn [JSON_parse]. f_equal. rewrite map_map.
    induction IH as [|x items Hx _ IHitems]; [reflexivity|].
    cbn [forallb] in Hv. apply andb_true_iff in Hv as [H0 H1].
    cbn [map]. now rewrite (Hx H0), (IHitems H1).
  - cbn [JSON_parse]. f_equal.
    apply andb_true_iff in Hv as [Hd Hall].
    rewrite (parse_members JSON_stringify JSON_parse props); [reflexivity| |exact Hd|reflexivity].
    clear Hd. induction IH as [|kv props Hkv _ IHprops]; constructor.
    + cbn [forallb] in Hall. apply andb_true_iff in Hall as [H0 _]. now apply Hkv.
    + cbn [forallb] in Hall. apply andb_true_iff in Hall as [_ H1]. now apply IHprops.
Qed.

Lemma parse_stringify_records (records : list obj) :
  Forall (fun r => storable (VObj r) = true) records ->
  map JSON_parse (map JSON_stringify (map VObj records)) = map VObj records.
Proof.
  induction 1 as [|r records Hr _ IH]; [reflexivity|].
  cbn [map]. rewrite IH. f_equal. exact (parse_stringify (VObj r) Hr).
Qed.

Lemma records_of_objects (records : list obj) :
  records_of (map VObj records) = Some records.
Proof. induction records as [|r records IH]; cbn; [reflexivity|now rewrite IH]. Qed.

(** C8 (amended).  For collections whose records hold only values a JSON
    text can hold (every number finite and not the negative zero, the keys of
    every object distinct), writing the two documents with [saveData] and
    reading them back with [loadData] gives the same two collections: the
    same records, with the same fields and values, in the same order. *)
Theorem save_then_load :
  forall st,
    Forall (fun r => storable (VObj r) = true) (books st) ->
    Forall (fun r => storable (VObj r) = true) (reviews st) ->
    loadData (booksPath (saveData WriteOk st)) (reviewsPath (saveData WriteOk st))
    = Loaded (books st) (reviews st).
Proof.
  intros st Hb Hr. unfold saveData, loadData, array_of.
  cbn [booksPath reviewsPath JSON_stringify JSON_parse map fst snd fold_left set_prop].
  rewrite (parse_stringify_records _ Hb), (parse_stringify_records _ Hr).
  cbn. now rewrite !records_of_objects.
Qed.

Lemma save_then_load_witness :
  loadData (booksPath (saveData WriteOk state0)) (reviewsPath (saveData WriteOk state0))
  = Loaded [book1] [].
Proof.
  apply (save_then_load state0).
  - repeat constructor.
  - constructor.
Defined.

(** C8 as stated fails.  After an authenticated POST of /api/reviews
    whose rating is the string "five", the stored Review has the rating
    [NaN] ([parseInt("five", 10)]); [saveData] writes it as [null], and
    [loadData] reads a Review whose rating is [null]: the Review collection
    that is read back is not the one that was saved. *)
Lemma nan_rating_is_not_read_back :
  option_map (fun review => prop review "rating") (nth_error (reviews state_five) 0)
  = Some (Some (VNum nan))
  /\ loadData (booksPath (saveData WriteOk state_five))
              (reviewsPath (saveData WriteOk state_five))
     = Loaded (books state_five)
              [set_prop (nth 0 (reviews state_five) []) "rating" VNull]
  /\ loadData (booksPath (saveData WriteOk state_five))
              (reviewsPath (saveData WriteOk state_five))
     <> Loaded (books state_five) (reviews state_five).
Proof.
  split; [reflexivity|]. split; [reflexivity|].
  intros H. vm_compute in H. discriminate H.
Qed.

(** ** The model at work *)

Example split_fields : split ":" "medhat:Hero97:x" = ["medhat"; "Hero97"; "x"].
Proof. reflexivity. Qed.

Example decode_valid_header :
  base64_toString Node.node "bWVkaGF0Okhlcm85Nw==" = "medhat:Hero97".
Proof. reflexivity. Qed.

Example parseInt_prefix : parseInt Node.node (VStr "  42abc") = Some 42%float.
Proof. reflexivity. Qed.

Example parseInt_no_digit : parseInt Node.node (VStr "five") = Some nan.
Proof. reflexivity. Qed.

Example parseInt_negative_zero : parseInt Node.node (VStr "-0") = Some neg_zero.
Proof. reflexivity. Qed.

Example parseInt_number : parseInt Node.node (VNum 5%float) = Some 5%float.
Proof. reflexivity. Qed.

(** A no-break space (U+00A0, the bytes C2 A0) in front of the digits is
    skipped. *)
Example parseInt_no_break_space :
  parseInt Node.node (VStr (String "194" (String "160" "4"))) = Some 4%float.
Proof. reflexivity. Qed.

Example parseInt_array : parseInt Node.node (VArr [VStr "12"; VNum 3%float]) = Some 12%float.
Proof. reflexivity. Qed.

(** [parseInt({toString: 1}, 10)] throws. *)
Example parseInt_throws :
  parseInt Node.node (VObj [("toString", VNum 1%float)]) = None
  /\ parseInt Node.node (VArr [VNum 7%float; VObj [("toString", VNull)]]) = None
  /\ parseInt Node.node (VObj [("valueOf", VNum 1%float)]) = Some nan.
Proof. repeat split; reflexivity. Qed.

Example decodeURIComponent_examples :
  decodeURIComponent Node.node "a%20b" = Some "a b"
  /\ decodeURIComponent Node.node "%31" = Some "1"
  /\ decodeURIComponent Node.node "1" = Some "1"
  /\ decodeURIComponent Node.node "%" = None
  /\ decodeURIComponent Node.node "%FF" = None
  /\ decodeURIComponent Node.node "%E0%A4%A" = None.
Proof. repeat split; reflexivity. Qed.

Example wrong_password_is_401 :
  (* "medhat:wrong" *)
  basicAuth Node.node (Some "Basic bWVkaGF0Ondyb25n")
  = Answered (challenge "Authentication failed: Invalid credentials.").
Proof. reflexivity. Qed.

(** The request of the scenario "GET /api/books/published?startDate=2020-01-01
    &endDate=2020-12-31" on a collection with one Book of June 2020: the
    server answers 404, while the handler registered for the route, entered
    directly, would answer 200 with that Book. *)
Example published_scenario :
  let q := [("startDate", VStr "2020-01-01"); ("endDate", VStr "2020-12-31")] in
  serve Node.node env0 (get_request ["api"; "books"; "published"] q) state0
  = (state0, send 404 "Book not found")
  /\ get_api_books_published Node.node env0 [] (get_request ["api"; "books"; "published"] q) state0
     = (state0, sendJson 200 (array_of [book1])).
Proof. split; reflexivity. Qed.

(** Without the two parameters the server answers 404 as well, where the
    handler would answer 400. *)
Example published_without_parameters :
  serve Node.node env0 (get_request ["api"; "books"; "published"] []) state0
  = (state0, send 404 "Book not found")
  /\ status (snd (get_api_books_published Node.node env0 []
                    (get_request ["api"; "books"; "published"] []) state0)) = 400.
Proof. split; reflexivity. Qed.

(** "GET /api/books/top-rated": 404 from the server, where the handler
    would answer 200 with the Books and their score. *)
Example top_rated_scenario :
  serve Node.node env0 (get_request ["api"; "books"; "top-rated"] []) state0
  = (state0, send 404 "Book not found")
  /\ get_api_books_top_rated Node.node env0 [] (get_request ["api"; "books"; "top-rated"] []) state0
     = (state0, sendJson 200 (array_of [book1 ++ [("ratingScore", VNum 45%float)]])).
Proof. split; reflexivity. Qed.

Example sort_is_stable_and_descending :
  let score (n : float) (name : string) : obj :=
    [("title", VStr name); ("ratingScore", VNum n)] in
  sort (fun a b => sub (score_of b) (score_of a))
       [score 1%float "a"; score 3%float "b"; score 1%float "c";
        score 3%float "d"; score 2%float "e"]
  = [score 3%float "b"; score 3%float "d"; score 2%float "e";
     score 1%float "a"; score 1%float "c"].
Proof. reflexivity. Qed.

Example get_by_id_scenario :
  serve Node.node env0 (get_request ["api"; "books"; "1"] []) state0
  = (state0, sendJson 200 (VObj book1)).
Proof. reflexivity. Qed.

Example review_is_stored_with_nan_rating :
  status (snd (serve Node.node env0 (post_request ["api"; "reviews"] valid_header review_five) state0))
  = 201
  /\ reviewsPath state_five
     = Some (JObj [("reviews",
                    JArr [JObj [ ("id", JStr "review-0b9f5f2e-7c1a-4d7e-9a55-3c1f2d6e8a10");
                                 ("bookId", JStr "1"); ("author", JStr "A");
                                 ("rating", JNull); ("title", JStr "");
                                 ("comment", JStr "x");
                                 ("timestamp", JStr "2026-01-15T10:30:00.000Z");
                                 ("verified", JBool false) ]])]).
Proof. split; reflexivity. Qed.

(** * Further properties of the server *)

(** ** What changes the state *)

Lemma reader_disciplined (h : handler) :
  (forall P e ps req st,
      fst (h P e ps req st) = st /\ status (snd (h P e ps req st)) <> 201) ->
  disciplined h.
Proof.
  intros H P e ps req st. destruct (H P e ps req st) as [Hst Hno].
  split; [intros _; exact Hst|intros H201; contradiction].
Qed.

Lemma get_api_books_reads (P : platform) (e : env) ps req st :
  fst (get_api_books P e ps req st) = st
  /\ In (status (snd (get_api_books P e ps req st))) [200].
Proof. cbn. tauto. Qed.

Lemma get_api_books_id_reads (P : platform) (e : env) ps req st :
  fst (get_api_books_id P e ps req st) = st
  /\ In (status (snd (get_api_books_id P e ps req st))) [200; 404].
Proof. unfold get_api_books_id. case_find; cbn; tauto. Qed.

Lemma get_api_books_published_reads (P : platform) (e : env) ps req st :
  fst (get_api_books_published P e ps req st) = st
  /\ In (status (snd (get_api_books_published P e ps req st))) [200; 400; 500].
Proof. published_cases; cbn; tauto. Qed.

Lemma get_api_books_top_rated_reads (P : platform) (e : env) ps req st :
  fst (get_api_books_top_rated P e ps req st) = st
  /\ In (status (snd (get_api_books_top_rated P e ps req st))) [200; 500].
Proof. top_rated_cases; cbn; tauto. Qed.

Lemma get_api_featured_reads (P : platform) (e : env) ps req st :
  fst (get_api_featured P e ps req st) = st
  /\ In (status (snd (get_api_featured P e ps req st))) [200].
Proof. cbn. tauto. Qed.

Lemma get_api_books_id_reviews_reads (P : platform) (e : env) ps req st :
  fst (get_api_books_id_reviews P e ps req st) = st
  /\ In (status (snd (get_api_books_id_reviews P e ps req st))) [200; 404].
Proof. unfold get_api_books_id_reviews. destruct (negb _); cbn; tauto. Qed.

Lemma reader_route (r : route) (codes : list nat) :
  route_verb r = GET -> route_auth r = false ->
  ~ In 201 codes -> ~ In 401 codes ->
  (forall P e ps req st,
      fst (route_handler r P e ps req st) = st
      /\ In (status (snd (route_handler r P e ps req st))) codes) ->
  disciplined_route r.
Proof.
  intros Hverb Hauth H201 H401 H.
  assert (Hno : forall c, ~ In c codes ->
            forall P e ps req st, status (snd (route_handler r P e ps req st)) <> c).
  { intros c Hc P e ps req st Heq. apply Hc. rewrite <- Heq. apply H. }
  split; [|split; [|split]].
  - apply reader_disciplined. intros P e ps req st. split; [apply H|exact (Hno 201 H201 P e ps req st)].
  - exact (Hno 401 H401).
  - intros _. split; [exact Hauth|exact (Hno 201 H201)].
  - rewrite Hverb. discriminate.
Qed.

Ltac not_in_codes := cbn; intros Hin; repeat (destruct Hin as [Hin|Hin]; [discriminate|]); exact Hin.

Lemma saves_saveData w st : saves (saveData w st) = S (saves st).
Proof. now destruct w. Qed.

Lemma post_api_books_disciplined : disciplined post_api_books.
Proof.
  intros P e ps req st. unfold post_api_books.
  destruct (_ || _); [split; [reflexivity|discriminate]|].
  destruct (field (body req) "title"); [|split; [reflexivity|discriminate]].
  destruct (field (body req) "author"); [|split; [reflexivity|discriminate]].
  destruct (field (body req) "isbn"); [|split; [reflexivity|discriminate]].
  cbn [fst snd]. split; [intros H; now contradiction H|intros _].
  split; [now rewrite saves_saveData|left].
  eexists. rewrite saveData_books, saveData_reviews. now repeat split.
Qed.

Lemma post_api_reviews_disciplined : disciplined post_api_reviews.
Proof.
  intros P e ps req st. unfold post_api_reviews.
  destruct (_ || _); [split; [reflexivity|discriminate]|].
  destruct (field (body req) "bookId"); [|split; [reflexivity|discriminate]].
  destruct (field (body req) "author"); [|split; [reflexivity|discriminate]].
  destruct (field (body req) "rating"); [|split; [reflexivity|discriminate]].
  destruct (field (body req) "comment"); [|split; [reflexivity|discriminate]].
  destruct (negb _); [split; [reflexivity|discriminate]|].
  destruct (parseInt P _); [|split; [reflexivity|discriminate]].
  cbn [fst snd]. split; [intros H; now contradiction H|intros _].
  split; [now rewrite saves_saveData|right].
  eexists. rewrite saveData_books, saveData_reviews. now repeat split.
Qed.

Lemma post_api_books_never_401 : never_401 post_api_books.
Proof.
  intros P e ps req st. unfold post_api_books.
  destruct (_ || _); [discriminate|].
  destruct (field (body req) "title"); [|discriminate].
  destruct (field (body req) "author"); [|discriminate].
  destruct (field (body req) "isbn"); discriminate.
Qed.

Lemma post_api_reviews_never_401 : never_401 post_api_reviews.
Proof.
  intros P e ps req st. unfold post_api_reviews.
  destruct (_ || _); [discriminate|].
  destruct (field (body req) "bookId"); [|discriminate].
  destruct (field (body req) "author"); [|discriminate].
  destruct (field (body req) "rating"); [|discriminate].
  destruct (field (body req) "comment"); [|discriminate].
  destruct (negb _); [discriminate|].
  destruct (parseInt P _); discriminate.
Qed.

Lemma app_disciplined : Forall disciplined_route app.
Proof.
  unfold app. repeat apply Forall_cons; try apply Forall_nil;
    try (unfold disciplined_route; cbn [route_handler route_verb route_auth];
         split; [|split; [|split; [discriminate|intros _; reflexivity]]]).
  - apply (reader_route _ [200]); [reflexivity|reflexivity|not_in_codes|not_in_codes|apply get_api_books_reads].
  - apply (reader_route _ [200; 404]); [reflexivity|reflexivity|not_in_codes|not_in_codes|apply get_api_books_id_reads].
  - apply (reader_route _ [200; 400; 500]); [reflexivity|reflexivity|not_in_codes|not_in_codes|apply get_api_books_published_reads].
  - apply (reader_route _ [200; 500]); [reflexivity|reflexivity|not_in_codes|not_in_codes|apply get_api_books_top_rated_reads].
  - apply (reader_route _ [200]); [reflexivity|reflexivity|not_in_codes|not_in_codes|apply get_api_featured_reads].
  - apply (reader_route _ [200; 404]); [reflexivity|reflexivity|not_in_codes|not_in_codes|apply get_api_books_id_reviews_reads].
  - apply post_api_books_disciplined.
  - apply post_api_books_never_401.
  - apply post_api_reviews_disciplined.
  - apply post_api_reviews_never_401.
Qed.

Lemma method_eqb_eq (a b : method) : method_eqb a b = true -> a = b.
Proof. destruct a, b; (reflexivity || discriminate). Qed.

Lemma dispatch_disciplined (routes : list route) (P : platform) (e : env) req st :
  Forall disciplined_route routes ->
  (status (snd (dispatch routes P e req st)) <> 201 ->
   fst (dispatch routes P e req st) = st)
  /\ (status (snd (dispatch routes P e req st)) = 201 ->
      verb req = POST /\ basicAuth P (authorization req) = Next
      /\ one_record_added st (fst (dispatch routes P e req st))
                          (snd (dispatch routes P e req st)))
  /\ (status (snd (dispatch routes P e req st)) = 401 ->
      verb req = POST /\ fst (dispatch routes P e req st) = st
      /\ exists text,
          snd (dispatch routes P e req st) = challenge text
          /\ basicAuth P (authorization req) = Answered (challenge text)).
Proof.
  induction 1 as [|r routes Hr _ IH]; cbn [dispatch].
  - cbn. repeat split; discriminate.
  - destruct (method_eqb (route_verb r) (verb req)) eqn:Hverb; [|exact IH].
    apply method_eqb_eq in Hverb.
    destruct (match_path _ _) as [ps|]; [|exact IH].
    destruct Hr as (Hd & H401 & Hget & Hpost).
    unfold enter. destruct (route_auth r) eqn:Hauth.
    + assert (Hv : verb req = POST).
      { rewrite <- Hverb. destruct (route_verb r); [|reflexivity].
        destruct (Hget eq_refl) as [Hfalse _]. discriminate. }
      destruct (basicAuth P (authorization req)) as [|r0|err] eqn:Hgate.
      * destruct (Hd P e ps req st) as [Hsame Hadd].
        split; [exact Hsame|].
        split; [intros H201; split; [exact Hv|split; [reflexivity|exact (Hadd H201)]]|].
        intros Heq. now destruct (H401 P e ps req st).
      * destruct (basicAuth_answered _ _ _ Hgate) as [-> | ->];
          (split; [reflexivity|]; split; [discriminate|]; intros _;
           repeat split; [exact Hv|]; eexists; split; reflexivity).
      * cbn. repeat split; discriminate.
    + assert (Hv : route_verb r = GET).
      { destruct (route_verb r); [reflexivity|]. specialize (Hpost eq_refl). discriminate. }
      destruct (Hget Hv) as [_ Hno201]. destruct (Hd P e ps req st) as [Hsame _].
      split; [exact Hsame|].
      split; [intros Heq; now destruct (Hno201 P e ps req st)|].
      intros Heq. now destruct (H401 P e ps req st).
Qed.

(** X2.  The state changes only with a 201.  When the answer to a request
    is not 201, the collections, the files and the number of saves are what
    they were; this covers every GET, every request the gate turns away and
    every 400, 404 and 500.  When the answer is 201, the request was a POST
    that passed the gate, [saveData] was entered exactly once, and exactly
    one record was appended to exactly one collection: the record sent back
    in the response. *)
Theorem only_a_201_changes_the_state :
  forall P e req st,
    (status (snd (serve P e req st)) <> 201 -> fst (serve P e req st) = st)
    /\ (status (snd (serve P e req st)) = 201 ->
        verb req = POST
        /\ basicAuth P (authorization req) = Next
        /\ saves (fst (serve P e req st)) = S (saves st)
        /\ ((exists newBook,
                books (fst (serve P e req st)) = books st ++ [newBook]
                /\ reviews (fst (serve P e req st)) = reviews st
                /\ snd (serve P e req st) = sendJson 201 (VObj newBook))
            \/ (exists newReview,
                   reviews (fst (serve P e req st)) = reviews st ++ [newReview]
                   /\ books (fst (serve P e req st)) = books st
                   /\ snd (serve P e req st) = sendJson 201 (VObj newReview)))).
Proof.
  intros P e req st.
  destruct (dispatch_disciplined app P e req st app_disciplined) as (Hsame & Hadd & _).
  split; [exact Hsame|]. intros H201.
  destruct (Hadd H201) as (Hv & Hg & Hs & Hrec). now repeat split.
Qed.

(** X3.  A 401 only ever comes from the gate.  When a request is answered
    401, it was a POST, the handler behind the gate was not entered (the
    state is unchanged), and the response carries the challenge header
    WWW-Authenticate: Basic realm="Restricted Area" with one of the gate's
    two messages. *)
Theorem a_401_comes_from_the_gate :
  forall P e req st,
    status (snd (serve P e req st)) = 401 ->
    verb req = POST
    /\ fst (serve P e req st) = st
    /\ headers (snd (serve P e req st))
       = [("WWW-Authenticate",
           ("Basic realm=" ++ dquote ++ "Restricted Area" ++ dquote)%string)]
    /\ (content (snd (serve P e req st)) = Text "Authentication required."
        \/ content (snd (serve P e req st))
           = Text "Authentication failed: Invalid credentials.").
Proof.
  intros P e req st H401.
  destruct (dispatch_disciplined app P e req st app_disciplined) as (_ & _ & Hgate).
  destruct (Hgate H401) as (Hv & Hst & text & Hresp & Hauth).
  fold (serve P e req st) in Hresp, Hst.
  split; [exact Hv|]. split; [exact Hst|]. rewrite Hresp. split; [reflexivity|].
  destruct (basicAuth_answered _ _ _ Hauth) as [H|H]; injection H as ->; [now left|now right].
Qed.

Lemma a_401_comes_from_the_gate_witness :
  fst (serve Node.node env0
         (post_request ["api"; "reviews"] (Some "Basic bWVkaGF0Ondyb25n") review_five)
         state0) = state0.
Proof.
  apply (a_401_comes_from_the_gate Node.node env0
           (post_request ["api"; "reviews"] (Some "Basic bWVkaGF0Ondyb25n") review_five)
           state0).
  reflexivity.
Defined.

(** ** Reading the collections *)

Lemma strict_eq_string (o : obj) (k s : string) :
  strict_eq (prop o k) (Some (VStr s)) = string_field_is k s o.
Proof.
  unfold string_field_is. destruct (prop o k) as [[| | | | |]|]; reflexivity.
Qed.

Lemma string_field_is_true (o : obj) (k s : string) :
  string_field_is k s o = true <-> prop o k = Some (VStr s).
Proof.
  unfold string_field_is. split.
  - destruct (prop o k) as [[| | |x| |]|]; try discriminate.
    intros H. apply String.eqb_eq in H. now subst.
  - intros ->. apply String.eqb_refl.
Qed.

Lemma serve_get_reviews (P : platform) (e : env) (id : string) q h b (st : state) :
  id <> "" ->
  let req := {| verb := GET; path := ["api"; "books"; id; "reviews"];
                query := q; authorization := h; body := b |} in
  serve P e req st = get_api_books_id_reviews P e [("id", id)] req st.
Proof.
  intros Hid req. destruct id as [|c id]; [contradiction|].
  unfold serve, app, dispatch, req.
  cbn [route_verb route_path verb path method_eqb].
  change (match_path [Lit "api"; Lit "books"] ["api"; "books"; String c id; "reviews"])
    with (@None params).
  change (match_path [Lit "api"; Lit "books"; Param "id"]
                     ["api"; "books"; String c id; "reviews"])
    with (@None params).
  change (match_path [Lit "api"; Lit "featured"]
                     ["api"; "books"; String c id; "reviews"])
    with (@None params).
  change (match_path [Lit "api"; Lit "books"; Param "id"; Lit "reviews"]
                     ["api"; "books"; String c id; "reviews"])
    with (Some [("id", String c id)]).
  change (match_path [Lit "api"; Lit "books"; Lit "published"]
                     ["api"; "books"; String c id; "reviews"])
    with (if String.eqb (lower (String c id)) (lower "published")
          then @None params else None).
  change (match_path [Lit "api"; Lit "books"; Lit "top-rated"]
                     ["api"; "books"; String c id; "reviews"])
    with (if String.eqb (lower (String c id)) (lower "top-rated")
          then @None params else None).
  destruct (String.eqb _ (lower "published")), (String.eqb _ (lower "top-rated"));
    reflexivity.
Qed.

(** What the lookup by id answers. *)
Lemma lookup_by_id (P : platform) (e : env) (id : string) req st :
  fst (get_api_books_id P e [("id", id)] req st) = st
  /\ ((forall book, In book (books st) -> prop book "id" <> Some (VStr id)) ->
      snd (get_api_books_id P e [("id", id)] req st) = send 404 "Book not found")
  /\ (forall before book after,
        books st = before ++ book :: after ->
        prop book "id" = Some (VStr id) ->
        (forall other, In other before -> prop other "id" <> Some (VStr id)) ->
        snd (get_api_books_id P e [("id", id)] req st) = sendJson 200 (VObj book)).
Proof.
  unfold get_api_books_id. cbn [param String.eqb Ascii.eqb Bool.eqb].
  assert (Hnone : forall l, (forall o, In o l -> prop o "id" <> Some (VStr id)) ->
            find (fun o => strict_eq (prop o "id") (Some (VStr id))) l = None).
  { intros l Hl. apply find_none. intros o Ho. rewrite strict_eq_string.
    destruct (string_field_is "id" id o) eqn:E; [|reflexivity].
    apply string_field_is_true in E. now destruct (Hl o Ho). }
  split; [case_find; reflexivity|]. split.
  - intros Hno. now rewrite (Hnone _ Hno).
  - intros before book after Hbooks Hbook Hbefore.
    rewrite Hbooks, (find_app_skip _ _ _ (Hnone _ Hbefore)). cbn [find].
    rewrite strict_eq_string, (proj2 (string_field_is_true book "id" id) Hbook).
    reflexivity.
Qed.

(** X4.  GET /api/books/<segment> decodes the segment and looks the Book
    up by strict equality with the decoded string, from the front of the
    collection.  A segment that cannot be decoded (a stray percent sign) is
    answered 400.  Otherwise, with <id> the decoded segment: when no Book has
    the string <id> as its id, the answer is 404 with the text "Book not
    found"; else it is 200 with the first such Book (a Book whose id is
    stored as a number is never found, the segment being a string).  The
    state is unchanged in every case.  This holds for a request whose body
    the body parser accepts. *)
Theorem getById_returns_the_first_match :
  forall V P e seg q a bd st,
    seg <> "" ->
    accepted V bd = true ->
    let h := http_get ["api"; "books"; seg] q a bd in
    fst (server V P e h st) = st
    /\ (decodeURIComponent P seg = None ->
        status (snd (server V P e h st)) = 400)
    /\ (forall id,
          decodeURIComponent P seg = Some id ->
          ((forall book, In book (books st) -> prop book "id" <> Some (VStr id)) ->
           snd (server V P e h st) = send 404 "Book not found")
          /\ (forall before book after,
                books st = before ++ book :: after ->
                prop book "id" = Some (VStr id) ->
                (forall other, In other before -> prop other "id" <> Some (VStr id)) ->
                snd (server V P e h st) = sendJson 200 (VObj book))).
Proof.
  intros V P e seg q a bd st Hseg Hbody h. unfold h.
  rewrite (server_get_book V P e seg q a bd st Hseg).
  unfold accepted in Hbody.
  destruct (express_json V bd) as [b|]; [clear Hbody|discriminate].
  destruct (decodeURIComponent P seg) as [id|].
  - split; [apply lookup_by_id|]. split; [discriminate|].
    intros id' [= <-]. apply lookup_by_id.
  - split; [reflexivity|]. split; [reflexivity|discriminate].
Qed.

Lemma getById_returns_the_first_match_witness :
  snd (server Express4 Node.node env0 (http_get ["api"; "books"; "2"] [] None NoJsonBody)
              state1)
  = sendJson 200 (VObj book2)
  /\ snd (server Express5 Node.node env0 (http_get ["api"; "books"; "%32"] [] None NoJsonBody)
                 state1)
     = sendJson 200 (VObj book2)
  /\ snd (server Express4 Node.node env0 (http_get ["api"; "books"; "7"] [] None NoJsonBody)
                 state1)
     = send 404 "Book not found"
  /\ status (snd (server Express4 Node.node env0
                         (http_get ["api"; "books"; "%zz"] [] None NoJsonBody) state1))
     = 400.
Proof.
  split; [|split; [|split]].
  - refine (proj2 (proj2 (proj2 (getById_returns_the_first_match
              Express4 Node.node env0 "2" [] None NoJsonBody state1 _ _)) "2" _)
              [book1] book2 [] _ _ _).
    + discriminate.
    + reflexivity.
    + reflexivity.
    + reflexivity.
    + reflexivity.
    + intros other [<-|[]]. discriminate.
  - refine (proj2 (proj2 (proj2 (getById_returns_the_first_match
              Express5 Node.node env0 "%32" [] None NoJsonBody state1 _ _)) "2" _)
              [book1] book2 [] _ _ _).
    + discriminate.
    + reflexivity.
    + reflexivity.
    + reflexivity.
    + reflexivity.
    + intros other [<-|[]]. discriminate.
  - refine (proj1 (proj2 (proj2 (getById_returns_the_first_match
              Express4 Node.node env0 "7" [] None NoJsonBody state1 _ _)) "7" _) _).
    + discriminate.
    + reflexivity.
    + reflexivity.
    + intros book [<-|[<-|[]]]; discriminate.
  - refine (proj1 (proj2 (getById_returns_the_first_match
              Express4 Node.node env0 "%zz" [] None NoJsonBody state1 _ _)) _).
    + discriminate.
    + reflexivity.
    + reflexivity.
Defined.

(** What the listing of the reviews of a Book answers. *)
Lemma listing_by_id (P : platform) (e : env) (id : string) req st :
  fst (get_api_books_id_reviews P e [("id", id)] req st) = st
  /\ ((forall book, In book (books st) -> prop book "id" <> Some (VStr id)) ->
      snd (get_api_books_id_reviews P e [("id", id)] req st) = send 404 "Book not found.")
  /\ ((exists book, In book (books st) /\ prop book "id" = Some (VStr id)) ->
      snd (get_api_books_id_reviews P e [("id", id)] req st)
      = sendJson 200 (array_of (filter (string_field_is "bookId" id) (reviews st)))).
Proof.
  unfold get_api_books_id_reviews. cbn [param String.eqb Ascii.eqb Bool.eqb].
  split; [destruct (negb _); reflexivity|]. split.
  - intros Hno. rewrite existsb_none; [reflexivity|].
    intros o Ho. rewrite strict_eq_string.
    destruct (string_field_is "id" id o) eqn:E; [|reflexivity].
    apply string_field_is_true in E. now destruct (Hno o Ho).
  - intros (book & Hin & Hbook).
    replace (existsb _ (books st)) with true.
    + reflexivity.
    + symmetry. apply existsb_exists. exists book. split; [exact Hin|].
      rewrite strict_eq_string. now apply string_field_is_true.
Qed.

(** X5.  GET /api/books/<segment>/reviews decodes the segment and answers
    by the Book, not by the reviews.  A segment that cannot be decoded is
    answered 400.  Otherwise, with <id> the decoded segment: when no Book has
    the string <id> as its id the answer is 404 "Book not found." even if
    stored reviews carry that bookId; when such a Book exists the answer is
    200 with exactly the reviews whose bookId is the string <id>, in
    collection order, an empty list included.  The state is unchanged.  This
    holds for a request whose body the body parser accepts. *)
Theorem reviews_of_a_book :
  forall V P e seg q a bd st,
    seg <> "" ->
    accepted V bd = true ->
    let h := http_get ["api"; "books"; seg; "reviews"] q a bd in
    fst (server V P e h st) = st
    /\ (decodeURIComponent P seg = None ->
        status (snd (server V P e h st)) = 400)
    /\ (forall id,
          decodeURIComponent P seg = Some id ->
          ((forall book, In book (books st) -> prop book "id" <> Some (VStr id)) ->
           snd (server V P e h st) = send 404 "Book not found.")
          /\ ((exists book, In book (books st) /\ prop book "id" = Some (VStr id)) ->
              snd (server V P e h st)
              = sendJson 200
                  (array_of (filter (string_field_is "bookId" id) (reviews st))))).
Proof.
  intros V P e seg q a bd st Hseg Hbody h. unfold h.
  rewrite (server_get_reviews V P e seg q a bd st Hseg).
  unfold accepted in Hbody.
  destruct (express_json V bd) as [b|]; [clear Hbody|discriminate].
  destruct (decodeURIComponent P seg) as [id|].
  - split; [apply listing_by_id|]. split; [discriminate|].
    intros id' [= <-]. apply listing_by_id.
  - split; [reflexivity|]. split; [reflexivity|discriminate].
Qed.

Lemma reviews_of_a_book_witness :
  snd (server Express4 Node.node env0
              (http_get ["api"; "books"; "9"; "reviews"] [] None NoJsonBody) state1)
  = send 404 "Book not found."
  /\ snd (server Express4 Node.node env0
                 (http_get ["api"; "books"; "%31"; "reviews"] [] None NoJsonBody) state1)
     = sendJson 200 (array_of [review1])
  /\ snd (server Express5 Node.node env0
                 (http_get ["api"; "books"; "2"; "reviews"] [] None NoJsonBody) state1)
     = sendJson 200 (array_of []).
Proof.
  split; [|split].
  - refine (proj1 (proj2 (proj2 (reviews_of_a_book
              Express4 Node.node env0 "9" [] None NoJsonBody state1 _ _)) "9" _) _).
    + discriminate.
    + reflexivity.
    + reflexivity.
    + intros book [<-|[<-|[]]]; discriminate.
  - refine (proj2 (proj2 (proj2 (reviews_of_a_book
              Express4 Node.node env0 "%31" [] None NoJsonBody state1 _ _)) "1" _) _).
    + discriminate.
    + reflexivity.
    + reflexivity.
    + exists book1. split; [now left|reflexivity].
  - refine (proj2 (proj2 (proj2 (reviews_of_a_book
              Express5 Node.node env0 "2" [] None NoJsonBody state1 _ _)) "2" _) _).
    + discriminate.
    + reflexivity.
    + reflexivity.
    + exists book2. split; [right; now left|reflexivity].
Defined.

(** ** Adding a review, and reading it back *)

(** What a POST of /api/reviews that was answered 201 did. *)
Lemma post_reviews_201 (P : platform) (e : env) q h b (st st1 : state) (r : response) :
  serve P e {| verb := POST; path := ["api"; "reviews"];
               query := q; authorization := h; body := b |} st = (st1, r) ->
  status r = 201 ->
  exists bookId author rating comment n,
    basicAuth P h = Next
    /\ field b "bookId" = Some bookId /\ truthy bookId = true
    /\ field b "author" = Some author /\ truthy author = true
    /\ field b "rating" = Some rating /\ truthy rating = true
    /\ field b "comment" = Some comment /\ truthy comment = true
    /\ existsb (fun book => strict_eq (prop book "id") (Some bookId)) (books st) = true
    /\ parseInt P rating = Some n
    /\ r = sendJson 201
             (VObj [ ("id", VStr ("review-" ++ randomUUID e));
                     ("bookId", bookId);
                     ("author", author);
                     ("rating", VNum n);
                     ("title", or_else (field b "title") (VStr ""));
                     ("comment", comment);
                     ("timestamp", VStr (now_iso e));
                     ("verified", VBool false) ])
    /\ st1 = saveData (disk e)
               (push_review [ ("id", VStr ("review-" ++ randomUUID e));
                              ("bookId", bookId);
                              ("author", author);
                              ("rating", VNum n);
                              ("title", or_else (field b "title") (VStr ""));
                              ("comment", comment);
                              ("timestamp", VStr (now_iso e));
                              ("verified", VBool false) ] st).
Proof.
  rewrite serve_post_reviews. unfold guarded. cbn [authorization].
  destruct (basicAuth P h) as [|r0|err] eqn:Hauth.
  - unfold post_api_reviews. cbn [body].
    destruct (falsy (field b "bookId") || falsy (field b "author")
              || falsy (field b "rating") || falsy (field b "comment")) eqn:Hmiss;
      [intros [= <- <-]; discriminate|].
    apply orb_false_iff in Hmiss as [Hmiss Hc].
    apply orb_false_iff in Hmiss as [Hmiss Hr].
    apply orb_false_iff in Hmiss as [Hb Ha].
    destruct (field b "bookId") as [bookId|]; [|discriminate].
    destruct (field b "author") as [author|]; [|discriminate].
    destruct (field b "rating") as [rating|]; [|discriminate].
    destruct (field b "comment") as [comment|]; [|discriminate].
    cbn in Hb, Ha, Hr, Hc. apply negb_false_iff in Hb, Ha, Hr, Hc.
    destruct (existsb _ (books st)) eqn:Hex; cbn [negb];
      [|intros [= <- <-]; discriminate].
    destruct (parseInt P rating) as [n|] eqn:Hn; [|intros [= <- <-]; discriminate].
    intros [= <- <-] _. exists bookId, author, rating, comment, n.
    now repeat split.
  - intros [= <- <-] Hstatus.
    destruct (basicAuth_answered _ _ _ Hauth) as [-> | ->]; discriminate.
  - intros [= <- <-]; discriminate.
Qed.

(** The handler of POST /api/reviews past its two checks. *)
Lemma post_reviews_checked (P : platform) (e : env) q h b (st : state)
      (bookId author rating comment : value) :
  basicAuth P h = Next ->
  field b "bookId" = Some bookId -> truthy bookId = true ->
  field b "author" = Some author -> truthy author = true ->
  field b "rating" = Some rating -> truthy rating = true ->
  field b "comment" = Some comment -> truthy comment = true ->
  (exists book, In book (books st) /\ strict_eq (prop book "id") (Some bookId) = true) ->
  serve P e {| verb := POST; path := ["api"; "reviews"];
               query := q; authorization := h; body := b |} st
  = match parseInt P rating with
    | None => (st, send 500 conversion_error)
    | Some n =>
        (saveData (disk e)
           (push_review [ ("id", VStr ("review-" ++ randomUUID e));
                          ("bookId", bookId);
                          ("author", author);
                          ("rating", VNum n);
                          ("title", or_else (field b "title") (VStr ""));
                          ("comment", comment);
                          ("timestamp", VStr (now_iso e));
                          ("verified", VBool false) ] st),
         sendJson 201
           (VObj [ ("id", VStr ("review-" ++ randomUUID e));
                   ("bookId", bookId);
                   ("author", author);
                   ("rating", VNum n);
                   ("title", or_else (field b "title") (VStr ""));
                   ("comment", comment);
                   ("timestamp", VStr (now_iso e));
                   ("verified", VBool false) ]))
    end.
Proof.
  intros Hauth Hb Hbt Ha Hat Hr Hrt Hc Hct (book & Hin & Hbook).
  rewrite serve_post_reviews. unfold guarded. cbn [authorization]. rewrite Hauth.
  unfold post_api_reviews. cbn [body]. rewrite Hb, Ha, Hr, Hc.
  unfold falsy. rewrite Hbt, Hat, Hrt, Hct. cbn [negb orb].
  replace (existsb _ (books st)) with true; [reflexivity|].
  symmetry. apply existsb_exists. now exists book.
Qed.

(** X6.  An authenticated POST of /api/reviews whose bookId, author, rating
    and comment are present and truthy and whose bookId is strictly equal to
    the id of a stored Book passes both checks and reaches
    [parseInt(rating, 10)], which converts the rating to a string first.
    When that conversion throws (the rating is an object with a property
    named toString, or an array that holds one), the answer is the 500 of
    the default error handler and nothing is stored or saved.  Otherwise the
    answer is 201 with a Review that has the id "review-" followed by the
    generated identifier, the given bookId, author and comment, the number
    [parseInt] returned as rating, the given title or "" when the body has
    none, the current time as timestamp, and verified false whatever the
    body says; that Review is appended to the Review collection, the Book
    collection is untouched, and the data is saved once. *)
Theorem addReview_creates :
  forall P e q h b st bookId author rating comment,
    basicAuth P h = Next ->
    field b "bookId" = Some bookId -> truthy bookId = true ->
    field b "author" = Some author -> truthy author = true ->
    field b "rating" = Some rating -> truthy rating = true ->
    field b "comment" = Some comment -> truthy comment = true ->
    (exists book, In book (books st) /\ strict_eq (prop book "id") (Some bookId) = true) ->
    let req := {| verb := POST; path := ["api"; "reviews"];
                  query := q; authorization := h; body := b |} in
    (parseInt P rating = None ->
     serve P e req st = (st, send 500 conversion_error))
    /\ (forall n,
          parseInt P rating = Some n ->
          exists newReview,
            snd (serve P e req st) = sendJson 201 (VObj newReview)
            /\ reviews (fst (serve P e req st)) = reviews st ++ [newReview]
            /\ books (fst (serve P e req st)) = books st
            /\ saves (fst (serve P e req st)) = S (saves st)
            /\ map fst newReview
               = ["id"; "bookId"; "author"; "rating"; "title"; "comment";
                  "timestamp"; "verified"]
            /\ prop newReview "id" = Some (VStr ("review-" ++ randomUUID e))
            /\ prop newReview "bookId" = Some bookId
            /\ prop newReview "author" = Some author
            /\ prop newReview "rating" = Some (VNum n)
            /\ prop newReview "comment" = Some comment
            /\ prop newReview "timestamp" = Some (VStr (now_iso e))
            /\ prop newReview "verified" = Some (VBool false)
            /\ (field b "title" = None -> prop newReview "title" = Some (VStr ""))
            /\ (forall t, field b "title" = Some t -> truthy t = true ->
                          prop newReview "title" = Some t)).
Proof.
  intros P e q h b st bookId author rating comment
         Hauth Hb Hbt Ha Hat Hr Hrt Hc Hct Hbook req. unfold req.
  rewrite (post_reviews_checked P e q h b st bookId author rating comment
             Hauth Hb Hbt Ha Hat Hr Hrt Hc Hct Hbook).
  split.
  - now intros ->.
  - intros n ->. eexists. cbn [fst snd]. split; [reflexivity|].
    rewrite saveData_reviews, saveData_books, saves_saveData.
    repeat (split; [reflexivity|]). split.
    + intros H0. cbn. now rewrite (or_else_absent _ _ H0).
    + intros t H0 Ht. cbn. now rewrite (or_else_given _ _ _ H0 Ht).
Qed.

Lemma addReview_creates_witness :
  (status (snd (serve Node.node env0
                  (post_request ["api"; "reviews"] valid_header review_four) state0)) = 201
   /\ List.length (reviews (fst (serve Node.node env0
                                   (post_request ["api"; "reviews"] valid_header review_four)
                                   state0))) = 1)
  /\ serve Node.node env0 (post_request ["api"; "reviews"] valid_header review_object) state0
     = (state0, send 500 conversion_error).
Proof.
  split.
  - destruct (proj2 (addReview_creates Node.node env0 [] valid_header (VObj review_four) state0
                       (VStr "1") (VStr "A") (VStr "4 stars") (VStr "x")
                       eq_refl eq_refl eq_refl eq_refl eq_refl eq_refl eq_refl eq_refl eq_refl
                       (ex_intro _ book1 (conj (or_introl eq_refl) eq_refl)))
                    4%float eq_refl)
      as (newReview & Hresp & Hreviews & _).
    unfold post_request. rewrite Hresp, Hreviews. split; reflexivity.
  - exact (proj1 (addReview_creates Node.node env0 [] valid_header (VObj review_object) state0
                    (VStr "1") (VStr "A") (VObj [("toString", VNum 1%float)]) (VStr "x")
                    eq_refl eq_refl eq_refl eq_refl eq_refl eq_refl eq_refl eq_refl eq_refl
                    (ex_intro _ book1 (conj (or_introl eq_refl) eq_refl)))
                 eq_refl).
Defined.

Lemma existsb_app_keep {A : Type} (f : A -> bool) (l l' : list A) :
  existsb f l = true -> existsb f (l ++ l') = true.
Proof. intros H. rewrite existsb_app, H. reflexivity. Qed.

Lemma express_json_body V (b : value) (ob : option value) :
  express_json V (JsonBody b) = inl ob -> ob = Some b.
Proof. destruct b; cbn; congruence. Qed.

(** X7.  A review that was added is listed with its Book from then on.
    When a POST of /api/reviews whose bookId is the string <id> is answered
    201, the next GET of /api/books/<segment>/reviews, for any segment that
    decodes to <id>, is answered 200 with the reviews that Book had before,
    in their order, followed by the new Review; and after any further
    requests the GET is still answered 200 with a list that contains the new
    Review.  (The GET is one whose body the body parser accepts.) *)
Theorem added_review_is_listed_with_its_book :
  forall V P e q a b st st1 r id seg,
    server V P e (http_post ["api"; "reviews"] q a (JsonBody b)) st = (st1, r) ->
    status r = 201 ->
    field b "bookId" = Some (VStr id) ->
    seg <> "" ->
    decodeURIComponent P seg = Some id ->
    exists newReview,
      r = sendJson 201 (VObj newReview)
      /\ (forall e' q' a' bd',
             accepted V bd' = true ->
             server V P e' (http_get ["api"; "books"; seg; "reviews"] q' a' bd') st1
             = (st1, sendJson 200
                       (array_of (filter (string_field_is "bookId" id) (reviews st)
                                  ++ [newReview]))))
      /\ (forall later e' q' a' bd',
             accepted V bd' = true ->
             exists listed,
               snd (server V P e' (http_get ["api"; "books"; seg; "reviews"] q' a' bd')
                           (run_server V P later st1))
               = sendJson 200 (array_of listed)
               /\ In newReview listed).
Proof.
  intros V P e q a b st st1 r id seg Hserver Hstatus Hid Hne Hseg.
  assert (Hserve : serve P e {| verb := POST; path := ["api"; "reviews"];
                                query := q; authorization := a; body := b |} st
                   = (st1, r)).
  { rewrite server_post_reviews in Hserver.
    destruct (express_json V (JsonBody b)) as [ob|answer] eqn:E.
    - rewrite (express_json_body V b ob E) in Hserver.
      rewrite serve_post_reviews. exact Hserver.
    - injection Hserver as _ <-.
      destruct (express_json_answers V _ _ E) as [[H|[H|[H|[]]]] _];
        rewrite <- H in Hstatus; discriminate. }
  destruct (post_reviews_201 _ _ _ _ _ _ _ _ Hserve Hstatus)
    as (bookId & author & rating & comment & n & _ & Hb & _ & _ & _ & _ & _ & _ & _
        & Hexists & _ & -> & ->).
  rewrite Hid in Hb. injection Hb as <-.
  eexists. split; [reflexivity|].
  assert (Hmine : string_field_is "bookId" id
                    [("id", VStr ("review-" ++ randomUUID e)); ("bookId", VStr id);
                     ("author", author); ("rating", VNum n);
                     ("title", or_else (field b "title") (VStr ""));
                     ("comment", comment); ("timestamp", VStr (now_iso e));
                     ("verified", VBool false)] = true).
  { unfold string_field_is. cbn. apply String.eqb_refl. }
  split.
  - intros e' q' a' bd' Hbody. rewrite (server_get_reviews V P e' seg q' a' bd' _ Hne).
    unfold accepted in Hbody.
    destruct (express_json V bd') as [b'|]; [clear Hbody|discriminate].
    rewrite Hseg.
    unfold get_api_books_id_reviews. cbn [param String.eqb Ascii.eqb Bool.eqb].
    rewrite saveData_books, saveData_reviews. cbn [books reviews push_review].
    rewrite Hexists. cbn [negb]. do 3 f_equal.
    rewrite filter_app. f_equal.
    cbn. now rewrite String.eqb_refl.
  - intros later e' q' a' bd' Hbody. rewrite (server_get_reviews V P e' seg q' a' bd' _ Hne).
    unfold accepted in Hbody.
    destruct (express_json V bd') as [b'|]; [clear Hbody|discriminate].
    rewrite Hseg.
    unfold get_api_books_id_reviews. cbn [param String.eqb Ascii.eqb Bool.eqb].
    destruct (run_server_frame V P later
                (saveData (disk e)
                   (push_review
                      [("id", VStr ("review-" ++ randomUUID e)); ("bookId", VStr id);
                       ("author", author); ("rating", VNum n);
                       ("title", or_else (field b "title") (VStr ""));
                       ("comment", comment); ("timestamp", VStr (now_iso e));
                       ("verified", VBool false)] st)))
      as [[moreBooks Hbooks] [moreReviews Hreviews]].
    rewrite Hbooks, Hreviews, saveData_books, saveData_reviews.
    cbn [books reviews push_review].
    rewrite (existsb_app_keep _ _ moreBooks Hexists). cbn [negb snd].
    eexists. split; [reflexivity|].
    apply filter_In. split; [|now rewrite strict_eq_string].
    apply in_or_app. left. apply in_or_app. right. now left.
Qed.

Lemma added_review_is_listed_with_its_book_witness :
  snd (server Express4 Node.node env1
              (http_get ["api"; "books"; "%31"; "reviews"] [] None NoJsonBody)
              (fst (server Express4 Node.node env0
                           (http_post ["api"; "reviews"] [] valid_header
                                      (JsonBody (VObj review_four))) state1)))
  = sendJson 200
      (array_of [review1;
                 [ ("id", VStr "review-0b9f5f2e-7c1a-4d7e-9a55-3c1f2d6e8a10");
                   ("bookId", VStr "1"); ("author", VStr "A");
                   ("rating", VNum 4%float); ("title", VStr "");
                   ("comment", VStr "x");
                   ("timestamp", VStr "2026-01-15T10:30:00.000Z");
                   ("verified", VBool false) ]]).
Proof.
  destruct (added_review_is_listed_with_its_book
              Express4 Node.node env0 [] valid_header (VObj review_four) state1
              (fst (server Express4 Node.node env0
                           (http_post ["api"; "reviews"] [] valid_header
                                      (JsonBody (VObj review_four))) state1))
              (snd (server Express4 Node.node env0
                           (http_post ["api"; "reviews"] [] valid_header
                                      (JsonBody (VObj review_four))) state1))
              "1" "%31")
    as (newReview & Hnew & Hnext & _).
  - apply surjective_pairing.
  - reflexivity.
  - reflexivity.
  - discriminate.
  - reflexivity.
  - rewrite (Hnext env1 [] None NoJsonBody eq_refl). cbn [snd].
    injection Hnew as <-. reflexivity.
Defined.

(** X8.  A Book that was added is listed from then on.  When a POST of
    /api/books is answered 201 with a Book, the next GET of /api/books is
    answered 200 with the Books there were, in their order, followed by that
    Book; and after any further requests the list still starts with those
    same Books in that same order. *)
Theorem added_book_is_listed :
  forall P e q h b st st1 r,
    serve P e {| verb := POST; path := ["api"; "books"];
                 query := q; authorization := h; body := b |} st = (st1, r) ->
    status r = 201 ->
    exists newBook,
      r = sendJson 201 (VObj newBook)
      /\ (forall e' q' h' b',
             serve P e' {| verb := GET; path := ["api"; "books"];
                           query := q'; authorization := h'; body := b' |} st1
             = (st1, sendJson 200 (array_of (books st ++ [newBook]))))
      /\ (forall later e' q' h' b',
             exists more,
               snd (serve P e' {| verb := GET; path := ["api"; "books"];
                                  query := q'; authorization := h'; body := b' |}
                          (run P later st1))
               = sendJson 200 (array_of (books st ++ [newBook] ++ more))).
Proof.
  intros P e q h b st st1 r Hserve Hstatus.
  destruct (post_books_201 _ _ _ _ _ _ _ _ Hserve Hstatus) as (newBook & -> & _ & Hbooks).
  exists newBook. split; [reflexivity|]. split.
  - intros e' q' h' b'. change (serve P e' _ st1)
      with (st1, sendJson 200 (array_of (books st1))).
    now rewrite Hbooks.
  - intros later e' q' h' b'.
    destruct (run_frame P later st1) as [[more Hmore] _].
    exists more.
    change (snd (serve P e' _ (run P later st1)))
      with (sendJson 200 (array_of (books (run P later st1)))).
    now rewrite Hmore, Hbooks, <- app_assoc.
Qed.

Lemma added_book_is_listed_witness :
  List.length
    (books (fst (serve Node.node env1 (get_request ["api"; "books"] [])
                   (fst (serve Node.node env0
                           (post_request ["api"; "books"] valid_header book_T) state1)))))
  = 3.
Proof.
  destruct (added_book_is_listed
              Node.node env0 [] valid_header (VObj book_T) state1
              (fst (serve Node.node env0
                      (post_request ["api"; "books"] valid_header book_T) state1))
              (snd (serve Node.node env0
                      (post_request ["api"; "books"] valid_header book_T) state1)))
    as (newBook & _ & Hnext & _).
  - apply surjective_pairing.
  - reflexivity.
  - unfold get_request. rewrite Hnext. cbn [fst]. reflexivity.
Defined.

(** ** What a request can do to the state *)

Lemma dispatch_related (R : state -> state -> Prop) (routes : list route)
      (P : platform) (e : env) req st :
  R st st ->
  Forall (fun r => forall ps, R st (fst (route_handler r P e ps req st))) routes ->
  R st (fst (dispatch routes P e req st)).
Proof.
  intros Hrefl. induction 1 as [|r routes Hr _ IH]; cbn [dispatch]; [exact Hrefl|].
  destruct (method_eqb _ _); [|exact IH].
  destruct (match_path _ _) as [ps|]; [|exact IH].
  unfold enter. destruct (route_auth r); [|apply Hr].
  destruct (basicAuth P (authorization req)); [apply Hr|exact Hrefl..].
Qed.

Lemma serve_step (P : platform) (e : env) req st :
  step_of e st (fst (serve P e req st)).
Proof.
  unfold serve. apply (dispatch_related (step_of e)); [now left|].
  unfold app. repeat apply Forall_cons; try apply Forall_nil;
    cbn [route_handler]; intros ps.
  - left. apply get_api_books_reads.
  - left. apply get_api_books_id_reads.
  - left. apply get_api_books_published_reads.
  - left. apply get_api_books_top_rated_reads.
  - left. apply get_api_featured_reads.
  - left. apply get_api_books_id_reviews_reads.
  - unfold post_api_books.
    destruct (_ || _); [now left|].
    destruct (field (body req) "title"); [|now left].
    destruct (field (body req) "author"); [|now left].
    destruct (field (body req) "isbn"); [|now left].
    right. left. eexists. reflexivity.
  - unfold post_api_reviews.
    destruct (_ || _); [now left|].
    destruct (field (body req) "bookId"); [|now left].
    destruct (field (body req) "author"); [|now left].
    destruct (field (body req) "rating"); [|now left].
    destruct (field (body req) "comment"); [|now left].
    destruct (negb _); [now left|].
    destruct (parseInt P _); [|now left].
    right. right. eexists. reflexivity.
Qed.

Lemma saveData_ok_in_sync (st : state) : in_sync (saveData WriteOk st).
Proof. split; reflexivity. Qed.

(** X9.  What a 201 leaves on disk.  When a request is answered 201 the
    record is in memory whatever happens to the files, and the files depend
    on the writes: if both succeed, both files hold the collections as they
    are now in memory.  If the write of the Books file throws, the Reviews
    file is left as it was (the second write is skipped); if the write of the
    Reviews file throws, the Books file holds the current Books.  The file
    whose write throws is as it was when the write failed before the file was
    opened; once the file is open it has been emptied, and it holds the new
    text if the whole text was written before the failure and is otherwise
    cut short, in which case the next start of the server exits.  A failed
    write is swallowed: the answer is 201 all the same. *)
Theorem files_after_a_201 :
  forall P e req st,
    status (snd (serve P e req st)) = 201 ->
    let st' := fst (serve P e req st) in
    let booksData := JSON_stringify (VObj [("books", array_of (books st'))]) in
    let reviewsData := JSON_stringify (VObj [("reviews", array_of (reviews st'))]) in
    match disk e with
    | WriteOk => booksPath st' = Some booksData /\ reviewsPath st' = Some reviewsData
    | BooksWriteFails => booksPath st' = booksPath st /\ reviewsPath st' = reviewsPath st
    | ReviewsWriteFails => booksPath st' = Some booksData /\ reviewsPath st' = reviewsPath st
    | BooksWriteBreaks complete =>
        booksPath st' = (if complete then Some booksData else None)
        /\ reviewsPath st' = reviewsPath st
        /\ (complete = false -> loadData (booksPath st') (reviewsPath st') = Exited)
    | ReviewsWriteBreaks complete =>
        booksPath st' = Some booksData
        /\ reviewsPath st' = (if complete then Some reviewsData else None)
        /\ (complete = false -> loadData (booksPath st') (reviewsPath st') = Exited)
    end.
Proof.
  intros P e req st H201.
  destruct (dispatch_disciplined app P e req st app_disciplined) as (_ & Hadd & _).
  destruct (Hadd H201) as (_ & _ & Hsaves & _). fold (serve P e req st) in Hsaves.
  cbv zeta.
  destruct (serve_step P e req st) as [Hsame|[[x Hpush]|[x Hpush]]].
  - rewrite Hsame in Hsaves. exfalso. now apply (n_Sn (saves st)).
  - rewrite Hpush.
    destruct (disk e) as [| | |[|]|[|]]; cbn -[JSON_stringify loadData];
      repeat split; intros; try discriminate; reflexivity.
  - rewrite Hpush.
    destruct (disk e) as [| | |[|]|[|]]; cbn -[JSON_stringify loadData];
      repeat split; intros; try discriminate; reflexivity.
Qed.

Lemma files_after_a_201_witness :
  (booksPath (fst (serve Node.node
                     {| randomUUID := randomUUID env0; today := today env0;
                        now_iso := now_iso env0; disk := BooksWriteFails |}
                     (post_request ["api"; "books"] valid_header book_T) state0))
   = booksPath state0
   /\ reviewsPath (fst (serve Node.node
                          {| randomUUID := randomUUID env0; today := today env0;
                             now_iso := now_iso env0; disk := BooksWriteFails |}
                          (post_request ["api"; "books"] valid_header book_T) state0))
      = reviewsPath state0)
  /\ booksPath (fst (serve Node.node
                       {| randomUUID := randomUUID env0; today := today env0;
                          now_iso := now_iso env0; disk := BooksWriteBreaks false |}
                       (post_request ["api"; "books"] valid_header book_T) state0))
     = None.
Proof.
  split.
  - apply (files_after_a_201 Node.node
             {| randomUUID := randomUUID env0; today := today env0;
                now_iso := now_iso env0; disk := BooksWriteFails |}
             (post_request ["api"; "books"] valid_header book_T) state0).
    reflexivity.
  - apply (files_after_a_201 Node.node
             {| randomUUID := randomUUID env0; today := today env0;
                now_iso := now_iso env0; disk := BooksWriteBreaks false |}
             (post_request ["api"; "books"] valid_header book_T) state0).
    reflexivity.
Defined.

Lemma step_in_sync (e : env) (st st' : state) :
  disk e = WriteOk -> step_of e st st' -> in_sync st -> in_sync st'.
Proof.
  intros Hw [->|[[x ->]|[x ->]]] Hsync; [exact Hsync|rewrite Hw..];
    apply saveData_ok_in_sync.
Qed.

(** X10.  While the writes succeed, the files mirror the memory.  If both
    files hold the collections that are in memory, then after any sequence of
    requests whose writes all succeed both files again hold the collections
    that are then in memory. *)
Theorem files_mirror_the_memory :
  forall P reqs st,
    in_sync st -> Forall write_ok reqs -> in_sync (run P reqs st).
Proof.
  intros P reqs. induction reqs as [|[e req] reqs IH]; intros st Hsync Hok; cbn [run].
  - exact Hsync.
  - inversion Hok as [|x l Hw Hrest]; subst. apply IH; [|exact Hrest].
    exact (step_in_sync e st _ Hw (serve_step P e req st) Hsync).
Qed.

Lemma files_mirror_the_memory_witness :
  in_sync (run Node.node
             [(env0, post_request ["api"; "books"] valid_header book_T);
              (env1, post_request ["api"; "reviews"] valid_header review_four);
              (env1, get_request ["api"; "featured"] [])]
             state1).
Proof.
  apply (files_mirror_the_memory Node.node).
  - split; reflexivity.
  - repeat constructor.
Defined.

(** ** What the records added through the API look like *)

Lemma grows_refl (st : state) : grows st st.
Proof. exists [], []. rewrite !app_nil_r. now repeat split. Qed.

Lemma refers_more (bs more : list obj) (review : obj) :
  refers_to_a_book bs review -> refers_to_a_book (bs ++ more) review.
Proof.
  intros (book & Hin & Hb). exists book. split; [|exact Hb].
  apply in_or_app. now left.
Qed.

Lemma grows_trans (a b c : state) : grows a b -> grows b c -> grows a c.
Proof.
  intros (nb & nr & Hb & Hr & Hpb & Href) (nb' & nr' & Hb' & Hr' & Hpb' & Href').
  exists (nb ++ nb'), (nr ++ nr'). rewrite Hb', Hr', Hb, Hr, !app_assoc.
  repeat split.
  - apply Forall_app. now split.
  - apply Forall_app. split; [|now rewrite Hb', Hb in Href'].
    rewrite <- Hb. rewrite Forall_forall in *. intros review Hin.
    apply refers_more. now apply Href.
Qed.

Lemma serve_grows (P : platform) (e : env) req st :
  grows st (fst (serve P e req st)).
Proof.
  unfold serve. apply (dispatch_related grows); [apply grows_refl|].
  unfold app. repeat apply Forall_cons; try apply Forall_nil;
    cbn [route_handler]; intros ps.
  - apply grows_refl.
  - rewrite (proj1 (get_api_books_id_reads P e ps req st)). apply grows_refl.
  - rewrite (proj1 (get_api_books_published_reads P e ps req st)). apply grows_refl.
  - rewrite (proj1 (get_api_books_top_rated_reads P e ps req st)). apply grows_refl.
  - apply grows_refl.
  - rewrite (proj1 (get_api_books_id_reviews_reads P e ps req st)). apply grows_refl.
  - unfold post_api_books.
    destruct (_ || _); [apply grows_refl|].
    destruct (field (body req) "title"); [|apply grows_refl].
    destruct (field (body req) "author"); [|apply grows_refl].
    destruct (field (body req) "isbn"); [|apply grows_refl].
    eexists _, []. cbn [fst]. rewrite saveData_books, saveData_reviews.
    cbn [books reviews push_book].
    split; [reflexivity|]. split; [now rewrite app_nil_r|]. split; [|constructor].
    constructor; [|constructor]. now repeat split.
  - unfold post_api_reviews.
    destruct (_ || _); [apply grows_refl|].
    destruct (field (body req) "bookId") as [bookId|]; [|apply grows_refl].
    destruct (field (body req) "author"); [|apply grows_refl].
    destruct (field (body req) "rating"); [|apply grows_refl].
    destruct (field (body req) "comment"); [|apply grows_refl].
    destruct (existsb _ (books st)) eqn:Hex; cbn [negb]; [|apply grows_refl].
    destruct (parseInt P _); [|apply grows_refl].
    eexists [], _. cbn [fst]. rewrite saveData_books, saveData_reviews.
    cbn [books reviews push_review].
    split; [now rewrite app_nil_r|]. split; [reflexivity|]. split; [constructor|].
    constructor; [|constructor].
    apply existsb_exists in Hex as (book & Hin & Hbook). now exists book.
Qed.

Lemma run_grows (P : platform) (reqs : list (env * request)) st :
  grows st (run P reqs st).
Proof.
  revert st. induction reqs as [|[e req] reqs IH]; intros st; cbn [run].
  - apply grows_refl.
  - eapply grows_trans; [apply serve_grows|apply IH].
Qed.

(** X11.  No request creates an orphan review.  After any sequence of
    requests, every review that was added has a bookId strictly equal to the
    id of a stored Book; so if every stored review referred to a stored Book
    before, every stored review does afterwards. *)
Theorem reviews_keep_referring_to_books :
  forall P reqs st,
    (exists added,
        reviews (run P reqs st) = reviews st ++ added
        /\ Forall (refers_to_a_book (books (run P reqs st))) added)
    /\ (Forall (refers_to_a_book (books st)) (reviews st) ->
        Forall (refers_to_a_book (books (run P reqs st))) (reviews (run P reqs st))).
Proof.
  intros P reqs st.
  destruct (run_grows P reqs st) as (nb & nr & Hb & Hr & _ & Href).
  split; [now exists nr|].
  intros Hold. rewrite Hr. apply Forall_app. split; [|exact Href].
  rewrite Hb. rewrite Forall_forall in *. intros review Hin.
  apply refers_more. now apply Hold.
Qed.

Lemma featured_of_plain (books0 added : list obj) :
  Forall plain_book added ->
  filter (fun book => strict_eq (prop book "featured") (Some (VBool true)))
         (books0 ++ added)
  = filter (fun book => strict_eq (prop book "featured") (Some (VBool true))) books0.
Proof.
  intros H. rewrite filter_app.
  replace (filter _ added) with (@nil obj); [apply app_nil_r|].
  induction H as [|book added (_ & _ & _ & Hf) _ IH]; [reflexivity|].
  cbn [filter]. rewrite Hf. exact IH.
Qed.

(** X12.  Nothing done through the API changes the featured list.  A Book
    is created with featured false and no request updates a Book, so after
    any sequence of requests GET /api/featured is answered 200 with the same
    list as before: the stored Books whose featured field is the boolean
    true, in collection order. *)
Theorem featured_list_never_changes :
  forall P reqs st e q h b,
    snd (serve P e {| verb := GET; path := ["api"; "featured"];
                      query := q; authorization := h; body := b |}
               (run P reqs st))
    = sendJson 200
        (array_of (filter (fun book =>
                             match prop book "featured" with
                             | Some (VBool true) => true
                             | _ => false
                             end) (books st))).
Proof.
  intros P reqs st e q h b.
  change (snd (serve P e _ (run P reqs st)))
    with (sendJson 200
            (array_of (filter (fun book => strict_eq (prop book "featured")
                                                      (Some (VBool true)))
                              (books (run P reqs st))))).
  destruct (run_grows P reqs st) as (nb & nr & Hb & _ & Hplain & _).
  rewrite Hb, (featured_of_plain _ _ Hplain). reflexivity.
Qed.

(** ** Restarting *)

Lemma existsb_keys_set_prop (o : obj) (k k' : string) (v : value) :
  String.eqb k' k = false ->
  existsb (String.eqb k') (map fst (set_prop o k v))
  = existsb (String.eqb k') (map fst o).
Proof.
  intros Hk. induction o as [|[k0 v0] o IH]; cbn.
  - now rewrite Hk.
  - destruct (String.eqb k0 k); cbn; [reflexivity|now rewrite IH].
Qed.

Lemma set_prop_storable (o : obj) (k : string) (v : value) :
  storable (VObj o) = true -> storable v = true -> storable (VObj (set_prop o k v)) = true.
Proof.
  intros Ho Hv. induction o as [|[k0 v0] o IH]; cbn.
  - now rewrite Hv.
  - cbn in Ho. apply andb_true_iff in Ho as [Hd Hall].
    apply andb_true_iff in Hd as [Hk0 Hd]. apply andb_true_iff in Hall as [Hv0 Hall].
    assert (Ho : storable (VObj o) = true) by (cbn; now rewrite Hd, Hall).
    specialize (IH Ho). cbn in IH. apply andb_true_iff in IH as [IHd IHall].
    destruct (String.eqb k0 k) eqn:E; cbn.
    + now rewrite Hk0, Hd, Hv, Hall.
    + rewrite (existsb_keys_set_prop o k k0 v E), Hk0, IHd, Hv0, IHall. reflexivity.
Qed.

Lemma parse_members_storable (f : value -> json) (g : json -> value)
      (l : list (string * value)) :
  Forall (fun kv => storable (g (f (snd kv))) = true) l ->
  forall acc,
    storable (VObj acc) = true ->
    storable (VObj (fold_left (fun o kv => set_prop o (fst kv) (g (snd kv)))
                              (map (fun kv => (fst kv, f (snd kv))) l) acc)) = true.
Proof.
  induction 1 as [|[k v] l Hkv _ IH]; intros acc Hacc; cbn [map fold_left fst snd].
  - exact Hacc.
  - apply IH. now apply set_prop_storable.
Qed.

Lemma parsed_number_storable (x : float) :
  storable (JSON_parse (stringify_number x)) = true.
Proof.
  unfold stringify_number. destruct (classify x) eqn:E; cbn; try reflexivity;
    unfold storable_number; now rewrite E.
Qed.

(** Whatever is read back from a JSON text can be written and read back
    again without change. *)
Lemma parsed_storable (v : value) : storable (JSON_parse (JSON_stringify v)) = true.
Proof.
  induction v as [| | | |items IH|props IH] using value_induction;
    cbn [JSON_stringify]; try reflexivity.
  - apply parsed_number_storable.
  - cbn [JSON_parse storable]. rewrite map_map.
    induction IH as [|x items Hx _ IHitems]; [reflexivity|].
    cbn [map forallb]. now rewrite Hx, IHitems.
  - cbn [JSON_parse]. now apply parse_members_storable.
Qed.

Lemma reload_spec (o : obj) : JSON_parse (JSON_stringify (VObj o)) = VObj (reload o).
Proof. reflexivity. Qed.

Lemma reload_records (records : list obj) :
  map JSON_parse (map JSON_stringify (map VObj records)) = map VObj (map reload records).
Proof.
  induction records as [|r records IH]; [reflexivity|].
  cbn [map]. now rewrite IH, reload_spec.
Qed.

Lemma reload_storable (records : list obj) :
  Forall (fun r => storable (VObj r) = true) (map reload records).
Proof.
  induction records as [|r records IH]; constructor; [|exact IH].
  rewrite <- reload_spec. apply parsed_storable.
Qed.

Lemma loadData_saveData (st : state) :
  loadData (booksPath (saveData WriteOk st)) (reviewsPath (saveData WriteOk st))
  = Loaded (map reload (books st)) (map reload (reviews st)).
Proof.
  unfold saveData, loadData, array_of.
  cbn [booksPath reviewsPath JSON_stringify JSON_parse map fst snd fold_left set_prop].
  rewrite !reload_records. cbn. now rewrite !records_of_objects.
Qed.

(** X13.  A restart after a successful save always finds its data, and
    what it finds is stable.  Whatever the collections hold, the two files
    written by [saveData] are read by [loadData] without exit, as two
    collections with as many records as were saved (a number JSON cannot
    hold comes back as null or 0); and saving and loading those collections
    again gives exactly the same collections. *)
Theorem restart_loads_and_is_stable :
  forall st,
    exists bs rs,
      loadData (booksPath (saveData WriteOk st)) (reviewsPath (saveData WriteOk st))
      = Loaded bs rs
      /\ List.length bs = List.length (books st)
      /\ List.length rs = List.length (reviews st)
      /\ forall st',
          books st' = bs -> reviews st' = rs ->
          loadData (booksPath (saveData WriteOk st')) (reviewsPath (saveData WriteOk st'))
          = Loaded bs rs.
Proof.
  intros st. exists (map reload (books st)), (map reload (reviews st)).
  split; [apply loadData_saveData|]. rewrite !length_map.
  split; [reflexivity|]. split; [reflexivity|].
  intros st' Hb Hr. unfold saveData, loadData, array_of.
  cbn [booksPath reviewsPath JSON_stringify JSON_parse map fst snd fold_left set_prop].
  rewrite Hb, Hr.
  rewrite (parse_stringify_records _ (reload_storable (books st))),
    (parse_stringify_records _ (reload_storable (reviews st))).
  cbn. now rewrite !records_of_objects.
Qed.

(** ** The rating of a review *)

Lemma leading_digits_no_digit (s : string) :
  no_digit s = true -> leading_digits s = [].
Proof. destruct s as [|a s]; cbn; [reflexivity|]. now destruct (digit a). Qed.

Lemma no_digit_tail (a : ascii) (s : string) :
  no_digit (String a s) = true -> no_digit s = true.
Proof. cbn. now destruct (digit a). Qed.

(** [trim_start] drops one, two or three bytes at a time: the induction is
    on a bound of the length. *)
Lemma no_digit_trim_start_bounded (n : nat) :
  forall s, String.length s <= n -> no_digit s = true -> no_digit (trim_start s) = true.
Proof.
  induction n as [|n IH]; intros s Hlen Hnd.
  - destruct s; [reflexivity|cbn in Hlen; lia].
  - destruct s as [|a s1]; [reflexivity|]. cbn [trim_start].
    pose proof (no_digit_tail _ _ Hnd) as H1. cbn [String.length] in Hlen.
    destruct (is_space a); [apply IH; [lia|exact H1]|].
    destruct s1 as [|b s2]; [exact Hnd|].
    pose proof (no_digit_tail _ _ H1) as H2. cbn [String.length] in Hlen.
    destruct (is_space2 a b); [apply IH; [lia|exact H2]|].
    destruct s2 as [|c s3]; [exact Hnd|].
    pose proof (no_digit_tail _ _ H2) as H3. cbn [String.length] in Hlen.
    destruct (is_space3 a b c); [apply IH; [lia|exact H3]|exact Hnd].
Qed.

Lemma no_digit_trim_start (s : string) :
  no_digit s = true -> no_digit (trim_start s) = true.
Proof. apply (no_digit_trim_start_bounded (String.length s)). lia. Qed.

Lemma parseInt_string_no_digit (s : string) :
  no_digit s = true -> parseInt_string s = nan.
Proof.
  intros H. apply no_digit_trim_start in H. unfold parseInt_string.
  destruct (trim_start s) as [|a r]; [reflexivity|].
  pose proof (leading_digits_no_digit _ H) as Hall.
  pose proof (leading_digits_no_digit _ (no_digit_tail _ _ H)) as Htail.
  destruct a as [[|] [|] [|] [|] [|] [|] [|] [|]];
    cbv beta iota zeta; first [now rewrite Htail | now rewrite Hall].
Qed.

(** X14.  The presence check of POST /api/reviews is made on the rating as
    it was sent, before [parseInt]: a rating that is a non-empty string
    without any digit ("five", "n/a") passes the check, and the Review is
    created, answered 201 and stored with the rating [NaN]. *)
Theorem rating_without_digits_is_stored_as_NaN :
  forall P e q h b st bookId author s comment,
    basicAuth P h = Next ->
    field b "bookId" = Some bookId -> truthy bookId = true ->
    field b "author" = Some author -> truthy author = true ->
    field b "rating" = Some (VStr s) -> s <> "" -> no_digit s = true ->
    field b "comment" = Some comment -> truthy comment = true ->
    (exists book, In book (books st) /\ strict_eq (prop book "id") (Some bookId) = true) ->
    let req := {| verb := POST; path := ["api"; "reviews"];
                  query := q; authorization := h; body := b |} in
    exists newReview,
      snd (serve P e req st) = sendJson 201 (VObj newReview)
      /\ reviews (fst (serve P e req st)) = reviews st ++ [newReview]
      /\ prop newReview "rating" = Some (VNum nan).
Proof.
  intros P e q h b st bookId author s comment
         Hauth Hb Hbt Ha Hat Hr Hs Hnd Hc Hct Hbook req. unfold req.
  rewrite (post_reviews_checked P e q h b st bookId author (VStr s) comment
             Hauth Hb Hbt Ha Hat Hr (nonempty_truthy s Hs) Hc Hct Hbook).
  unfold parseInt. cbn [toString]. rewrite (parseInt_string_no_digit s Hnd).
  eexists. cbn [fst snd]. split; [reflexivity|].
  rewrite saveData_reviews. split; reflexivity.
Qed.

Lemma rating_without_digits_is_stored_as_NaN_witness :
  option_map (fun review => prop review "rating")
             (nth_error (reviews (fst (serve Node.node env0
                                         (post_request ["api"; "reviews"] valid_header
                                                       review_five) state0))) 0)
  = Some (Some (VNum nan)).
Proof.
  destruct (rating_without_digits_is_stored_as_NaN
              Node.node env0 [] valid_header (VObj review_five) state0
              (VStr "1") (VStr "A") "five" (VStr "x"))
    as (newReview & _ & Hreviews & Hrating);
    [reflexivity | reflexivity | reflexivity | reflexivity | reflexivity
    | reflexivity | discriminate | reflexivity | reflexivity | reflexivity
    | exists book1; split; [now left|reflexivity] | ].
  unfold post_request. rewrite Hreviews. cbn. now rewrite Hrating.
Defined.

(** ** The order of time values *)

Lemma SFleb_trans (a b c : spec_float) :
  SFleb a b = true -> SFleb b c = true -> SFleb a c = true.
Proof.
  unfold SFleb, SFcompare.
  destruct a as [sa|sa| |sa ma ea], b as [sb|sb| |sb mb eb], c as [sc|sc| |sc mc ec];
    try discriminate; try reflexivity;
    repeat match goal with s : bool |- _ => destruct s end;
    try discriminate; try reflexivity.
  all: rewrite ?Pos.compare_cont_spec; unfold Pos.switch_Eq.
  all: destruct (Z.compare_spec ea eb), (Z.compare_spec eb ec), (Z.compare_spec ea ec);
    try lia; try discriminate; try reflexivity; subst.
  all: destruct (Pos.compare_spec ma mb), (Pos.compare_spec mb mc), (Pos.compare_spec ma mc);
    cbn; try lia; try discriminate; try reflexivity.
Qed.

Lemma SFcompare_refl (a : spec_float) :
  a = S754_nan \/ SFcompare a a = Some Eq.
Proof.
  destruct a as [s|s| |s m e]; [right|right|left|right]; try reflexivity.
  - now destruct s.
  - cbn. rewrite Z.compare_refl, Pos.compare_cont_refl. now destruct s.
Qed.

Lemma SFltb_not_leb (a b : spec_float) : SFltb a b = true -> SFleb b a = false.
Proof.
  unfold SFltb, SFleb, SFcompare.
  destruct a as [sa|sa| |sa ma ea], b as [sb|sb| |sb mb eb];
    try discriminate; try reflexivity;
    repeat match goal with s : bool |- _ => destruct s end;
    try discriminate; try reflexivity.
  all: rewrite ?Pos.compare_cont_spec; unfold Pos.switch_Eq.
  all: destruct (Z.compare_spec ea eb), (Z.compare_spec eb ea);
    try lia; try discriminate; try reflexivity; subst.
  all: destruct (Pos.compare_spec ma mb), (Pos.compare_spec mb ma);
    cbn; try lia; try discriminate; try reflexivity.
Qed.

Lemma leb_trans (x y z : float) :
  leb x y = true -> leb y z = true -> leb x z = true.
Proof. rewrite !leb_spec. apply SFleb_trans. Qed.

Lemma ltb_not_leb (x y : float) : ltb x y = true -> leb y x = false.
Proof. rewrite ltb_spec, leb_spec. apply SFltb_not_leb. Qed.

Lemma leb_refl (x : float) : is_nan x = false -> leb x x = true.
Proof.
  unfold is_nan. rewrite eqb_spec, leb_spec. unfold SFeqb, SFleb.
  destruct (SFcompare_refl (Prim2SF x)) as [-> | ->]; [discriminate|reflexivity].
Qed.

Lemma leb_not_nan (x y : float) : leb x y = true -> is_nan x = false /\ is_nan y = false.
Proof.
  unfold is_nan. rewrite !eqb_spec, leb_spec. unfold SFeqb, SFleb. intros H.
  split.
  - destruct (SFcompare_refl (Prim2SF x)) as [E|E]; rewrite E in *; [discriminate|reflexivity].
  - destruct (SFcompare_refl (Prim2SF y)) as [E|E]; rewrite E in *; [|reflexivity].
    now destruct (Prim2SF x).
Qed.

(** ** The two handlers behind the shadowed routes *)

Lemma filter_none {A : Type} (f : A -> bool) (l : list A) :
  (forall x, In x l -> f x = false) -> filter f l = [].
Proof.
  induction l as [|x l IH]; cbn; intros H; [reflexivity|].
  rewrite (H x (or_introl eq_refl)). apply IH. intros y Hy. apply H. now right.
Qed.

Lemma filter_dates_converted (P : platform) (start end_ : float) (l : list obj) :
  dates_converted P l ->
  filter_dates P start end_ l = Some (filter (within P start end_) l).
Proof.
  induction 1 as [|book l Hbook _ IH]; cbn [filter_dates filter]; [reflexivity|].
  unfold within at 1, published_at.
  destruct (new_Date P (prop book "datePublished")) as [t|]; [|contradiction].
  rewrite IH. now destruct (leb start t && leb t end_).
Qed.

Lemma filter_dates_throws (P : platform) (start end_ : float) (l : list obj) :
  (exists book, In book l /\ new_Date P (prop book "datePublished") = None) ->
  filter_dates P start end_ l = None.
Proof.
  induction l as [|x l IH]; intros (book & Hin & Hbook); [contradiction|].
  cbn [filter_dates].
  destruct (new_Date P (prop x "datePublished")) as [t|] eqn:E; [|reflexivity].
  destruct Hin as [->|Hin]; [congruence|].
  rewrite IH; [reflexivity|]. now exists book.
Qed.

(** X15.  The handler registered for /api/books/published, once entered
    (the router does not reach it as the routes are registered now), never
    changes the state and answers as follows.  If startDate or endDate is
    missing or falsy: 400.  Otherwise both are handed to [new Date], then the
    publication date of every Book is; a value whose conversion throws (an
    object with a property named toString) ends the request in the 500 of
    the default error handler.  When nothing throws: if either bound is not
    a date, 400 with the message about the format; otherwise 200 with the
    Books whose publication date lies between the two, in collection order;
    the bounds are included, a Book whose own date is missing or invalid is
    never listed, and the list is empty when the start is after the end. *)
Theorem date_range_handler :
  forall P e ps req st,
    let startDate := prop (query req) "startDate" in
    let endDate := prop (query req) "endDate" in
    let answer := get_api_books_published P e ps req st in
    fst answer = st
    /\ (falsy startDate = true \/ falsy endDate = true ->
        snd answer
        = send 400 "Please provide both startDate and endDate query parameters.")
    /\ (falsy startDate = false -> falsy endDate = false ->
        (new_Date P startDate = None \/ new_Date P endDate = None ->
         snd answer = send 500 conversion_error)
        /\ (forall start end_,
              new_Date P startDate = Some start -> new_Date P endDate = Some end_ ->
              (is_nan start = true \/ is_nan end_ = true ->
               snd answer = send 400 "Invalid date format. Please use YYYY-MM-DD.")
              /\ (is_nan start = false -> is_nan end_ = false ->
                  ((exists book, In book (books st)
                                 /\ new_Date P (prop book "datePublished") = None) ->
                   snd answer = send 500 conversion_error)
                  /\ (dates_converted P (books st) ->
                      snd answer
                      = sendJson 200 (array_of (filter (within P start end_) (books st)))
                      /\ (forall book,
                             In book (filter (within P start end_) (books st)) ->
                             is_nan (published_at P book) = false)
                      /\ (forall book,
                             In book (books st) -> leb start end_ = true ->
                             published_at P book = start \/ published_at P book = end_ ->
                             In book (filter (within P start end_) (books st)))
                      /\ (ltb end_ start = true ->
                          filter (within P start end_) (books st) = []))))).
Proof.
  intros P e ps req st startDate endDate answer.
  split; [apply get_api_books_published_reads|].
  unfold answer, get_api_books_published.
  fold startDate endDate.
  split.
  - intros [H|H]; rewrite H, ?orb_true_r; reflexivity.
  - intros Hs He. rewrite Hs, He. cbn [orb]. split.
    + intros [H|H]; rewrite H; [reflexivity|].
      now destruct (new_Date P startDate).
    + intros start end_ Hstart Hend. rewrite Hstart, Hend. split.
      * intros [H|H]; rewrite H, ?orb_true_r; reflexivity.
      * intros Hns Hne. rewrite Hns, Hne. cbn [orb]. split.
        -- intros Hthrows. now rewrite (filter_dates_throws P start end_ _ Hthrows).
        -- intros Hall. rewrite (filter_dates_converted P start end_ _ Hall). cbn [snd].
           split; [reflexivity|]. split; [|split].
           ++ intros book Hin. apply filter_In in Hin as [_ Hin].
              apply andb_true_iff in Hin as [H1 _]. now apply leb_not_nan in H1.
           ++ intros book Hin Hle [Heq|Heq]; apply filter_In; (split; [exact Hin|]);
                unfold within; rewrite Heq.
              ** now rewrite (leb_refl start Hns), Hle.
              ** now rewrite Hle, (leb_refl end_ Hne).
           ++ intros Hlt. apply filter_none. intros book _. unfold within.
              destruct (leb start (published_at P book)) eqn:H1; [|reflexivity].
              destruct (leb (published_at P book) end_) eqn:H2; [|reflexivity].
              pose proof (leb_trans _ _ _ H1 H2) as H3.
              rewrite (ltb_not_leb _ _ Hlt) in H3. discriminate.
Qed.

(** *** Sorting *)

Lemma insert_sorted_map (f : obj -> obj) (c : obj -> obj -> float) (x : obj) (l : list obj) :
  insert_sorted c (f x) (map f l)
  = map f (insert_sorted (fun a b => c (f a) (f b)) x l).
Proof.
  induction l as [|y l IH]; cbn; [reflexivity|].
  destruct (ltb _ _); cbn; [now rewrite IH|reflexivity].
Qed.

Lemma sort_map (f : obj -> obj) (c : obj -> obj -> float) (l : list obj) :
  sort c (map f l) = map f (sort (fun a b => c (f a) (f b)) l).
Proof.
  induction l as [|x l IH]; cbn; [reflexivity|].
  now rewrite IH, insert_sorted_map.
Qed.

Lemma insert_sorted_permutation (c : obj -> obj -> float) (x : obj) (l : list obj) :
  Permutation (insert_sorted c x l) (x :: l).
Proof.
  induction l as [|y l IH]; cbn [insert_sorted]; [reflexivity|].
  destruct (ltb _ _); [|reflexivity].
  rewrite IH. apply perm_swap.
Qed.

Lemma sort_permutation (c : obj -> obj -> float) (l : list obj) :
  Permutation (sort c l) l.
Proof.
  induction l as [|x l IH]; cbn; [reflexivity|].
  rewrite insert_sorted_permutation. now constructor.
Qed.

Lemma sort_ties (c : obj -> obj -> float) (l : list obj) :
  (forall a b, In a l -> In b l -> ltb zero (c a b) = false) -> sort c l = l.
Proof.
  induction l as [|x l IH]; intros H; cbn [sort]; [reflexivity|].
  rewrite IH by (intros a b Ha Hb; apply H; now right).
  destruct l as [|y l]; [reflexivity|]. cbn [insert_sorted].
  now rewrite (H x y (or_introl eq_refl) (or_intror (or_introl eq_refl))).
Qed.

Lemma prop_set_prop_same (o : obj) (k : string) (v : value) :
  prop (set_prop o k v) k = Some v.
Proof.
  induction o as [|[k0 v0] o IH]; cbn; [now rewrite String.eqb_refl|].
  destruct (String.eqb k0 k) eqn:E; cbn; rewrite E; [reflexivity|exact IH].
Qed.

Lemma prop_set_prop_other (o : obj) (k k' : string) (v : value) :
  k' <> k -> prop (set_prop o k v) k' = prop o k'.
Proof.
  intros Hk. induction o as [|[k0 v0] o IH]; cbn.
  - apply String.eqb_neq in Hk. rewrite String.eqb_sym in Hk. now rewrite Hk.
  - destruct (String.eqb k0 k) eqn:E; cbn; [|now rewrite IH].
    apply String.eqb_eq in E. subst k0.
    destruct (String.eqb k k') eqn:E'; [|reflexivity].
    apply String.eqb_eq in E'. now subst.
Qed.

Lemma map_scores_computed (P : platform) (l : list obj) :
  scores_computed P l -> map_scores P l = Some (map (with_score P) l).
Proof.
  induction 1 as [|book l Hbook _ IH]; cbn [map_scores map]; [reflexivity|].
  unfold with_score at 1, score.
  destruct (ratingScore P book) as [x|]; [|contradiction].
  now rewrite IH.
Qed.

Lemma map_scores_throws (P : platform) (l : list obj) :
  (exists book, In book l /\ ratingScore P book = None) -> map_scores P l = None.
Proof.
  induction l as [|x l IH]; intros (book & Hin & Hbook); [contradiction|].
  cbn [map_scores].
  destruct (ratingScore P x) as [t|] eqn:E; [|reflexivity].
  destruct Hin as [->|Hin]; [congruence|].
  rewrite IH; [reflexivity|]. now exists book.
Qed.

Lemma sort_by_score (P : platform) (l : list obj) :
  sort (fun a b => sub (score_of (with_score P b)) (score_of (with_score P a))) l
  = sort (by_score P) l.
Proof.
  assert (E : forall a b,
             sub (score_of (with_score P b)) (score_of (with_score P a)) = by_score P a b).
  { intros a b. unfold score_of, with_score. now rewrite !prop_set_prop_same. }
  induction l as [|x l IH]; cbn [sort]; [reflexivity|]. rewrite IH.
  generalize (sort (by_score P) l). intros l'.
  induction l' as [|y l' IH']; cbn [insert_sorted]; [reflexivity|].
  now rewrite E, IH'.
Qed.

(** X16.  The handler registered for /api/books/top-rated, once entered
    (the router does not reach it as the routes are registered now), never
    changes the state.  It multiplies the rating of every Book by its
    reviewCount; when the conversion of one of them to a number throws (an
    object with a property named toString), the answer is the 500 of the
    default error handler.  Otherwise it answers 200 with the first ten of a
    reordering of the stored Books (none dropped, none repeated; all of them
    when there are fewer than ten).  Each entry is the Book with one field
    set, ratingScore, to its rating times its reviewCount, every other field
    as stored.  When no two Books compare as out of order (all scores tie,
    as for Books that were all created through the API), the order is the
    collection order. *)
Theorem ranking_handler :
  forall P e ps req st,
    let answer := get_api_books_top_rated P e ps req st in
    fst answer = st
    /\ ((exists book, In book (books st) /\ ratingScore P book = None) ->
        snd answer = send 500 conversion_error)
    /\ (scores_computed P (books st) ->
        exists ranked,
          snd answer = sendJson 200 (array_of (map (with_score P) (firstn 10 ranked)))
          /\ Permutation ranked (books st)
          /\ List.length (firstn 10 ranked) = Nat.min 10 (List.length (books st))
          /\ ((forall a b, In a (books st) -> In b (books st) ->
                           ltb zero (by_score P a b) = false) ->
              ranked = books st))
    /\ (forall book,
          (ratingScore P book = None
           <-> toNumber P (prop book "rating") = None
               \/ toNumber P (prop book "reviewCount") = None)
          /\ (forall rating reviewCount,
                toNumber P (prop book "rating") = Some rating ->
                toNumber P (prop book "reviewCount") = Some reviewCount ->
                prop (with_score P book) "ratingScore"
                = Some (VNum (mul rating reviewCount)))
          /\ (forall k, k <> "ratingScore" -> prop (with_score P book) k = prop book k)).
Proof.
  intros P e ps req st answer.
  split; [apply get_api_books_top_rated_reads|]. split; [|split].
  - intros Hthrows. unfold answer, get_api_books_top_rated.
    now rewrite (map_scores_throws P _ Hthrows).
  - intros Hall. exists (sort (by_score P) (books st)). split; [|split; [|split]].
    + unfold answer, get_api_books_top_rated, slice0.
      rewrite (map_scores_computed P _ Hall). cbn [snd]. do 2 f_equal.
      now rewrite sort_map, firstn_map, sort_by_score.
    + apply sort_permutation.
    + rewrite length_firstn. now rewrite (Permutation_length (sort_permutation _ _)).
    + apply sort_ties.
  - intros book. split; [|split].
    + unfold ratingScore.
      destruct (toNumber P (prop book "rating")), (toNumber P (prop book "reviewCount"));
        split; try tauto; try discriminate.
      intros [H|H]; discriminate.
    + intros rating reviewCount Hr Hc. unfold with_score, score, ratingScore.
      rewrite Hr, Hc. apply prop_set_prop_same.
    + intros k Hk. unfold with_score. now apply prop_set_prop_other.
Qed.

(** ** Identifiers *)

Lemma serve_books_step (P : platform) (e : env) req st :
  books (fst (serve P e req st)) = books st
  \/ exists newBook,
      books (fst (serve P e req st)) = books st ++ [newBook]
      /\ prop newBook "id" = Some (VStr (randomUUID e)).
Proof.
  unfold serve.
  apply (dispatch_related
           (fun st st' =>
              books st' = books st
              \/ exists newBook,
                  books st' = books st ++ [newBook]
                  /\ prop newBook "id" = Some (VStr (randomUUID e))));
    [now left|].
  unfold app. repeat apply Forall_cons; try apply Forall_nil;
    cbn [route_handler]; intros ps.
  - now left.
  - left. now rewrite (proj1 (get_api_books_id_reads P e ps req st)).
  - left. now rewrite (proj1 (get_api_books_published_reads P e ps req st)).
  - left. now rewrite (proj1 (get_api_books_top_rated_reads P e ps req st)).
  - now left.
  - left. now rewrite (proj1 (get_api_books_id_reviews_reads P e ps req st)).
  - unfold post_api_books.
    destruct (_ || _); [now left|].
    destruct (field (body req) "title"); [|now left].
    destruct (field (body req) "author"); [|now left].
    destruct (field (body req) "isbn"); [|now left].
    right. eexists. cbn [fst]. rewrite saveData_books. split; reflexivity.
  - left. apply post_api_reviews_books.
Qed.

Lemma NoDup_snoc {A : Type} (l : list A) (x : A) :
  NoDup l -> ~ In x l -> NoDup (l ++ [x]).
Proof.
  induction 1 as [|y l Hy Hl IH]; cbn; intros Hx.
  - constructor; [intros []|constructor].
  - constructor.
    + intros Hin. apply in_app_or in Hin as [Hin|[<-|[]]]; [now apply Hy|].
      apply Hx. now left.
    + apply IH. intros Hin. apply Hx. now right.
Qed.

(** X17.  The ids of the Books stay pairwise different as long as the
    generated identifiers are new.  If no two stored Books have the same id
    and the identifier generated while a request is served is the id of no
    stored Book, then no two Books have the same id after the request; the
    server itself never compares a generated identifier with the stored
    ones. *)
Theorem ids_stay_different :
  forall P e req st,
    NoDup (map (fun book => prop book "id") (books st)) ->
    (forall book, In book (books st) -> prop book "id" <> Some (VStr (randomUUID e))) ->
    NoDup (map (fun book => prop book "id") (books (fst (serve P e req st)))).
Proof.
  intros P e req st Hnodup Hfresh.
  destruct (serve_books_step P e req st) as [->|(newBook & -> & Hid)]; [exact Hnodup|].
  rewrite map_app. cbn [map]. apply NoDup_snoc; [exact Hnodup|].
  rewrite Hid. intros Hin. apply in_map_iff in Hin as (book & Hbook & Hin).
  now apply (Hfresh book Hin).
Qed.

Lemma ids_stay_different_witness :
  NoDup (map (fun book => prop book "id")
             (books (fst (serve Node.node env0
                            (post_request ["api"; "books"] valid_header book_T) state1)))).
Proof.
  apply (ids_stay_different Node.node env0).
  - repeat constructor; cbn; intuition discriminate.
  - intros book [<-|[<-|[]]]; discriminate.
Defined.

(** ** Start-up *)

Lemma JSON_parse_null (j : json) : JSON_parse j = VNull <-> j = JNull.
Proof. destruct j; cbn; split; intros H; try discriminate; reflexivity. Qed.

(** X18.  Start-up only checks that the two files can be read and parsed.
    [loadData] exits exactly when a file is missing or is not JSON, or when
    one of the two texts is the JSON value null (reading a property of null
    throws); any other pair of JSON texts is accepted without exit, whether
    or not it holds an array of records under the expected key. *)
Theorem loadData_exits_only_on_unreadable_files :
  forall booksFile reviewsFile,
    loadData booksFile reviewsFile = Exited
    <-> (booksFile = None \/ reviewsFile = None
         \/ booksFile = Some JNull \/ reviewsFile = Some JNull).
Proof.
  intros [bj|] [rj|]; unfold loadData; split; intros H;
    try (now left); try (right; now left); try reflexivity.
  - destruct (JSON_parse bj) eqn:Eb.
    1: { apply JSON_parse_null in Eb. subst. right. right. now left. }
    all: destruct (JSON_parse rj) eqn:Er;
      try (apply JSON_parse_null in Er; subst; right; right; now right).
    all: exfalso; revert H;
      repeat match goal with
             | |- context [match ?x with _ => _ end] => destruct x
             end; discriminate.
  - destruct H as [H|[H|[H|H]]]; try discriminate; injection H as ->.
    + reflexivity.
    + cbn [JSON_parse]. now destruct (JSON_parse bj).
Qed.

(** ** Validation of a new book *)

(** X19.  POST /api/books checks the three required fields for presence
    only, not for their type.  For an authenticated request the answer is
    201 exactly when title, author and isbn are all present and truthy, and
    400 otherwise; when it is 201 the three values are stored as they were
    sent, whatever their JSON type (a number, an array or an object is
    accepted as a title; the number 0, false, null and "" are not). *)
Theorem addBook_checks_presence_only :
  forall P e q h b st,
    basicAuth P h = Next ->
    let req := {| verb := POST; path := ["api"; "books"];
                  query := q; authorization := h; body := b |} in
    (status (snd (serve P e req st)) = 201 \/ status (snd (serve P e req st)) = 400)
    /\ (status (snd (serve P e req st)) = 201
        <-> provided b "title" /\ provided b "author" /\ provided b "isbn")
    /\ (forall title author isbn,
          field b "title" = Some title -> truthy title = true ->
          field b "author" = Some author -> truthy author = true ->
          field b "isbn" = Some isbn -> truthy isbn = true ->
          exists newBook,
            snd (serve P e req st) = sendJson 201 (VObj newBook)
            /\ books (fst (serve P e req st)) = books st ++ [newBook]
            /\ prop newBook "title" = Some title
            /\ prop newBook "author" = Some author
            /\ prop newBook "isbn" = Some isbn).
Proof.
  intros P e q h b st Hauth req. unfold req.
  rewrite serve_post_books. unfold guarded. cbn [authorization]. rewrite Hauth.
  unfold post_api_books, provided. cbn [body].
  destruct (field b "title") as [title|], (field b "author") as [author|],
    (field b "isbn") as [isbn|]; cbn [falsy orb];
    try (split; [now right|]; split;
         [split; [discriminate|intros ((v & [=] & _) & (v' & [=] & _) & (v'' & [=] & _))]
         |intros ? ? ?; discriminate]);
    rewrite ?orb_true_r;
    try (split; [now right|]; split;
         [split; [discriminate|intros ((v & [=] & _) & (v' & [=] & _) & (v'' & [=] & _))]
         |intros ? ? ?; try discriminate; intros ? ?; try discriminate;
          intros ? ?; discriminate]).
  destruct (truthy title) eqn:Ht, (truthy author) eqn:Ha, (truthy isbn) eqn:Hi;
    cbn [negb orb snd fst status sendJson].
  2-8: split; [now right|]; split;
    [split; [discriminate
            |intros ((v & [= <-] & Hv) & (v' & [= <-] & Hv') & (v'' & [= <-] & Hv''));
             congruence]
    |intros t a i [= <-] Ht' [= <-] Ha' [= <-] Hi'; congruence].
  split; [now left|]. split.
  - split; [intros _|reflexivity].
    repeat split; eexists; (split; [reflexivity|assumption]).
  - intros t a i [= <-] _ [= <-] _ [= <-] _. eexists.
    split; [reflexivity|]. rewrite saveData_books. now repeat split.
Qed.

Lemma addBook_checks_presence_only_witness :
  status (snd (serve Node.node env0
                 (post_request ["api"; "books"] valid_header book_untyped) state0)) = 201.
Proof.
  apply (proj1 (proj2 (addBook_checks_presence_only
                         Node.node env0 [] valid_header (VObj book_untyped) state0
                         eq_refl))).
  repeat split; eexists; (split; [reflexivity|reflexivity]).
Defined.

(** ** What a read depends on *)

Lemma route_request_get_independent (routes : list route) (P : platform) (e e' : env)
      (p : list string) (q : obj) (a a' : option string) (bd bd' : body_in)
      (b b' : option value) (st : state) :
  Forall (fun r =>
            route_verb r = POST
            \/ (route_verb r = GET /\ route_auth r = false
                /\ forall ps v v',
                    route_handler r P e ps (parsed (http_get p q a bd) v) st
                    = route_handler r P e' ps (parsed (http_get p q a' bd') v') st)) routes ->
  route_request routes P e (http_get p q a bd) b st
  = route_request routes P e' (http_get p q a' bd') b' st.
Proof.
  induction 1 as [|r routes Hr _ IH]; cbn [route_request http_path http_get]; [reflexivity|].
  destruct (match_path _ _) as [raw|]; [|exact IH].
  destruct (decode_params _ _) as [ps|]; [|reflexivity].
  destruct Hr as [Hpost|(Hget & Hauth & Hsame)].
  - rewrite Hpost. cbn [http_verb method_eqb]. exact IH.
  - rewrite Hget. cbn [http_verb method_eqb]. unfold enter_route, enter.
    rewrite Hget, Hauth. destruct b, b'; apply Hsame.
Qed.

(** X20.  A read depends on the path, the query and the stored data only.
    The body parser comes first: a GET whose body it refuses is answered
    400, 413 or 415.  For the requests it lets through, the answer to a GET,
    and the state after it, are the same whatever the Authorization header
    and the body of the request are, and whatever the clock, the identifier
    generator and the disk would have given: no credentials are needed to
    read, and none are looked at. *)
Theorem reads_ignore_credentials_and_body :
  forall V P e e' p q a a' bd bd' st,
    (accepted V bd = true -> accepted V bd' = true ->
     server V P e (http_get p q a bd) st = server V P e' (http_get p q a' bd') st)
    /\ (accepted V bd = false ->
        fst (server V P e (http_get p q a bd) st) = st
        /\ In (status (snd (server V P e (http_get p q a bd) st))) [400; 413; 415]).
Proof.
  intros V P e e' p q a a' bd bd' st. unfold accepted, server. cbn [http_body http_get].
  split.
  - destruct (express_json V bd) as [b|]; [|discriminate].
    destruct (express_json V bd') as [b'|]; [|discriminate].
    intros _ _. apply route_request_get_independent.
    unfold app. repeat apply Forall_cons; try apply Forall_nil;
      cbn [route_verb route_auth route_handler];
      first [now left
            | right; split; [reflexivity|split; [reflexivity|intros ps v v'; reflexivity]]].
  - destruct (express_json V bd) as [b|answer] eqn:E; [discriminate|].
    intros _. split; [reflexivity|].
    exact (proj1 (express_json_answers V bd answer E)).
Qed.

(** X21.  The application and its routes.  When the body parser accepts
    the body and leaves a value in [req.body], and no segment of the path
    changes by decoding (no percent sign in the path), the application
    answers as its routes do on the parsed request, and leaves the same
    state. *)
Theorem server_answers_as_the_routes :
  forall V P e h v st,
    express_json V (http_body h) = inl (Some v) ->
    plain_path P (http_path h) ->
    server V P e h st = serve P e (parsed h v) st.
Proof.
  intros V P e h v st Hbody Hpath. unfold server, serve.
  rewrite Hbody. now apply route_request_dispatch.
Qed.

Lemma server_answers_as_the_routes_witness :
  server Express5 Node.node env0
         (http_post ["api"; "books"] [] valid_header (JsonBody (VObj book_T))) state0
  = serve Node.node env0 (post_request ["api"; "books"] valid_header book_T) state0.
Proof.
  apply (server_answers_as_the_routes Express5 Node.node env0
           (http_post ["api"; "books"] [] valid_header (JsonBody (VObj book_T)))
           (VObj book_T) state0).
  - reflexivity.
  - repeat constructor.
Defined.
